(** * Arka: the simulation core of the arcade game, embedded in Rocq

    The embedding follows the JavaScript sources class by class:
    constants.js (CONFIG), ball.js (Ball), paddle.js (Paddle), brick.js
    (Brick), powerup.js (PowerUp), enemy.js (Enemy), collision.js
    (CollisionDetector), levels.js (LevelManager) and game.js (Game).

    JavaScript numbers are read as real numbers: [Math.min], [Math.max],
    [Math.abs], [Math.sqrt], [Math.sin], [Math.cos] are [Rmin], [Rmax],
    [Rabs], [sqrt], [sin], [cos]; rounding of the binary64 format is not
    part of the model.  Integer-valued counters (hits, score, the
    destroyed-brick counter) are in [Z].  Objects mutated in place become
    records threaded through the functions that mutate them. *)

From Stdlib Require Import Reals.Reals Lra Lia ZArith List Bool Sorted.
Import ListNotations.

Open Scope R_scope.

(** ** Comparisons of numbers as booleans *)

Module Num.

Definition ltb (a b : R) : bool := if Rlt_dec a b then true else false.
Definition leb (a b : R) : bool := if Rle_dec a b then true else false.
Definition gtb (a b : R) : bool := ltb b a.
Definition geb (a b : R) : bool := leb b a.

(** [Math.atan2(y, x)] on real arguments: the angle in (-PI, PI] of the
    point (x, y); the host returns 0 at the origin. *)
Definition atan2 (y x : R) : R :=
  if Rlt_dec 0 x then atan (y / x)
  else if Rlt_dec x 0 then
    (if Rle_dec 0 y then atan (y / x) + PI else atan (y / x) - PI)
  else if Rlt_dec 0 y then PI / 2
  else if Rlt_dec y 0 then - (PI / 2)
  else 0.

End Num.

(** ** constants.js *)

Module CONFIG.

Definition CANVAS_WIDTH : R := 1920.
Definition CANVAS_HEIGHT : R := 1080.
Definition FRAME_TIME : R := 1000 / 60.

Module PADDLE.
Definition WIDTH : R := 120.
Definition HEIGHT : R := 20.
Definition Y_POSITION : R := 60.
Definition SPEED : R := 400.
End PADDLE.

Module BALL.
Definition SIZE : R := 8.
Definition BASE_SPEED : R := 400.
Definition MAX_SPEED : R := 800.
End BALL.

Module BRICK.
Definition WIDTH : R := 188.
Definition HEIGHT : R := 48.
End BRICK.

Module POWERUP.
Definition WIDTH : R := 24.
Definition HEIGHT : R := 12.
Definition SPEED : R := 150.
Definition DROP_CHANCE : R := 2 / 10.
Definition DURATION : R := 10000.
End POWERUP.

Module ENEMY.
Definition WIDTH : R := 40.
Definition HEIGHT : R := 40.
Definition SPEED : R := 80.
Definition APPEAR_DELAY : R := 30000.
End ENEMY.

Module GAME.
Definition INITIAL_LIVES : Z := 3%Z.
Definition MIN_BOUNCE_ANGLE : R := PI / 6.
Definition MAX_BOUNCE_ANGLE : R := PI / 3.
End GAME.

End CONFIG.

Inductive POWERUP_TYPES : Type := EXTEND | SLOW | MULTIBALL | LASER.

Inductive BALL_STATES : Type := ATTACHED | LAUNCHED | CAUGHT.

Inductive POWERUP_STATES : Type := SPAWNED | FALLING | PU_CAUGHT | EXPIRED.

Inductive GAME_STATES : Type :=
  MENU | PLAYING | PAUSED | GAME_OVER | LEVEL_COMPLETE.

Definition BALL_STATES_eqb (a b : BALL_STATES) : bool :=
  match a, b with
  | ATTACHED, ATTACHED | LAUNCHED, LAUNCHED | CAUGHT, CAUGHT => true
  | _, _ => false
  end.

Definition POWERUP_STATES_eqb (a b : POWERUP_STATES) : bool :=
  match a, b with
  | SPAWNED, SPAWNED | FALLING, FALLING | PU_CAUGHT, PU_CAUGHT
  | EXPIRED, EXPIRED => true
  | _, _ => false
  end.

(** The object literal [{x, y, width, height}] that every [getBounds]
    returns. *)
Module Rect.
Record t : Type := mk { x : R; y : R; width : R; height : R }.
End Rect.

(** The object literal [{x, y, radius}] built by [checkBallBrick]. *)
Module Circle.
Record t : Type := mk { x : R; y : R; radius : R }.
End Circle.

(** ** ball.js *)

Module Ball.

Record t : Type := mk {
  x : R;
  y : R;
  size : R;
  baseSpeed : R;
  speed : R;
  dx : R;
  dy : R;
  state : BALL_STATES;
  trail : list (R * R);
  maxTrailLength : nat;
  active : bool
}.

Definition new (x0 y0 : R) : t :=
  {| x := x0; y := y0;
     size := CONFIG.BALL.SIZE;
     baseSpeed := CONFIG.BALL.BASE_SPEED;
     speed := CONFIG.BALL.BASE_SPEED;
     dx := 0; dy := 0;
     state := ATTACHED;
     trail := [];
     maxTrailLength := 10;
     active := true |}.

Definition set_x (v : R) (b : t) : t :=
  mk v (y b) (size b) (baseSpeed b) (speed b) (dx b) (dy b) (state b)
     (trail b) (maxTrailLength b) (active b).
Definition set_y (v : R) (b : t) : t :=
  mk (x b) v (size b) (baseSpeed b) (speed b) (dx b) (dy b) (state b)
     (trail b) (maxTrailLength b) (active b).
Definition set_speed (v : R) (b : t) : t :=
  mk (x b) (y b) (size b) (baseSpeed b) v (dx b) (dy b) (state b)
     (trail b) (maxTrailLength b) (active b).
Definition set_dx (v : R) (b : t) : t :=
  mk (x b) (y b) (size b) (baseSpeed b) (speed b) v (dy b) (state b)
     (trail b) (maxTrailLength b) (active b).
Definition set_dy (v : R) (b : t) : t :=
  mk (x b) (y b) (size b) (baseSpeed b) (speed b) (dx b) v (state b)
     (trail b) (maxTrailLength b) (active b).
Definition set_state (v : BALL_STATES) (b : t) : t :=
  mk (x b) (y b) (size b) (baseSpeed b) (speed b) (dx b) (dy b) v
     (trail b) (maxTrailLength b) (active b).
Definition set_trail (v : list (R * R)) (b : t) : t :=
  mk (x b) (y b) (size b) (baseSpeed b) (speed b) (dx b) (dy b) (state b)
     v (maxTrailLength b) (active b).
Definition set_active (v : bool) (b : t) : t :=
  mk (x b) (y b) (size b) (baseSpeed b) (speed b) (dx b) (dy b) (state b)
     (trail b) (maxTrailLength b) v.

Definition reset (x0 y0 : R) (b : t) : t :=
  mk x0 y0 (size b) (baseSpeed b) (baseSpeed b) 0 0 ATTACHED []
     (maxTrailLength b) true.

Definition launch (angle : R) (b : t) : t :=
  if negb (BALL_STATES_eqb (state b) ATTACHED) then b
  else
    let b := set_state LAUNCHED b in
    let b := set_dx (sin angle * speed b) b in
    set_dy (- cos angle * speed b) b.

Definition launchStraight (b : t) : t := launch 0 b.

(** [trail.push] followed by [trail.shift] when the buffer is over
    capacity. *)
Definition pushTrail (b : t) : t :=
  let tr := trail b ++ [(x b, y b)] in
  if Nat.ltb (maxTrailLength b) (length tr)
  then set_trail (tl tr) b else set_trail tr b.

Definition update (deltaTime : R) (b : t) : t :=
  if negb (BALL_STATES_eqb (state b) LAUNCHED) then b
  else
    let b := pushTrail b in
    let b := set_x (x b + dx b * deltaTime) b in
    let b := set_y (y b + dy b * deltaTime) b in
    let b :=
      if Num.leb (x b) (size b / 2) then
        set_dx (Rabs (dx b)) (set_x (size b / 2) b)
      else if Num.geb (x b) (CONFIG.CANVAS_WIDTH - size b / 2) then
        set_dx (- Rabs (dx b)) (set_x (CONFIG.CANVAS_WIDTH - size b / 2) b)
      else b in
    let b :=
      if Num.leb (y b) (size b / 2) then
        set_dy (Rabs (dy b)) (set_y (size b / 2) b)
      else b in
    if Num.gtb (y b) (CONFIG.CANVAS_HEIGHT + size b) then set_active false b
    else b.

Definition setVelocityAngle (angle : R) (b : t) : t :=
  let b := set_dx (sin angle * speed b) b in
  set_dy (- cos angle * speed b) b.

Definition increaseSpeed (multiplier : R) (b : t) : t :=
  let currentAngle := Num.atan2 (dy b) (dx b) in
  let b := set_speed (Rmin (speed b * multiplier) CONFIG.BALL.MAX_SPEED) b in
  let b := set_dx (sin (currentAngle + PI / 2) * speed b) b in
  set_dy (- cos (currentAngle + PI / 2) * speed b) b.

Definition getBounds (b : t) : Rect.t :=
  {| Rect.x := x b - size b / 2;
     Rect.y := y b - size b / 2;
     Rect.width := size b;
     Rect.height := size b |}.

End Ball.

(** ** The random source

    [Math.random()] is a stream of draws consumed in call order; the
    position in the stream is part of the state. *)

Module Rng.

Record t : Type := mk { draws : nat -> R; pos : nat }.

Definition random (g : t) : R * t :=
  (draws g (pos g), mk (draws g) (S (pos g))).

End Rng.

(** ** paddle.js *)

Module Paddle.

Record t : Type := mk {
  width : R;
  height : R;
  x : R;
  y : R;
  speed : R;
  baseWidth : R;
  hasLaser : bool;
  laserTimer : R
}.

Definition new : t :=
  {| width := CONFIG.PADDLE.WIDTH;
     height := CONFIG.PADDLE.HEIGHT;
     x := CONFIG.CANVAS_WIDTH / 2 - CONFIG.PADDLE.WIDTH / 2;
     y := CONFIG.CANVAS_HEIGHT - CONFIG.PADDLE.Y_POSITION;
     speed := CONFIG.PADDLE.SPEED;
     baseWidth := CONFIG.PADDLE.WIDTH;
     hasLaser := false;
     laserTimer := 0 |}.

Definition set_x (v : R) (p : t) : t :=
  mk (width p) (height p) v (y p) (speed p) (baseWidth p) (hasLaser p)
     (laserTimer p).
Definition set_width (v : R) (p : t) : t :=
  mk v (height p) (x p) (y p) (speed p) (baseWidth p) (hasLaser p)
     (laserTimer p).
Definition set_hasLaser (v : bool) (p : t) : t :=
  mk (width p) (height p) (x p) (y p) (speed p) (baseWidth p) v
     (laserTimer p).
Definition set_laserTimer (v : R) (p : t) : t :=
  mk (width p) (height p) (x p) (y p) (speed p) (baseWidth p) (hasLaser p) v.

Definition reset (p : t) : t :=
  let p := set_width (baseWidth p) p in
  let p := set_x (CONFIG.CANVAS_WIDTH / 2 - width p / 2) p in
  let p := set_hasLaser false p in
  set_laserTimer 0 p.

(** [direction] is the number -1, 0 or 1 produced by the input handler. *)
Definition move (direction deltaTime : R) (p : t) : t :=
  if Req_dec_T direction 0 then p
  else
    let p := set_x (x p + direction * speed p * deltaTime) p in
    set_x (Rmax 0 (Rmin (CONFIG.CANVAS_WIDTH - width p) (x p))) p.

Definition moveTo (targetX : R) (p : t) : t :=
  let p := set_x (targetX - width p / 2) p in
  set_x (Rmax 0 (Rmin (CONFIG.CANVAS_WIDTH - width p) (x p))) p.

(** The synchronous part of [extend]: the width is set at once; the
    [setTimeout] callback is [extendTimeout], run by the host [duration]
    milliseconds later. *)
Definition extend (duration : R) (p : t) : t :=
  set_width (baseWidth p * (15 / 10)) p.

Definition extendTimeout (p : t) : t :=
  let p := set_width (baseWidth p) p in
  set_x (Rmin (x p) (CONFIG.CANVAS_WIDTH - width p)) p.

Definition enableLaser (duration : R) (p : t) : t :=
  set_laserTimer duration (set_hasLaser true p).

Definition update (deltaTime : R) (p : t) : t :=
  if hasLaser p then
    let p := set_laserTimer (laserTimer p - deltaTime) p in
    if Num.leb (laserTimer p) 0 then set_hasLaser false p else p
  else p.

Definition getHitPosition (ballX : R) (p : t) : R :=
  let relativeX := (ballX - x p) / width p in
  (relativeX - 5 / 10) * 2.

Definition getBounds (p : t) : Rect.t :=
  {| Rect.x := x p; Rect.y := y p;
     Rect.width := width p; Rect.height := height p |}.

Definition getLaserPositions (p : t) : list (R * R) :=
  if negb (hasLaser p) then []
  else [(x p + 5, y p); (x p + width p - 5, y p)].

End Paddle.

(** ** brick.js *)

Module Brick.

(** The [type] string; [other] stands for any string that falls to the
    [default] case of [initType]. *)
Inductive kind : Type := single | double | triple | indestructible_kind | other.

(** A colour is an entry of the [BRICK_COLORS] palette or the fixed colour
    of indestructible bricks. *)
Inductive colour : Type := BRICK_COLORS (i : Z) | INDESTRUCTIBLE_COLOR.

Record t : Type := mk {
  x : R;
  y : R;
  width : R;
  height : R;
  type : kind;
  active : bool;
  hits : Z;
  maxHits : Z;
  color : colour;
  score : Z;
  indestructible : bool
}.

Definition new (x0 y0 : R) (ty : kind) : t :=
  let base h c s i :=
    mk x0 y0 CONFIG.BRICK.WIDTH CONFIG.BRICK.HEIGHT ty true h h c s i in
  match ty with
  | single => base 1%Z (BRICK_COLORS 0) 10%Z false
  | double => base 2%Z (BRICK_COLORS 4) 20%Z false
  | triple => base 3%Z (BRICK_COLORS 5) 30%Z false
  | indestructible_kind => base (-1)%Z INDESTRUCTIBLE_COLOR 0%Z true
  | other => base 1%Z (BRICK_COLORS 0) 10%Z false
  end.

Definition set_active (v : bool) (b : t) : t :=
  mk (x b) (y b) (width b) (height b) (type b) v (hits b) (maxHits b)
     (color b) (score b) (indestructible b).
Definition set_hits (v : Z) (b : t) : t :=
  mk (x b) (y b) (width b) (height b) (type b) (active b) v (maxHits b)
     (color b) (score b) (indestructible b).
Definition set_color (v : colour) (b : t) : t :=
  mk (x b) (y b) (width b) (height b) (type b) (active b) (hits b) (maxHits b)
     v (score b) (indestructible b).

(** [Math.floor((hits / maxHits) * 5)] on integers is the floored
    quotient of [hits * 5] by [maxHits]; [maxHits] is 1, 2 or 3 on every
    brick that reaches the assignment. *)
Definition updateColor (b : t) : t :=
  if indestructible b then b
  else
    let colorIndex := ((hits b * 5) / maxHits b)%Z in
    set_color (BRICK_COLORS (Z.max 0 colorIndex)) b.

(** [hit] returns the mutated brick and the boolean the method returns. *)
Definition hit (b : t) : t * bool :=
  if indestructible b then (b, false)
  else
    let b := set_hits (hits b - 1)%Z b in
    let b := updateColor b in
    if (hits b <=? 0)%Z then (set_active false b, true)
    else (b, false).

Definition getBounds (b : t) : Rect.t :=
  {| Rect.x := x b; Rect.y := y b;
     Rect.width := width b; Rect.height := height b |}.

Definition canDropPowerUp (b : t) : bool :=
  negb (indestructible b) && active b.

End Brick.

(** ** powerup.js *)

Module PowerUp.

(** [type] is [None] when the constructor received [undefined]; the
    fields read only by [render] (colour, letter, spawn time) are left
    out. *)
Record t : Type := mk {
  x : R;
  y : R;
  width : R;
  height : R;
  type : option POWERUP_TYPES;
  speed : R;
  state : POWERUP_STATES;
  active : bool;
  effectApplied : bool
}.

Definition new (x0 y0 : R) (ty : option POWERUP_TYPES) : t :=
  {| x := x0; y := y0;
     width := CONFIG.POWERUP.WIDTH;
     height := CONFIG.POWERUP.HEIGHT;
     type := ty;
     speed := CONFIG.POWERUP.SPEED;
     state := FALLING;
     active := true;
     effectApplied := false |}.

Definition update (deltaTime : R) (p : t) : t :=
  if negb (POWERUP_STATES_eqb (state p) FALLING) then p
  else
    let y' := y p + speed p * deltaTime in
    if Num.gtb y' CONFIG.CANVAS_HEIGHT then
      mk (x p) y' (width p) (height p) (type p) (speed p) EXPIRED false
         (effectApplied p)
    else
      mk (x p) y' (width p) (height p) (type p) (speed p) (state p) (active p)
         (effectApplied p).

Definition checkPaddleCollision (paddleBounds : Rect.t) (p : t) : bool :=
  Num.ltb (x p) (Rect.x paddleBounds + Rect.width paddleBounds) &&
  Num.gtb (x p + width p) (Rect.x paddleBounds) &&
  Num.ltb (y p) (Rect.y paddleBounds + Rect.height paddleBounds) &&
  Num.gtb (y p + height p) (Rect.y paddleBounds).

End PowerUp.

(** ** enemy.js

    [Date.now()] is the argument [now] of the functions that read the
    clock. *)

Module Enemy.

Record t : Type := mk {
  x : R;
  y : R;
  width : R;
  height : R;
  speed : R;
  dx : R;
  dy : R;
  active : bool;
  visible : bool;
  appearTime : R;
  disappearTime : option R;
  direction : R;
  animationFrame : Z;
  animationTimer : R
}.

Definition new (x0 y0 now : R) : t :=
  {| x := x0; y := y0;
     width := CONFIG.ENEMY.WIDTH;
     height := CONFIG.ENEMY.HEIGHT;
     speed := CONFIG.ENEMY.SPEED;
     dx := CONFIG.ENEMY.SPEED;
     dy := 0;
     active := true;
     visible := true;
     appearTime := now;
     disappearTime := None;
     direction := 1;
     animationFrame := 0%Z;
     animationTimer := 0 |}.

Definition appear (now r : R) (e : t) : t :=
  mk (x e) (y e) (width e) (height e) (speed e) (dx e) (dy e) (active e)
     true now (Some (now + 15000 + r * 10000)) (direction e)
     (animationFrame e) (animationTimer e).

Definition disappear (e : t) : t :=
  mk (x e) (y e) (width e) (height e) (speed e) (dx e) (dy e) (active e)
     false (appearTime e) None (direction e)
     (animationFrame e) (animationTimer e).

Definition shouldAppear (now : R) (e : t) : bool :=
  negb (visible e) && Num.geb (now - appearTime e) CONFIG.ENEMY.APPEAR_DELAY.

(** A number is truthy unless it is 0; [null] is falsy. *)
Definition shouldDisappear (now : R) (e : t) : bool :=
  visible e &&
  match disappearTime e with
  | Some d => (if Req_dec_T d 0 then false else Num.geb now d)
  | None => false
  end.

Definition set_pos (x' dx' direction' : R) (e : t) : t :=
  mk x' (y e) (width e) (height e) (speed e) dx' (dy e) (active e)
     (visible e) (appearTime e) (disappearTime e) direction'
     (animationFrame e) (animationTimer e).

Definition set_animation (frame : Z) (timer : R) (e : t) : t :=
  mk (x e) (y e) (width e) (height e) (speed e) (dx e) (dy e) (active e)
     (visible e) (appearTime e) (disappearTime e) (direction e) frame timer.

Definition update (deltaTime now : R) (g : Rng.t) (e : t) : t * Rng.t :=
  if negb (visible e) then
    if shouldAppear now e then
      let (r, g) := Rng.random g in (appear now r e, g)
    else (e, g)
  else if shouldDisappear now e then (disappear e, g)
  else
    let e := set_pos (x e + dx e * deltaTime) (dx e) (direction e) e in
    let e :=
      if Num.leb (x e) 0 then set_pos 0 (Rabs (dx e)) 1 e
      else if Num.geb (x e + width e) CONFIG.CANVAS_WIDTH then
        set_pos (CONFIG.CANVAS_WIDTH - width e) (- Rabs (dx e)) (-1) e
      else e in
    let e :=
      set_animation (animationFrame e) (animationTimer e + deltaTime * 1000) e
    in
    let e :=
      if Num.gtb (animationTimer e) 200 then
        set_animation ((animationFrame e + 1) mod 4)%Z 0 e
      else e in
    (e, g).

Definition hit (e : t) : t * bool :=
  (mk (x e) (y e) (width e) (height e) (speed e) (dx e) (dy e) false
      (visible e) (appearTime e) (disappearTime e) (direction e)
      (animationFrame e) (animationTimer e), true).

(** The two draws are taken only when the guard lets the call through. *)
Definition deflectBall (ball : Ball.t) (g : Rng.t) (e : t) : Ball.t * Rng.t :=
  if negb (visible e) || negb (Ball.active ball) then (ball, g)
  else
    let (r1, g) := Rng.random g in
    let angle := (30 + r1 * 30) * (PI / 180) in
    let (r2, g) := Rng.random g in
    let direction := if Num.ltb r2 (5 / 10) then 1 else -1 in
    let ball := Ball.set_dx (sin angle * Ball.speed ball * direction) ball in
    let ball := Ball.set_dy (- Rabs (cos angle * Ball.speed ball)) ball in
    (ball, g).

Definition getBounds (e : t) : Rect.t :=
  {| Rect.x := x e; Rect.y := y e;
     Rect.width := width e; Rect.height := height e |}.

Definition checkLaserCollision (laserX laserY : R) (e : t) : bool :=
  if negb (visible e) then false
  else
    Num.geb laserX (x e) && Num.leb laserX (x e + width e) &&
    Num.geb laserY (y e) && Num.leb laserY (y e + height e).

Definition checkBallCollision (ball : Ball.t) (e : t) : bool :=
  if negb (visible e) then false
  else
    let ballBounds := Ball.getBounds ball in
    Num.ltb (x e) (Rect.x ballBounds + Rect.width ballBounds) &&
    Num.gtb (x e + width e) (Rect.x ballBounds) &&
    Num.ltb (y e) (Rect.y ballBounds + Rect.height ballBounds) &&
    Num.gtb (y e + height e) (Rect.y ballBounds).

End Enemy.

(** ** collision.js *)

Module CollisionDetector.

Inductive Side : Type := top | bottom | left | right.

(** The object returned by [checkCircleRect] on a collision. *)
Record CircleRectInfo : Type := mkInfo {
  side : Side;
  dx : R;
  dy : R;
  distance : R
}.

(** The object returned by [checkBallPaddle] on a collision. *)
Record PaddleInfo : Type := mkPaddleInfo {
  angle : R;
  hitPosition : R
}.

Definition checkAABB (rect1 rect2 : Rect.t) : bool :=
  Num.ltb (Rect.x rect1) (Rect.x rect2 + Rect.width rect2) &&
  Num.gtb (Rect.x rect1 + Rect.width rect1) (Rect.x rect2) &&
  Num.ltb (Rect.y rect1) (Rect.y rect2 + Rect.height rect2) &&
  Num.gtb (Rect.y rect1 + Rect.height rect1) (Rect.y rect2).

Definition closestX (circle : Circle.t) (rect : Rect.t) : R :=
  Rmax (Rect.x rect) (Rmin (Circle.x circle) (Rect.x rect + Rect.width rect)).

Definition closestY (circle : Circle.t) (rect : Rect.t) : R :=
  Rmax (Rect.y rect) (Rmin (Circle.y circle) (Rect.y rect + Rect.height rect)).

Definition overlapX (circle : Circle.t) (rect : Rect.t) : R :=
  Circle.radius circle - Rabs (Circle.x circle - closestX circle rect).

Definition overlapY (circle : Circle.t) (rect : Rect.t) : R :=
  Circle.radius circle - Rabs (Circle.y circle - closestY circle rect).

Definition checkCircleRect (circle : Circle.t) (rect : Rect.t)
  : option CircleRectInfo :=
  let dx := Circle.x circle - closestX circle rect in
  let dy := Circle.y circle - closestY circle rect in
  let distance := sqrt (dx * dx + dy * dy) in
  if Num.ltb distance (Circle.radius circle) then
    let side :=
      if Num.ltb (Circle.y circle) (Rect.y rect) then top
      else if Num.gtb (Circle.y circle) (Rect.y rect + Rect.height rect)
      then bottom
      else if Num.ltb (Circle.x circle) (Rect.x rect) then left
      else if Num.gtb (Circle.x circle) (Rect.x rect + Rect.width rect)
      then right
      else if Num.ltb (overlapX circle rect) (overlapY circle rect) then
        (if Num.ltb (Circle.x circle) (Rect.x rect + Rect.width rect / 2)
         then left else right)
      else
        (if Num.ltb (Circle.y circle) (Rect.y rect + Rect.height rect / 2)
         then top else bottom) in
    Some (mkInfo side dx dy distance)
  else None.

Definition checkBallBrick (ball : Ball.t) (brick : Brick.t)
  : option CircleRectInfo :=
  if negb (Brick.active brick) then None
  else
    let circle := {| Circle.x := Ball.x ball; Circle.y := Ball.y ball;
                     Circle.radius := Ball.size ball / 2 |} in
    checkCircleRect circle (Brick.getBounds brick).

Definition checkBallPaddle (ball : Ball.t) (paddle : Paddle.t)
  : option PaddleInfo :=
  let ballBounds := Ball.getBounds ball in
  let paddleBounds := Paddle.getBounds paddle in
  if negb (checkAABB ballBounds paddleBounds) then None
  else if Num.leb (Ball.dy ball) 0 then None
  else
    let hitPos := Paddle.getHitPosition (Ball.x ball) paddle in
    let maxAngle := CONFIG.GAME.MAX_BOUNCE_ANGLE in
    let bounceAngle := hitPos * maxAngle in
    Some (mkPaddleInfo bounceAngle hitPos).

Definition checkBallEnemy (ball : Ball.t) (enemy : Enemy.t) : bool :=
  Enemy.checkBallCollision ball enemy.

Definition checkPowerUpPaddle (powerUp : PowerUp.t) (paddle : Paddle.t)
  : bool :=
  PowerUp.checkPaddleCollision (Paddle.getBounds paddle) powerUp.

Definition checkLaserEnemy (laserX laserY : R) (enemy : Enemy.t) : bool :=
  Enemy.checkLaserCollision laserX laserY enemy.

Definition resolveBallBrick (ball : Ball.t) (brick : Brick.t)
  (collision : option CircleRectInfo) : Ball.t :=
  match collision with
  | None => ball
  | Some c =>
      match side c with
      | top =>
          Ball.set_y (Brick.y brick - Ball.size ball / 2)
            (Ball.set_dy (- Ball.dy ball) ball)
      | bottom =>
          Ball.set_y (Brick.y brick + Brick.height brick + Ball.size ball / 2)
            (Ball.set_dy (- Ball.dy ball) ball)
      | left =>
          Ball.set_x (Brick.x brick - Ball.size ball / 2)
            (Ball.set_dx (- Ball.dx ball) ball)
      | right =>
          Ball.set_x (Brick.x brick + Brick.width brick + Ball.size ball / 2)
            (Ball.set_dx (- Ball.dx ball) ball)
      end
  end.

Definition resolveBallPaddle (ball : Ball.t) (paddle : Paddle.t)
  (collision : option PaddleInfo) : Ball.t :=
  match collision with
  | None => ball
  | Some c =>
      let ball := Ball.setVelocityAngle (angle c) ball in
      let ball := Ball.set_y (Paddle.y paddle - Ball.size ball / 2) ball in
      Ball.set_speed
        (Rmin (Ball.speed ball * (102 / 100)) CONFIG.BALL.MAX_SPEED) ball
  end.

End CollisionDetector.

(** ** levels.js: the brick store of [LevelManager]

    [bricks] is the array owned by the level manager.  Bricks are mutated
    in place, so an array of references taken from it, as
    [getActiveBricks] returns, is a list of positions in the store. *)

Module LevelManager.

Definition isLevelComplete (bricks : list Brick.t) : bool :=
  forallb (fun brick => negb (Brick.active brick) || Brick.indestructible brick)
    bricks.

Fixpoint activeFrom (i : nat) (bricks : list Brick.t) : list nat :=
  match bricks with
  | [] => []
  | brick :: rest =>
      if Brick.active brick then i :: activeFrom (S i) rest
      else activeFrom (S i) rest
  end.

Definition getActiveBricks (bricks : list Brick.t) : list nat :=
  activeFrom 0 bricks.

(** The in-place mutation of the brick at position [i]. *)
Fixpoint store (i : nat) (brick : Brick.t) (bricks : list Brick.t)
  : list Brick.t :=
  match bricks, i with
  | [], _ => []
  | _ :: rest, O => brick :: rest
  | b :: rest, S j => b :: store j brick rest
  end.

End LevelManager.

(** The effect names passed to [audio.play]. *)
Module Sound.
Inductive t : Type :=
  BRICK_HIT | PADDLE_HIT | WALL_HIT | POWERUP | LIFE_LOST | LASER | ENEMY_HIT.
End Sound.

(** The object literal [{x, y}] of a laser projectile. *)
Module Laser.
Record t : Type := mk { x : R; y : R }.
End Laser.

(** ** game.js: the state that the collision pass reads and writes *)

Module Game.

Record t : Type := mk {
  paddle : Paddle.t;
  balls : list Ball.t;
  powerUps : list PowerUp.t;
  enemies : list Enemy.t;
  lasers : list Laser.t;
  bricks : list Brick.t;
  score : Z;
  bricksDestroyed : Z;
  speedIncreaseThreshold : Z;
  rng : Rng.t;
  sounds : list (Sound.t * R);
  timers : list R
}.

Definition set_paddle (v : Paddle.t) (g : t) : t :=
  mk v (balls g) (powerUps g) (enemies g) (lasers g) (bricks g) (score g)
     (bricksDestroyed g) (speedIncreaseThreshold g) (rng g) (sounds g)
     (timers g).
Definition set_balls (v : list Ball.t) (g : t) : t :=
  mk (paddle g) v (powerUps g) (enemies g) (lasers g) (bricks g) (score g)
     (bricksDestroyed g) (speedIncreaseThreshold g) (rng g) (sounds g)
     (timers g).
Definition set_powerUps (v : list PowerUp.t) (g : t) : t :=
  mk (paddle g) (balls g) v (enemies g) (lasers g) (bricks g) (score g)
     (bricksDestroyed g) (speedIncreaseThreshold g) (rng g) (sounds g)
     (timers g).
Definition set_enemies (v : list Enemy.t) (g : t) : t :=
  mk (paddle g) (balls g) (powerUps g) v (lasers g) (bricks g) (score g)
     (bricksDestroyed g) (speedIncreaseThreshold g) (rng g) (sounds g)
     (timers g).
Definition set_lasers (v : list Laser.t) (g : t) : t :=
  mk (paddle g) (balls g) (powerUps g) (enemies g) v (bricks g) (score g)
     (bricksDestroyed g) (speedIncreaseThreshold g) (rng g) (sounds g)
     (timers g).
Definition set_bricks (v : list Brick.t) (g : t) : t :=
  mk (paddle g) (balls g) (powerUps g) (enemies g) (lasers g) v (score g)
     (bricksDestroyed g) (speedIncreaseThreshold g) (rng g) (sounds g)
     (timers g).
Definition set_score (v : Z) (g : t) : t :=
  mk (paddle g) (balls g) (powerUps g) (enemies g) (lasers g) (bricks g) v
     (bricksDestroyed g) (speedIncreaseThreshold g) (rng g) (sounds g)
     (timers g).
Definition set_bricksDestroyed (v : Z) (g : t) : t :=
  mk (paddle g) (balls g) (powerUps g) (enemies g) (lasers g) (bricks g)
     (score g) v (speedIncreaseThreshold g) (rng g) (sounds g) (timers g).
Definition set_rng (v : Rng.t) (g : t) : t :=
  mk (paddle g) (balls g) (powerUps g) (enemies g) (lasers g) (bricks g)
     (score g) (bricksDestroyed g) (speedIncreaseThreshold g) v (sounds g)
     (timers g).
Definition set_timers (v : list R) (g : t) : t :=
  mk (paddle g) (balls g) (powerUps g) (enemies g) (lasers g) (bricks g)
     (score g) (bricksDestroyed g) (speedIncreaseThreshold g) (rng g)
     (sounds g) v.

(** [this.audio.play(name, pitch)]: the call is recorded. *)
Definition play (name : Sound.t) (pitch : R) (g : t) : t :=
  mk (paddle g) (balls g) (powerUps g) (enemies g) (lasers g) (bricks g)
     (score g) (bricksDestroyed g) (speedIncreaseThreshold g) (rng g)
     (sounds g ++ [(name, pitch)]) (timers g).

(** [Math.random()] on the game's random source. *)
Definition random (g : t) : R * t :=
  let (r, s) := Rng.random (rng g) in (r, set_rng s g).

Definition types : list POWERUP_TYPES := [EXTEND; SLOW; MULTIBALL; LASER].

(** [types[Math.floor(r * types.length)]]; out of range is [undefined]. *)
Definition spawnPowerUp (x y : R) (g : t) : t :=
  let (r, g) := random g in
  let k := Int_part (r * INR (length types)) in
  let randomType :=
    if (k <? 0)%Z then None else nth_error types (Z.to_nat k) in
  set_powerUps (powerUps g ++ [PowerUp.new x y randomType]) g.

Definition spawnExtraBalls (g : t) : t :=
  match balls g with
  | [] => g
  | mainBall :: _ =>
      let leftBall := Ball.new (Ball.x mainBall) (Ball.y mainBall) in
      let rightBall := Ball.new (Ball.x mainBall) (Ball.y mainBall) in
      let leftBall := Ball.set_state LAUNCHED leftBall in
      let rightBall := Ball.set_state LAUNCHED rightBall in
      let leftBall := Ball.setVelocityAngle (- PI / 6) leftBall in
      let rightBall := Ball.setVelocityAngle (PI / 6) rightBall in
      set_balls (balls g ++ [leftBall; rightBall]) g
  end.

Definition slowBall (ball : Ball.t) : Ball.t :=
  Ball.set_speed
    (Rmax CONFIG.BALL.BASE_SPEED (Ball.speed ball * (7 / 10))) ball.

Definition activatePowerUp (powerUp : PowerUp.t) (g : t) : PowerUp.t * t :=
  let powerUp :=
    PowerUp.mk (PowerUp.x powerUp) (PowerUp.y powerUp)
      (PowerUp.width powerUp) (PowerUp.height powerUp) (PowerUp.type powerUp)
      (PowerUp.speed powerUp) PU_CAUGHT false (PowerUp.effectApplied powerUp)
  in
  let g := play Sound.POWERUP 1 g in
  let g :=
    match PowerUp.type powerUp with
    | Some EXTEND =>
        set_timers (timers g ++ [CONFIG.POWERUP.DURATION])
          (set_paddle (Paddle.extend CONFIG.POWERUP.DURATION (paddle g)) g)
    | Some SLOW => set_balls (map slowBall (balls g)) g
    | Some MULTIBALL => spawnExtraBalls g
    | Some LASER =>
        set_paddle (Paddle.enableLaser CONFIG.POWERUP.DURATION (paddle g)) g
    | None => g
    end in
  (powerUp, g).

(** What follows a detected ball-brick collision: lines 381 to 400 of
    [checkCollisions]. *)
Definition onBrickCollision (i : nat) (brick : Brick.t)
  (collision : CollisionDetector.CircleRectInfo) (ball : Ball.t) (g : t)
  : Ball.t * t :=
  let ball := CollisionDetector.resolveBallBrick ball brick (Some collision) in
  let (brick, destroyed) := Brick.hit brick in
  let g := set_bricks (LevelManager.store i brick (bricks g)) g in
  if destroyed then
    let g := set_score (score g + Brick.score brick)%Z g in
    let g := set_bricksDestroyed (bricksDestroyed g + 1)%Z g in
    let (r, g) := random g in
    let g := play Sound.BRICK_HIT (8 / 10 + r * (4 / 10)) g in
    let g :=
      if Brick.canDropPowerUp brick then
        let (r, g) := random g in
        if Num.ltb r CONFIG.POWERUP.DROP_CHANCE then
          spawnPowerUp (Brick.x brick + Brick.width brick / 2)
            (Brick.y brick + Brick.height brick) g
        else g
      else g in
    let ball :=
      if (bricksDestroyed g mod speedIncreaseThreshold g =? 0)%Z
      then Ball.increaseSpeed (105 / 100) ball else ball in
    (ball, g)
  else
    (ball, play Sound.BRICK_HIT (6 / 10) g).

(** The inner loop over [activeBricks]; it ends at the first collision
    ([break]). *)
Fixpoint brickLoop (activeBricks : list nat) (ball : Ball.t) (g : t)
  : Ball.t * t :=
  match activeBricks with
  | [] => (ball, g)
  | i :: rest =>
      match nth_error (bricks g) i with
      | None => brickLoop rest ball g
      | Some brick =>
          match CollisionDetector.checkBallBrick ball brick with
          | Some collision => onBrickCollision i brick collision ball g
          | None => brickLoop rest ball g
          end
      end
  end.

Definition paddleStep (ball : Ball.t) (g : t) : Ball.t * t :=
  match CollisionDetector.checkBallPaddle ball (paddle g) with
  | Some paddleCollision =>
      let ball :=
        CollisionDetector.resolveBallPaddle ball (paddle g)
          (Some paddleCollision) in
      let (r, g) := random g in
      (ball, play Sound.PADDLE_HIT (8 / 10 + r * (3 / 10)) g)
  | None => (ball, g)
  end.

Fixpoint enemyLoop (es : list Enemy.t) (ball : Ball.t) (g : t)
  : Ball.t * t :=
  match es with
  | [] => (ball, g)
  | enemy :: rest =>
      if CollisionDetector.checkBallEnemy ball enemy then
        let (ball, s) := Enemy.deflectBall ball (rng g) enemy in
        let g := play Sound.WALL_HIT (15 / 10) (set_rng s g) in
        enemyLoop rest ball g
      else enemyLoop rest ball g
  end.

(** The body of the loop over [this.balls] for one ball. *)
Definition collideBall (activeBricks : list nat) (ball : Ball.t) (g : t)
  : Ball.t * t :=
  if negb (BALL_STATES_eqb (Ball.state ball) LAUNCHED) then (ball, g)
  else
    let (ball, g) := brickLoop activeBricks ball g in
    let (ball, g) := paddleStep ball g in
    enemyLoop (enemies g) ball g.

(** The balls are mutated in place while the array itself is untouched,
    so the loop returns the array with each ball in its new state. *)
Fixpoint ballLoop (activeBricks : list nat) (bs : list Ball.t) (g : t)
  : list Ball.t * t :=
  match bs with
  | [] => ([], g)
  | ball :: rest =>
      let (ball, g) := collideBall activeBricks ball g in
      let (rest, g) := ballLoop activeBricks rest g in
      (ball :: rest, g)
  end.

Fixpoint powerUpLoop (ps : list PowerUp.t) (g : t) : list PowerUp.t * t :=
  match ps with
  | [] => ([], g)
  | powerUp :: rest =>
      let (powerUp, g) :=
        if POWERUP_STATES_eqb (PowerUp.state powerUp) FALLING &&
           CollisionDetector.checkPowerUpPaddle powerUp (paddle g)
        then activatePowerUp powerUp g else (powerUp, g) in
      let (rest, g) := powerUpLoop rest g in
      (powerUp :: rest, g)
  end.

Fixpoint laserEnemyLoop (es : list Enemy.t) (laser : Laser.t) (g : t)
  : list Enemy.t * Laser.t * t :=
  match es with
  | [] => ([], laser, g)
  | enemy :: rest =>
      if Enemy.active enemy && Enemy.visible enemy &&
         CollisionDetector.checkLaserEnemy (Laser.x laser) (Laser.y laser)
           enemy
      then
        let enemy := fst (Enemy.hit enemy) in
        let laser := Laser.mk (Laser.x laser) (-100) in
        let g := set_score (score g + 50)%Z g in
        let g := play Sound.ENEMY_HIT 1 g in
        let '(rest, laser, g) := laserEnemyLoop rest laser g in
        (enemy :: rest, laser, g)
      else
        let '(rest, laser, g) := laserEnemyLoop rest laser g in
        (enemy :: rest, laser, g)
  end.

Fixpoint laserLoop (ls : list Laser.t) (es : list Enemy.t) (g : t)
  : list Laser.t * list Enemy.t * t :=
  match ls with
  | [] => ([], es, g)
  | laser :: rest =>
      let '(es, laser, g) := laserEnemyLoop es laser g in
      let '(rest, es, g) := laserLoop rest es g in
      (laser :: rest, es, g)
  end.

Definition checkCollisions (g : t) : t :=
  let activeBricks := LevelManager.getActiveBricks (bricks g) in
  let (bs, g) := ballLoop activeBricks (balls g) g in
  let g := set_balls bs g in
  let (ps, g) := powerUpLoop (powerUps g) g in
  let g := set_powerUps ps g in
  let '(ls, es, g) := laserLoop (lasers g) (enemies g) g in
  set_enemies es (set_lasers ls g).

End Game.

(** ** Predicates of the statements *)

(** The circle's center lies inside the rectangle, borders included: none
    of the four "outside" tests of [checkCircleRect] fires. *)
Definition centerInside (c : Circle.t) (r : Rect.t) : Prop :=
  Rect.x r <= Circle.x c <= Rect.x r + Rect.width r /\
  Rect.y r <= Circle.y c <= Rect.y r + Rect.height r.

(** The circle's center is one of the four corners of the rectangle. *)
Definition atCorner (c : Circle.t) (r : Rect.t) : Prop :=
  (Circle.x c = Rect.x r \/ Circle.x c = Rect.x r + Rect.width r) /\
  (Circle.y c = Rect.y r \/ Circle.y c = Rect.y r + Rect.height r).

Definition vertical (s : CollisionDetector.Side) : Prop :=
  s = CollisionDetector.top \/ s = CollisionDetector.bottom.

(** The paddle lies within the playfield. *)
Definition paddleInField (p : Paddle.t) : Prop :=
  0 <= Paddle.x p <= CONFIG.CANVAS_WIDTH - Paddle.width p.

(** The operations on a ball, as the game applies them one after the
    other; the first three write the [speed] field. *)
Inductive BallEvent : Type :=
| SpeedIncrease (multiplier : R)
| PaddleHit (paddle : Paddle.t) (collision : CollisionDetector.PaddleInfo)
| SlowCaught
| BrickBounce (brick : Brick.t) (collision : CollisionDetector.CircleRectInfo)
| Deflected (enemy : Enemy.t) (g : Rng.t)
| Launched (angle : R)
| Ticked (deltaTime : R)
| Respawned (x y : R).

Definition applyEvent (ball : Ball.t) (e : BallEvent) : Ball.t :=
  match e with
  | SpeedIncrease m => Ball.increaseSpeed m ball
  | PaddleHit p c => CollisionDetector.resolveBallPaddle ball p (Some c)
  | SlowCaught => Game.slowBall ball
  | BrickBounce k c => CollisionDetector.resolveBallBrick ball k (Some c)
  | Deflected en g => fst (Enemy.deflectBall ball g en)
  | Launched a => Ball.launch a ball
  | Ticked dt => Ball.update dt ball
  | Respawned x y => Ball.reset x y ball
  end.

Definition runEvents (es : list BallEvent) (ball : Ball.t) : Ball.t :=
  fold_left applyEvent es ball.

(** A ball falling straight down, its center 3 pixels to the left of the
    fresh paddle's left edge (x = 900) and overlapping it. *)
Definition ballBesidePaddle : Ball.t :=
  Ball.mk 897 1018 8 400 400 0 400 LAUNCHED [] 10 true.

(** A brick that took its one hit: inactive, with no hit left. *)
Definition spentBrick : Brick.t :=
  fst (Brick.hit (Brick.new 192 60 Brick.single)).

(** The paddle after the pointer moved to the right edge of the canvas. *)
Definition paddleAtRightEdge : Paddle.t := Paddle.moveTo 1920 Paddle.new.

(** The speed is capped, and so is the base speed that [reset] restores. *)
Definition speedCapped (b : Ball.t) : Prop :=
  Ball.speed b <= CONFIG.BALL.MAX_SPEED /\
  Ball.baseSpeed b <= CONFIG.BALL.MAX_SPEED.

(** What [checkBallBrick] answers for the brick at position [i] of the
    store, as the brick loop asks it. *)
Definition checkAt (ball : Ball.t) (g : Game.t) (i : nat)
  : option CollisionDetector.CircleRectInfo :=
  match nth_error (Game.bricks g) i with
  | Some brick => CollisionDetector.checkBallBrick ball brick
  | None => None
  end.

(** A random source whose every draw is 0.1. *)
Definition tenthDraws : Rng.t := Rng.mk (fun _ => 1 / 10) 0.

(** A ball moving up whose center has reached the bottom edge of the
    brick at (192, 60). *)
Definition ballUnderBrick : Ball.t :=
  Ball.mk 286 108 8 400 400 0 (-400) LAUNCHED [] 10 true.

(** A level of one single-hit brick, one ball in play, no power-up on the
    field, and draws of 0.1. *)
Definition gameOneBrick : Game.t :=
  Game.mk Paddle.new [ballUnderBrick] [] [] []
    [Brick.new 192 60 Brick.single] 0 0 10 tenthDraws [] [].

(** A ball in the 4-pixel gap between the bricks at (192, 60) and
    (384, 60), overlapping both. *)
Definition ballBetweenBricks : Ball.t :=
  Ball.mk 382 84 8 400 400 0 (-400) LAUNCHED [] 10 true.

Definition gameTwoBricks : Game.t :=
  Game.mk Paddle.new [ballBetweenBricks] [] [] []
    [Brick.new 192 60 Brick.double; Brick.new 384 60 Brick.double]
    0 0 10 tenthDraws [] [].

(** An enemy on patrol since time 0, due to disappear at 20000 ms. *)
Definition patrollingEnemy : Enemy.t :=
  Enemy.appear 0 (1 / 2) (Enemy.new 940 150 0).

(** A falling ball that overlaps the enemy. *)
Definition ballOnEnemy : Ball.t :=
  Ball.mk 960 170 8 400 400 0 400 LAUNCHED [] 10 true.

(** The ball of a straight launch from the middle of the field. *)
Definition ballGoingUp : Ball.t :=
  Ball.mk 960 1016 8 400 400 0 (-400) LAUNCHED [] 10 true.

(** A Slow capsule over the fresh paddle. *)
Definition slowCapsule : PowerUp.t := PowerUp.new 950 1015 (Some SLOW).

(** The trail holds at most [maxTrailLength] positions. *)
Definition trailBounded (b : Ball.t) : Prop :=
  (length (Ball.trail b) <= Ball.maxTrailLength b)%nat.

(** A ball about to cross the left wall. *)
Definition ballNearLeftWall : Ball.t :=
  Ball.mk 5 500 8 400 400 (-400) 0 LAUNCHED [] 10 true.

(** The point (px, py) lies strictly inside the rectangle. *)
Definition insideOpen (px py : R) (r : Rect.t) : Prop :=
  Rect.x r < px < Rect.x r + Rect.width r /\
  Rect.y r < py < Rect.y r + Rect.height r.

(** The point (px, py) lies in the rectangle, borders included. *)
Definition insideClosed (px py : R) (r : Rect.t) : Prop :=
  Rect.x r <= px <= Rect.x r + Rect.width r /\
  Rect.y r <= py <= Rect.y r + Rect.height r.

(** The point (px, py) lies strictly inside the circle. *)
Definition insideCircle (px py : R) (c : Circle.t) : Prop :=
  (Circle.x c - px) * (Circle.x c - px) +
  (Circle.y c - py) * (Circle.y c - py)
  < Circle.radius c * Circle.radius c.

(** The circle that [checkBallBrick] builds for a ball. *)
Definition ballCircle (ball : Ball.t) : Circle.t :=
  Circle.mk (Ball.x ball) (Ball.y ball) (Ball.size ball / 2).

(** [n] calls of [hit] in a row, keeping the brick. *)
Definition hitTimes (n : nat) (b : Brick.t) : Brick.t :=
  Nat.iter n (fun b => fst (Brick.hit b)) b.

(** A Multiball capsule over the fresh paddle. *)
Definition multiballCapsule : PowerUp.t :=
  PowerUp.new 950 1015 (Some MULTIBALL).

(** An enemy created at time 0 and hidden since. *)
Definition hiddenEnemy : Enemy.t := Enemy.disappear (Enemy.new 940 150 0).

(** ** levels.js: the patterns and the loader

    [PADDING], [OFFSET_X] and [OFFSET_Y] are the entries of
    [CONFIG.BRICK] that the loader reads.  The [colors] entry of a level is
    never read and is left out. *)

From Stdlib Require Strings.String Strings.Ascii.

Module Levels.

Import Stdlib.Strings.Ascii Stdlib.Strings.String.
Local Open Scope string_scope.

Definition PADDING : R := 4.
Definition OFFSET_X : R := 192.
Definition OFFSET_Y : R := 60.

Definition LEVEL_PATTERNS : list (list string) :=
  [ [ "11111111"; "11111111"; "11111111"; "11111111"; "11111111";
      "11233211" ];
    [ "1 1 1 1"; " 1 1 1 "; "1 2 2 1"; " 2 2 2 "; "1 2 3 1"; " 2 3 2 " ];
    [ "II    II"; "I33  33I"; "I32  23I"; "I32  23I"; "11111111";
      "22222222" ];
    [ "111  111"; "1    1  "; "1 I  I 1"; "111  111"; "222  222";
      "33333333" ];
    [ "11111111"; "1I    I1"; "1I 33 I1"; "1I 33 I1"; "1I    I1";
      "11111111" ];
    [ "  11  "; "  11  "; "111111"; "112211"; "112211"; "  11  " ];
    [ "I  I  I  I"; "I33I  I33I"; "11111111"; "12222221"; "12333321";
      "12333321" ];
    [ "  11  "; " 1221 "; "123321"; "123321"; " 1221 "; "  11  " ];
    [ "1 1 1 1"; " 1 1 1 "; "2 2 2 2"; " 2 2 2 "; "3 3 3 3"; " 3 3 3 " ];
    [ "IIIIIIII"; "I333333I"; "I322223I"; "I321123I"; "I32  23I";
      "IIII  IIII" ] ].

Definition totalLevels : nat := List.length LEVEL_PATTERNS.

(** The [switch] on the character; any other character keeps the initial
    ['single']. *)
Definition brickType (char : ascii) : Brick.kind :=
  if Ascii.eqb char "1" then Brick.single
  else if Ascii.eqb char "2" then Brick.double
  else if Ascii.eqb char "3" then Brick.triple
  else if Ascii.eqb char "I" then Brick.indestructible_kind
  else Brick.single.

(** The [for] loop over the columns of one row, from column [colIndex]
    on. *)
Fixpoint parseRow (rowIndex colIndex : nat) (row : string) : list Brick.t :=
  match row with
  | EmptyString => []
  | String char rest =>
      if Ascii.eqb char " " then parseRow rowIndex (S colIndex) rest
      else
        Brick.new
          (OFFSET_X + INR colIndex * (CONFIG.BRICK.WIDTH + PADDING))
          (OFFSET_Y + INR rowIndex * (CONFIG.BRICK.HEIGHT + PADDING))
          (brickType char)
        :: parseRow rowIndex (S colIndex) rest
  end.

(** The [forEach] over the rows, from row [rowIndex] on. *)
Fixpoint parseRows (rowIndex : nat) (rows : list string) : list Brick.t :=
  match rows with
  | [] => []
  | row :: rest => parseRow rowIndex 0 row ++ parseRows (S rowIndex) rest
  end.

(** [loadLevel] returns the new content of [this.bricks]. *)
Definition loadLevel (levelIndex : nat) : list Brick.t :=
  let patternIndex := (levelIndex mod totalLevels)%nat in
  match nth_error LEVEL_PATTERNS patternIndex with
  | None => []
  | Some pattern => parseRows 0 pattern
  end.

Definition getRemainingBricks (bricks : list Brick.t) : nat :=
  List.length
    (filter (fun brick => Brick.active brick &&
                          negb (Brick.indestructible brick)) bricks).

(** The number of characters of a row that are not a space. *)
Fixpoint cells (row : string) : nat :=
  match row with
  | EmptyString => 0
  | String char rest =>
      if Ascii.eqb char " " then cells rest else S (cells rest)
  end.

End Levels.

(** A brick as the loader creates it: active, of the configured size, at
    or beyond the grid origin, with all its hits left. *)
Definition freshBrick (b : Brick.t) : Prop :=
  Brick.active b = true /\
  Brick.width b = CONFIG.BRICK.WIDTH /\
  Brick.height b = CONFIG.BRICK.HEIGHT /\
  Brick.hits b = Brick.maxHits b /\
  Levels.OFFSET_X <= Brick.x b /\ Levels.OFFSET_Y <= Brick.y b /\
  (Brick.indestructible b = true /\ Brick.score b = 0%Z \/
   Brick.indestructible b = false /\ (1 <= Brick.hits b <= 3)%Z /\
   Brick.score b = (10 * Brick.hits b)%Z).

(** Two bricks whose boxes do not overlap. *)
Definition apart (a b : Brick.t) : Prop :=
  CollisionDetector.checkAABB (Brick.getBounds a) (Brick.getBounds b) = false.

(** The left edge of grid column [c] and the top edge of grid row [r]. *)
Definition cellX (c : nat) : R :=
  Levels.OFFSET_X + INR c * (CONFIG.BRICK.WIDTH + Levels.PADDING).

Definition cellY (r : nat) : R :=
  Levels.OFFSET_Y + INR r * (CONFIG.BRICK.HEIGHT + Levels.PADDING).

(** A brick of the configured size in row [r], at column [c] or further
    right. *)
Definition inRowFrom (r c : nat) (b : Brick.t) : Prop :=
  Brick.y b = cellY r /\ cellX c <= Brick.x b /\
  Brick.width b = CONFIG.BRICK.WIDTH /\ Brick.height b = CONFIG.BRICK.HEIGHT.

(** A brick of the configured size in row [r] or further down. *)
Definition inRowsFrom (r : nat) (b : Brick.t) : Prop :=
  cellY r <= Brick.y b /\
  Brick.width b = CONFIG.BRICK.WIDTH /\ Brick.height b = CONFIG.BRICK.HEIGHT.

(** What a collision pass may do to a brick: take hits away and
    deactivate it, nothing else. *)
Definition brickKept (b b' : Brick.t) : Prop :=
  Brick.x b' = Brick.x b /\ Brick.y b' = Brick.y b /\
  Brick.width b' = Brick.width b /\ Brick.height b' = Brick.height b /\
  Brick.score b' = Brick.score b /\
  Brick.indestructible b' = Brick.indestructible b /\
  (Brick.hits b' <= Brick.hits b)%Z /\
  (Brick.active b' = true -> Brick.active b = true).

(** The speed of a ball lies between the base speed and the cap. *)
Definition speedInRange (b : Ball.t) : Prop :=
  CONFIG.BALL.BASE_SPEED <= Ball.speed b <= CONFIG.BALL.MAX_SPEED.

(** The fields of the game that the ball pass leaves alone. *)
Definition ballPassFrame (g g' : Game.t) : Prop :=
  Game.paddle g' = Game.paddle g /\ Game.enemies g' = Game.enemies g /\
  Game.lasers g' = Game.lasers g /\ Game.timers g' = Game.timers g /\
  Game.powerUps g' = Game.powerUps g /\ Game.balls g' = Game.balls g /\
  Game.speedIncreaseThreshold g' = Game.speedIncreaseThreshold g.

(** The bricks only lose, and with non-negative brick scores the score
    only grows. *)
Definition bricksKept (g g' : Game.t) : Prop :=
  Forall2 brickKept (Game.bricks g) (Game.bricks g') /\
  (Forall (fun b => (0 <= Brick.score b)%Z) (Game.bricks g) ->
   (Game.score g <= Game.score g')%Z).

(** What the ball pass may do to a ball: move it and turn it, and change
    its speed within the range; size, state and the active flag stay. *)
Definition ballKept (b b' : Ball.t) : Prop :=
  Ball.size b' = Ball.size b /\ Ball.state b' = Ball.state b /\
  Ball.active b' = Ball.active b /\
  (speedInRange b -> speedInRange b').

(** What the laser pass may do to an enemy: hit it. *)
Definition enemyKept (e e' : Enemy.t) : Prop :=
  e' = e \/ e' = fst (Enemy.hit e).

(** ** The clock

    [Date.now()] is a stream of readings consumed in call order, like the
    random source. *)

Module Clock.

Record t : Type := mk { times : nat -> R; pos : nat }.

Definition now (c : t) : R * t := (times c (pos c), mk (times c) (S (pos c))).

End Clock.

(** ** starfield.js *)

Module Starfield.

(** [currentBrightness] is undefined until the first [update]. *)
Record star : Type := mkStar {
  x : R;
  y : R;
  z : R;
  size : R;
  brightness : R;
  twinkleSpeed : R;
  twinkleOffset : R;
  currentBrightness : option R
}.

Record t : Type := mk { stars : list star; numStars : nat; speed : R }.

(** The seven draws are made in the order of the object literal. *)
Definition createRandomStar (g : Rng.t) : star * Rng.t :=
  let (r1, g) := Rng.random g in
  let (r2, g) := Rng.random g in
  let (r3, g) := Rng.random g in
  let (r4, g) := Rng.random g in
  let (r5, g) := Rng.random g in
  let (r6, g) := Rng.random g in
  let (r7, g) := Rng.random g in
  (mkStar (r1 * CONFIG.CANVAS_WIDTH) (r2 * CONFIG.CANVAS_HEIGHT)
     (r3 * 2 + 5 / 10) (r4 * 2 + 1) (r5 * (5 / 10) + 5 / 10) (r6 * 2 + 1)
     (r7 * PI * 2) None, g).

Fixpoint createStars (n : nat) (g : Rng.t) : list star * Rng.t :=
  match n with
  | O => ([], g)
  | S n =>
      let (s, g) := createRandomStar g in
      let (rest, g) := createStars n g in
      (s :: rest, g)
  end.

(** The constructor followed by [init]. *)
Definition new (g : Rng.t) : t * Rng.t :=
  let (ss, g) := createStars 150 g in (mk ss 150 50, g).

(** The body of the loop of [update] for one star. *)
Definition updateStar (speed deltaTime time : R) (s : star) (g : Rng.t)
  : star * Rng.t :=
  let y1 := y s + speed * z s * deltaTime in
  let '(x2, y2, z2, g) :=
    if Num.gtb y1 CONFIG.CANVAS_HEIGHT then
      let (r1, g) := Rng.random g in
      let (r2, g) := Rng.random g in
      (r1 * CONFIG.CANVAS_WIDTH, -10, r2 * 2 + 5 / 10, g)
    else (x s, y1, z s, g) in
  (mkStar x2 y2 z2 (size s) (brightness s) (twinkleSpeed s) (twinkleOffset s)
     (Some (brightness s *
            (7 / 10 + 3 / 10 * sin (time * twinkleSpeed s + twinkleOffset s)))),
   g).

Fixpoint updateStars (speed deltaTime time : R) (ss : list star) (g : Rng.t)
  : list star * Rng.t :=
  match ss with
  | [] => ([], g)
  | s :: rest =>
      let (s, g) := updateStar speed deltaTime time s g in
      let (rest, g) := updateStars speed deltaTime time rest g in
      (s :: rest, g)
  end.

Definition update (deltaTime now : R) (g : Rng.t) (f : t) : t * Rng.t :=
  let time := now / 1000 in
  let (ss, g) := updateStars (speed f) deltaTime time (stars f) g in
  (mk ss (numStars f) (speed f), g).

End Starfield.

(** ** input.js: the input handler

    The DOM events are the arguments of the handlers: the key code, the
    pointer's [clientX] with the canvas rectangle's [left] and [width], the
    mouse button.  A handler that may call back into the game returns
    whether it did. *)

Module InputHandler.

(** [event.code]; [OtherKey] is any code the [switch] does not list. *)
Inductive KeyCode : Type :=
  ArrowLeft | KeyA | ArrowRight | KeyD | Space | OtherKey.

Record t : Type := mk {
  left : bool;
  right : bool;
  space : bool;
  mouseX : option R;
  mouseActive : bool;
  mouseClicked : bool;
  canvas : bool
}.

Definition new : t := mk false false false None false false false.

Definition bindCanvas (i : t) : t :=
  mk (left i) (right i) (space i) (mouseX i) (mouseActive i) (mouseClicked i)
     true.

Definition handleKeyDown (code : KeyCode) (i : t) : t * bool :=
  match code with
  | ArrowLeft | KeyA =>
      (mk true (right i) (space i) (mouseX i) false (mouseClicked i)
          (canvas i), false)
  | ArrowRight | KeyD =>
      (mk (left i) true (space i) (mouseX i) false (mouseClicked i)
          (canvas i), false)
  | Space =>
      if negb (space i) then
        (mk (left i) (right i) true (mouseX i) (mouseActive i)
            (mouseClicked i) (canvas i), true)
      else (i, false)
  | OtherKey => (i, false)
  end.

Definition handleKeyUp (code : KeyCode) (i : t) : t :=
  match code with
  | ArrowLeft | KeyA =>
      mk false (right i) (space i) (mouseX i) (mouseActive i)
         (mouseClicked i) (canvas i)
  | ArrowRight | KeyD =>
      mk (left i) false (space i) (mouseX i) (mouseActive i)
         (mouseClicked i) (canvas i)
  | Space =>
      mk (left i) (right i) false (mouseX i) (mouseActive i)
         (mouseClicked i) (canvas i)
  | OtherKey => i
  end.

Definition handleMouseMove (clientX rectLeft rectWidth : R) (i : t) : t :=
  if negb (canvas i) then i
  else
    let scaleX := CONFIG.CANVAS_WIDTH / rectWidth in
    let m := (clientX - rectLeft) * scaleX in
    let m := Rmax 0 (Rmin CONFIG.CANVAS_WIDTH m) in
    mk (left i) (right i) (space i) (Some m) true (mouseClicked i) (canvas i).

Definition handleMouseDown (button : Z) (i : t) : t * bool :=
  if (button =? 0)%Z then
    (mk (left i) (right i) (space i) (mouseX i) (mouseActive i) true
        (canvas i), true)
  else (i, false).

Definition resetMouseClick (i : t) : t :=
  mk (left i) (right i) (space i) (mouseX i) (mouseActive i) false (canvas i).

Definition getPaddleDirection (i : t) : R :=
  if left i then -1 else if right i then 1 else 0.

Definition getMouseX (i : t) : option R := mouseX i.

Definition isMouseActive (i : t) : bool := mouseActive i.

End InputHandler.

Definition GAME_STATES_eqb (a b : GAME_STATES) : bool :=
  match a, b with
  | MENU, MENU | PLAYING, PLAYING | PAUSED, PAUSED | GAME_OVER, GAME_OVER
  | LEVEL_COMPLETE, LEVEL_COMPLETE => true
  | _, _ => false
  end.

(** ** game.js: the driver

    [game] holds the entities and counters of the collision pass; the
    record adds the rest of the [Game] object: its collaborators, the
    phase, lives, level, timing, and the stored high score.  [storage] is
    the integer that [parseInt] reads from the high-score entry of
    [localStorage], when the entry exists.  The state is taken once the
    asynchronous [init] has completed. *)

Module GameLoop.

Record t : Type := mk {
  game : Game.t;
  input : InputHandler.t;
  starfield : Starfield.t;
  state : GAME_STATES;
  highScore : Z;
  lives : Z;
  level : nat;
  currentLevel : nat;
  lastTime : R;
  accumulator : R;
  fixedTimeStep : R;
  clock : Clock.t;
  storage : option Z
}.

Definition set_game (v : Game.t) (d : t) : t :=
  mk v (input d) (starfield d) (state d) (highScore d) (lives d) (level d)
     (currentLevel d) (lastTime d) (accumulator d) (fixedTimeStep d) (clock d)
     (storage d).
Definition set_input (v : InputHandler.t) (d : t) : t :=
  mk (game d) v (starfield d) (state d) (highScore d) (lives d) (level d)
     (currentLevel d) (lastTime d) (accumulator d) (fixedTimeStep d) (clock d)
     (storage d).
Definition set_starfield (v : Starfield.t) (d : t) : t :=
  mk (game d) (input d) v (state d) (highScore d) (lives d) (level d)
     (currentLevel d) (lastTime d) (accumulator d) (fixedTimeStep d) (clock d)
     (storage d).
Definition set_state (v : GAME_STATES) (d : t) : t :=
  mk (game d) (input d) (starfield d) v (highScore d) (lives d) (level d)
     (currentLevel d) (lastTime d) (accumulator d) (fixedTimeStep d) (clock d)
     (storage d).
Definition set_highScore (v : Z) (d : t) : t :=
  mk (game d) (input d) (starfield d) (state d) v (lives d) (level d)
     (currentLevel d) (lastTime d) (accumulator d) (fixedTimeStep d) (clock d)
     (storage d).
Definition set_lives (v : Z) (d : t) : t :=
  mk (game d) (input d) (starfield d) (state d) (highScore d) v (level d)
     (currentLevel d) (lastTime d) (accumulator d) (fixedTimeStep d) (clock d)
     (storage d).
Definition set_level (v : nat) (d : t) : t :=
  mk (game d) (input d) (starfield d) (state d) (highScore d) (lives d) v
     (currentLevel d) (lastTime d) (accumulator d) (fixedTimeStep d) (clock d)
     (storage d).
Definition set_currentLevel (v : nat) (d : t) : t :=
  mk (game d) (input d) (starfield d) (state d) (highScore d) (lives d)
     (level d) v (lastTime d) (accumulator d) (fixedTimeStep d) (clock d)
     (storage d).
Definition set_lastTime (v : R) (d : t) : t :=
  mk (game d) (input d) (starfield d) (state d) (highScore d) (lives d)
     (level d) (currentLevel d) v (accumulator d) (fixedTimeStep d) (clock d)
     (storage d).
Definition set_accumulator (v : R) (d : t) : t :=
  mk (game d) (input d) (starfield d) (state d) (highScore d) (lives d)
     (level d) (currentLevel d) (lastTime d) v (fixedTimeStep d) (clock d)
     (storage d).
Definition set_clock (v : Clock.t) (d : t) : t :=
  mk (game d) (input d) (starfield d) (state d) (highScore d) (lives d)
     (level d) (currentLevel d) (lastTime d) (accumulator d) (fixedTimeStep d)
     v (storage d).
Definition set_storage (v : option Z) (d : t) : t :=
  mk (game d) (input d) (starfield d) (state d) (highScore d) (lives d)
     (level d) (currentLevel d) (lastTime d) (accumulator d) (fixedTimeStep d)
     (clock d) v.

(** An assignment to fields of the entities and counters. *)
Definition with_game (f : Game.t -> Game.t) (d : t) : t :=
  set_game (f (game d)) d.

(** [Date.now()] and [Math.random()] on the driver's clock and random
    source. *)
Definition now (d : t) : R * t :=
  let (n, c) := Clock.now (clock d) in (n, set_clock c d).

Definition random (d : t) : R * t :=
  let (r, g) := Game.random (game d) in (r, set_game g d).

Definition loadHighScore (d : t) : t :=
  match storage d with
  | Some saved => set_highScore saved d
  | None => d
  end.

Definition saveHighScore (d : t) : t :=
  if (Game.score (game d) >? highScore d)%Z then
    let d := set_highScore (Game.score (game d)) d in
    set_storage (Some (highScore d)) d
  else d.

(** MAX_LEVEL_1, MAX_LEVEL_2_3 and MAX_LEVEL_4_PLUS of [CONFIG.ENEMY]. *)
Definition numEnemiesFor (level : nat) : nat :=
  if (3 <=? level)%nat then 3 else if (1 <=? level)%nat then 2 else 1.

(** The [for] loop of [setupEnemies] from index [i], with [k] enemies
    still to create.  The constructor reads the clock; [appear] reads it
    again and draws the visible duration. *)
Fixpoint createEnemies (k i : nat) (spacing : R) (d : t)
  : list Enemy.t * t :=
  match k with
  | O => ([], d)
  | S k =>
      let (t0, d) := now d in
      let enemy :=
        Enemy.new (spacing * (INR i + 1) - CONFIG.ENEMY.WIDTH / 2)
          (150 + INR i * 50) t0 in
      let (enemy, d) :=
        if (i =? 0)%nat then
          let (t1, d) := now d in
          let (r, d) := random d in
          (Enemy.appear t1 r enemy, d)
        else (enemy, d) in
      let (rest, d) := createEnemies k (S i) spacing d in
      (enemy :: rest, d)
  end.

Definition setupEnemies (d : t) : t :=
  let d := with_game (Game.set_enemies []) d in
  let numEnemies := numEnemiesFor (level d) in
  let spacing := CONFIG.CANVAS_WIDTH / (INR numEnemies + 1) in
  let (es, d) := createEnemies numEnemies 0 spacing d in
  with_game (Game.set_enemies es) d.

Definition loadLevel (levelIndex : nat) (d : t) : t :=
  let d := set_level levelIndex d in
  let d := set_currentLevel levelIndex d in
  let d := with_game (Game.set_bricks (Levels.loadLevel levelIndex)) d in
  let d :=
    with_game (fun g => Game.set_paddle (Paddle.reset (Game.paddle g)) g) d in
  let d :=
    with_game
      (fun g =>
         Game.set_balls
           [Ball.new (CONFIG.CANVAS_WIDTH / 2) (Paddle.y (Game.paddle g) - 10)]
           g) d in
  let d := setupEnemies d in
  with_game (fun g => Game.set_lasers [] (Game.set_powerUps [] g)) d.

Definition startGame (d : t) : t :=
  let d := set_state PLAYING d in
  let d := with_game (Game.set_score 0) d in
  let d := set_lives CONFIG.GAME.INITIAL_LIVES d in
  let d := set_level 0 d in
  let d := with_game (Game.set_bricksDestroyed 0) d in
  loadLevel 0 d.

Definition handleSpace (d : t) : t :=
  if GAME_STATES_eqb (state d) MENU || GAME_STATES_eqb (state d) GAME_OVER
  then startGame d
  else if negb (GAME_STATES_eqb (state d) PLAYING) then d
  else
    match Game.balls (game d) with
    | mainBall :: rest =>
        if BALL_STATES_eqb (Ball.state mainBall) ATTACHED then
          with_game
            (fun g =>
               Game.play Sound.PADDLE_HIT (12 / 10)
                 (Game.set_balls (Ball.launchStraight mainBall :: rest) g)) d
        else d
    | [] => d
    end.

Definition handleMouseClick (d : t) : t :=
  if GAME_STATES_eqb (state d) MENU || GAME_STATES_eqb (state d) GAME_OVER
  then startGame d
  else if negb (GAME_STATES_eqb (state d) PLAYING) then d
  else
    match Game.balls (game d) with
    | mainBall :: rest =>
        if BALL_STATES_eqb (Ball.state mainBall) ATTACHED then
          with_game
            (fun g =>
               Game.play Sound.PADDLE_HIT (12 / 10)
                 (Game.set_balls (Ball.launchStraight mainBall :: rest) g)) d
        else d
    | [] => d
    end.

Definition gameOver (d : t) : t := saveHighScore (set_state GAME_OVER d).

Definition loseLife (d : t) : t :=
  let d := set_lives (lives d - 1)%Z d in
  let d := with_game (Game.play Sound.LIFE_LOST 1) d in
  if (lives d <=? 0)%Z then gameOver d
  else
    with_game
      (fun g =>
         Game.set_lasers []
           (Game.set_balls
              [Ball.new (CONFIG.CANVAS_WIDTH / 2)
                 (Paddle.y (Game.paddle g) - 10)] g)) d.

(** The first ball, when attached, is carried by the paddle. *)
Definition attachMain (paddle : Paddle.t) (balls : list Ball.t)
  : list Ball.t :=
  match balls with
  | mainBall :: rest =>
      if BALL_STATES_eqb (Ball.state mainBall) ATTACHED then
        Ball.set_y (Paddle.y paddle - Ball.size mainBall / 2)
          (Ball.set_x (Paddle.x paddle + Paddle.width paddle / 2) mainBall)
        :: rest
      else balls
  | [] => []
  end.

Definition updateBalls (deltaTime : R) (d : t) : t :=
  let bs := attachMain (Game.paddle (game d)) (Game.balls (game d)) in
  let bs := map (Ball.update deltaTime) bs in
  let bs := filter Ball.active bs in
  let d := with_game (Game.set_balls bs) d in
  if (length (Game.balls (game d)) =? 0)%nat then loseLife d else d.

Definition updatePowerUps (deltaTime : R) (d : t) : t :=
  with_game
    (fun g =>
       Game.set_powerUps
         (filter PowerUp.active
            (map (PowerUp.update deltaTime) (Game.powerUps g))) g) d.

(** Each [enemy.update] sees one reading of the clock. *)
Fixpoint updateEnemyList (deltaTime : R) (es : list Enemy.t) (d : t)
  : list Enemy.t * t :=
  match es with
  | [] => ([], d)
  | enemy :: rest =>
      let (n, d) := now d in
      let (enemy, s) := Enemy.update deltaTime n (Game.rng (game d)) enemy in
      let d := with_game (Game.set_rng s) d in
      let (rest, d) := updateEnemyList deltaTime rest d in
      (enemy :: rest, d)
  end.

Definition updateEnemies (deltaTime : R) (d : t) : t :=
  let (es, d) := updateEnemyList deltaTime (Game.enemies (game d)) d in
  with_game (Game.set_enemies es) d.

Definition updateLasers (deltaTime : R) (d : t) : t :=
  let laserSpeed := 600 in
  with_game
    (fun g =>
       Game.set_lasers
         (filter (fun l => Num.gtb (Laser.y l) (-10))
            (map (fun l => Laser.mk (Laser.x l)
                             (Laser.y l - laserSpeed * deltaTime))
               (Game.lasers g))) g) d.

Definition fireLaser (d : t) : t :=
  if negb (Paddle.hasLaser (Game.paddle (game d))) then d
  else
    with_game
      (fun g =>
         Game.play Sound.LASER 1
           (Game.set_lasers
              (Game.lasers g ++
               map (fun pos => Laser.mk (fst pos) (snd pos))
                 (Paddle.getLaserPositions (Game.paddle g))) g)) d.

Definition completeLevel (d : t) : t :=
  let d := with_game (Game.play Sound.POWERUP (15 / 10)) d in
  let d := set_level (S (level d)) d in
  loadLevel (level d) d.

(** The paddle part of [update]: the pointer when it is active and has a
    position, the keys otherwise. *)
Definition movePaddle (deltaTime : R) (d : t) : t :=
  let keyDirection := InputHandler.getPaddleDirection (input d) in
  match InputHandler.isMouseActive (input d),
        InputHandler.getMouseX (input d) with
  | true, Some mouseX =>
      with_game (fun g => Game.set_paddle (Paddle.moveTo mouseX (Game.paddle g)) g)
        d
  | _, _ =>
      if Req_dec_T keyDirection 0 then d
      else
        with_game
          (fun g =>
             Game.set_paddle
               (Paddle.move keyDirection deltaTime (Game.paddle g)) g) d
  end.

Definition update (deltaTime : R) (d : t) : t :=
  let (n, d) := now d in
  let (sf, s) :=
    Starfield.update deltaTime n (Game.rng (game d)) (starfield d) in
  let d := set_starfield sf (with_game (Game.set_rng s) d) in
  if negb (GAME_STATES_eqb (state d) PLAYING) then d
  else
    let d := movePaddle deltaTime d in
    let d :=
      with_game
        (fun g =>
           Game.set_paddle (Paddle.update (deltaTime * 1000) (Game.paddle g)) g)
        d in
    let d := updateBalls deltaTime d in
    let d := updatePowerUps deltaTime d in
    let d := updateEnemies deltaTime d in
    let d := updateLasers deltaTime d in
    let d := with_game Game.checkCollisions d in
    let d :=
      if LevelManager.isLevelComplete (Game.bricks (game d))
      then completeLevel d else d in
    set_input (InputHandler.resetMouseClick (input d)) d.

(** The [while] loop of [gameLoop].  Each turn takes [fixedTimeStep] off
    the accumulator, so with a positive step it makes at most
    accumulator / fixedTimeStep turns; [fuel] bounds the turns. *)
Fixpoint tickLoop (fuel : nat) (d : t) : t :=
  match fuel with
  | O => d
  | S fuel =>
      if Num.geb (accumulator d) (fixedTimeStep d) then
        let d := update (fixedTimeStep d / 1000) d in
        tickLoop fuel (set_accumulator (accumulator d - fixedTimeStep d) d)
      else d
  end.

Definition ticksBound (d : t) : nat :=
  S (Z.to_nat (up (accumulator d / fixedTimeStep d))).

(** Rendering reads the state and is left out. *)
Definition gameLoop (timestamp : R) (d : t) : t :=
  let deltaTime := timestamp - lastTime d in
  let d := set_lastTime timestamp d in
  if Num.gtb deltaTime 100 then d
  else
    let d := set_accumulator (accumulator d + deltaTime) d in
    tickLoop (ticksBound d) d.

(** The state once [init] has run: canvas bound, starfield filled, paddle
    created, high score loaded, phase MENU. *)
Definition init (g : Rng.t) (c : Clock.t) (stored : option Z) : t :=
  let (sf, g) := Starfield.new g in
  loadHighScore
    (mk (Game.mk Paddle.new [] [] [] [] [] 0 0 10 g [] [])
        (InputHandler.bindCanvas InputHandler.new) sf MENU 0
        CONFIG.GAME.INITIAL_LIVES 0 0 0 0 CONFIG.FRAME_TIME c stored).

(** What the host delivers: animation frames, key and pointer events, and
    the expiry of a timer set by [Paddle.extend]. *)
Inductive Event : Type :=
| Frame (timestamp : R)
| KeyDown (code : InputHandler.KeyCode)
| KeyUp (code : InputHandler.KeyCode)
| MouseMove (clientX rectLeft rectWidth : R)
| MouseDown (button : Z)
| TimeoutFired.

Definition step (d : t) (e : Event) : t :=
  match e with
  | Frame timestamp => gameLoop timestamp d
  | KeyDown code =>
      let (i, fired) := InputHandler.handleKeyDown code (input d) in
      let d := set_input i d in
      if fired then handleSpace d else d
  | KeyUp code => set_input (InputHandler.handleKeyUp code (input d)) d
  | MouseMove clientX rectLeft rectWidth =>
      set_input
        (InputHandler.handleMouseMove clientX rectLeft rectWidth (input d)) d
  | MouseDown button =>
      let (i, fired) := InputHandler.handleMouseDown button (input d) in
      let d := set_input i d in
      if fired then handleMouseClick d else d
  | TimeoutFired =>
      match Game.timers (game d) with
      | [] => d
      | _ :: rest =>
          with_game
            (fun g =>
               Game.set_timers rest
                 (Game.set_paddle (Paddle.extendTimeout (Game.paddle g)) g)) d
      end
  end.

Definition run (es : list Event) (d : t) : t := fold_left step es d.

(** *** Events while [init] waits for the sounds

    [init] is asynchronous.  It creates the input handler, binds the
    canvas and installs [handleSpace] and [handleMouseClick] before it
    awaits [loadAllSounds]; the starfield, [levelManager] and [paddle] are
    created after, and only then is the first frame requested.  An event
    delivered in between runs its handler on the game as the constructor
    left it: [balls] empty, [levelManager] and [paddle] null.  The fields
    that a handler can touch then are those of [loading]. *)
Record loading : Type := mkLoading {
  l_input : InputHandler.t;
  l_state : GAME_STATES;
  l_score : Z;
  l_lives : Z;
  l_level : nat;
  l_bricksDestroyed : Z
}.

Definition loadingNew : loading :=
  mkLoading (InputHandler.bindCanvas InputHandler.new) MENU 0
    CONFIG.GAME.INITIAL_LIVES 0 0.

(** [startGame] with [levelManager] null: its assignments run, then
    [loadLevel 0] sets [level] and throws on [this.levelManager.loadLevel],
    which ends the handler. *)
Definition startGameLoading (l : loading) : loading :=
  mkLoading (l_input l) PLAYING 0 CONFIG.GAME.INITIAL_LIVES 0 0.

(** [handleSpace] and [handleMouseClick], alike, with [balls] empty:
    [balls[0]] is undefined, so in the PLAYING phase nothing is launched. *)
Definition handleStartLoading (l : loading) : loading :=
  if GAME_STATES_eqb (l_state l) MENU || GAME_STATES_eqb (l_state l) GAME_OVER
  then startGameLoading l
  else l.

Definition loading_set_input (i : InputHandler.t) (l : loading) : loading :=
  mkLoading i (l_state l) (l_score l) (l_lives l) (l_level l)
    (l_bricksDestroyed l).

(** No frame is requested and no timer is set before [init] ends. *)
Definition stepLoading (l : loading) (e : Event) : loading :=
  match e with
  | Frame _ => l
  | KeyDown code =>
      let (i, fired) := InputHandler.handleKeyDown code (l_input l) in
      let l := loading_set_input i l in
      if fired then handleStartLoading l else l
  | KeyUp code =>
      loading_set_input (InputHandler.handleKeyUp code (l_input l)) l
  | MouseMove clientX rectLeft rectWidth =>
      loading_set_input
        (InputHandler.handleMouseMove clientX rectLeft rectWidth (l_input l))
        l
  | MouseDown button =>
      let (i, fired) := InputHandler.handleMouseDown button (l_input l) in
      let l := loading_set_input i l in
      if fired then handleStartLoading l else l
  | TimeoutFired => l
  end.

(** The rest of [init], once the sounds are loaded. *)
Definition finishInit (l : loading) (g : Rng.t) (c : Clock.t)
  (stored : option Z) : t :=
  let (sf, g) := Starfield.new g in
  loadHighScore
    (mk (Game.mk Paddle.new [] [] [] [] [] (l_score l) (l_bricksDestroyed l)
           10 g [] [])
        (l_input l) sf (l_state l) 0 (l_lives l) (l_level l) 0 0 0
        CONFIG.FRAME_TIME c stored).

(** [init] with the events [early] delivered while it loads;
    [boot []] is [init]. *)
Definition boot (early : list Event) (g : Rng.t) (c : Clock.t)
  (stored : option Z) : t :=
  finishInit (fold_left stepLoading early loadingNew) g c stored.

End GameLoop.



(** A clock that always reads 0. *)
Definition zeroClock : Clock.t := Clock.mk (fun _ => 0) 0.

(** The enemies after the first are visible and have no time to
    disappear at. *)
Definition othersVisible (es : list Enemy.t) : Prop :=
  Forall (fun e => Enemy.visible e = true /\ Enemy.disappearTime e = None)
    (tl es).

(** What holds of the driver in every state it reaches.  The ball of the
    PLAYING phase is part of it when [withBall] is set: a game started
    while [init] was still loading plays without a ball until its first
    [update]. *)
Definition driverInv (withBall : bool) (d : GameLoop.t) : Prop :=
  Game.lasers (GameLoop.game d) = [] /\
  Forall (fun e => Enemy.active e = true) (Game.enemies (GameLoop.game d)) /\
  othersVisible (Game.enemies (GameLoop.game d)) /\
  Forall speedInRange (Game.balls (GameLoop.game d)) /\
  (0 <= GameLoop.lives d <= 3)%Z /\
  (GameLoop.state d = PLAYING ->
   (1 <= GameLoop.lives d)%Z /\
   (withBall = true -> Game.balls (GameLoop.game d) <> [])) /\
  (GameLoop.state d = MENU \/ GameLoop.state d = PLAYING \/
   GameLoop.state d = GAME_OVER) /\
  GameLoop.fixedTimeStep d = CONFIG.FRAME_TIME.

(** The fields that [driverInv] reads are as before. *)
Definition invFrame (d d' : GameLoop.t) : Prop :=
  Game.lasers (GameLoop.game d') = Game.lasers (GameLoop.game d) /\
  Game.enemies (GameLoop.game d') = Game.enemies (GameLoop.game d) /\
  Game.balls (GameLoop.game d') = Game.balls (GameLoop.game d) /\
  GameLoop.lives d' = GameLoop.lives d /\
  GameLoop.state d' = GameLoop.state d /\
  GameLoop.fixedTimeStep d' = GameLoop.fixedTimeStep d.

(** One star before and after [update]: size, brightness and twinkle
    parameters are kept; a star whose new y is past the bottom of the
    canvas restarts at y = -10, any other moves down by speed * z *
    deltaTime and keeps x and z; either way it ends at or above the bottom,
    with a twinkle that lies, for a non-negative brightness, between 0.4
    and 1 times the brightness. *)
Definition starStepped (speed deltaTime : R) (s s' : Starfield.star) : Prop :=
  Starfield.size s' = Starfield.size s /\
  Starfield.brightness s' = Starfield.brightness s /\
  Starfield.twinkleSpeed s' = Starfield.twinkleSpeed s /\
  Starfield.twinkleOffset s' = Starfield.twinkleOffset s /\
  (CONFIG.CANVAS_HEIGHT < Starfield.y s + speed * Starfield.z s * deltaTime ->
   Starfield.y s' = -10) /\
  (Starfield.y s + speed * Starfield.z s * deltaTime <= CONFIG.CANVAS_HEIGHT ->
   Starfield.y s' = Starfield.y s + speed * Starfield.z s * deltaTime /\
   Starfield.x s' = Starfield.x s /\ Starfield.z s' = Starfield.z s) /\
  Starfield.y s' <= CONFIG.CANVAS_HEIGHT /\
  exists c, Starfield.currentBrightness s' = Some c /\
            (0 <= Starfield.brightness s ->
             4 / 10 * Starfield.brightness s <= c <= Starfield.brightness s).

(** The balls that are left after the ball part of a tick. *)
Definition ballsAfterTick (deltaTime : R) (d : GameLoop.t) : list Ball.t :=
  filter Ball.active
    (map (Ball.update deltaTime)
       (GameLoop.attachMain (Game.paddle (GameLoop.game d))
          (Game.balls (GameLoop.game d)))).

(** A driver in play with its last life and its only ball fallen out of
    the field. *)
Definition lastLifeDriver : GameLoop.t :=
  GameLoop.mk
    (Game.mk Paddle.new
       [Ball.mk 500 1100 8 400 400 0 400 LAUNCHED [] 10 false]
       [] [] [] [Brick.new 192 60 Brick.single] 40 4 10 tenthDraws [] [])
    (InputHandler.bindCanvas InputHandler.new)
    (Starfield.mk [] 150 50) PLAYING 25 1 0 0 0 0 CONFIG.FRAME_TIME zeroClock
    None.

(** * Properties *)

Module NumFacts.
Import Num.

Lemma ltb_true a b : ltb a b = true <-> a < b.
Proof. unfold ltb; destruct (Rlt_dec a b); split; intros; try easy. Qed.

Lemma ltb_false a b : ltb a b = false <-> b <= a.
Proof.
  unfold ltb; destruct (Rlt_dec a b); split; intros; try easy; lra.
Qed.

Lemma leb_true a b : leb a b = true <-> a <= b.
Proof. unfold leb; destruct (Rle_dec a b); split; intros; try easy. Qed.

Lemma leb_false a b : leb a b = false <-> b < a.
Proof.
  unfold leb; destruct (Rle_dec a b); split; intros; try easy; lra.
Qed.

Lemma gtb_true a b : gtb a b = true <-> b < a.
Proof. apply ltb_true. Qed.

Lemma gtb_false a b : gtb a b = false <-> a <= b.
Proof. apply ltb_false. Qed.

Lemma geb_true a b : geb a b = true <-> b <= a.
Proof. apply leb_true. Qed.

Lemma geb_false a b : geb a b = false <-> a < b.
Proof. apply leb_false. Qed.

End NumFacts.

(** Turns the boolean comparisons of the context into propositions that
    [lra] reads. *)
Ltac num_prop :=
  repeat match goal with
  | H : Num.ltb _ _ = true |- _ => apply NumFacts.ltb_true in H
  | H : Num.ltb _ _ = false |- _ => apply NumFacts.ltb_false in H
  | H : Num.leb _ _ = true |- _ => apply NumFacts.leb_true in H
  | H : Num.leb _ _ = false |- _ => apply NumFacts.leb_false in H
  | H : Num.gtb _ _ = true |- _ => apply NumFacts.gtb_true in H
  | H : Num.gtb _ _ = false |- _ => apply NumFacts.gtb_false in H
  | H : Num.geb _ _ = true |- _ => apply NumFacts.geb_true in H
  | H : Num.geb _ _ = false |- _ => apply NumFacts.geb_false in H
  end.

(** Rewrites one comparison of the goal to the boolean that [tac] proves
    it equal to. *)
Ltac num_true c tac :=
  let E := fresh "E" in
  assert (E : c = true) by
    (first [ apply NumFacts.ltb_true | apply NumFacts.leb_true
           | apply NumFacts.gtb_true | apply NumFacts.geb_true ]; tac);
  rewrite E; clear E.

Ltac num_false c tac :=
  let E := fresh "E" in
  assert (E : c = false) by
    (first [ apply NumFacts.ltb_false | apply NumFacts.leb_false
           | apply NumFacts.gtb_false | apply NumFacts.geb_false ]; tac);
  rewrite E; clear E.

(** Reduces the field accesses and field updates of a ball. *)
Ltac ball_simpl :=
  cbn [Ball.x Ball.y Ball.size Ball.baseSpeed Ball.speed Ball.dx Ball.dy
       Ball.state Ball.trail Ball.maxTrailLength Ball.active
       Ball.set_x Ball.set_y Ball.set_speed Ball.set_dx Ball.set_dy
       Ball.set_state Ball.set_trail Ball.set_active].

(** Case analysis on a conditional whose test contains no conditional. *)
Ltac case_if :=
  match goal with
  | |- context [if ?c then _ else _] =>
      lazymatch c with
      | context [if _ then _ else _] => fail
      | _ => destruct c eqn:?
      end
  end.

(** Decides the comparisons of the goal that [lra] settles. *)
Ltac num_eval :=
  repeat match goal with
  | |- context [Num.ltb ?a ?b] =>
      first [ num_true (Num.ltb a b) lra | num_false (Num.ltb a b) lra ]
  | |- context [Num.leb ?a ?b] =>
      first [ num_true (Num.leb a b) lra | num_false (Num.leb a b) lra ]
  | |- context [Num.gtb ?a ?b] =>
      first [ num_true (Num.gtb a b) lra | num_false (Num.gtb a b) lra ]
  | |- context [Num.geb ?a ?b] =>
      first [ num_true (Num.geb a b) lra | num_false (Num.geb a b) lra ]
  end.

(** Unfolds the numeric constants of the configuration. *)
Ltac config :=
  unfold CONFIG.CANVAS_WIDTH, CONFIG.CANVAS_HEIGHT, CONFIG.FRAME_TIME,
    CONFIG.PADDLE.WIDTH, CONFIG.PADDLE.HEIGHT, CONFIG.PADDLE.Y_POSITION,
    CONFIG.PADDLE.SPEED, CONFIG.BALL.SIZE, CONFIG.BALL.BASE_SPEED,
    CONFIG.BALL.MAX_SPEED, CONFIG.BRICK.WIDTH, CONFIG.BRICK.HEIGHT,
    CONFIG.POWERUP.WIDTH, CONFIG.POWERUP.HEIGHT, CONFIG.POWERUP.SPEED,
    CONFIG.POWERUP.DROP_CHANCE, CONFIG.POWERUP.DURATION,
    CONFIG.ENEMY.WIDTH, CONFIG.ENEMY.HEIGHT, CONFIG.ENEMY.SPEED,
    CONFIG.ENEMY.APPEAR_DELAY, CONFIG.GAME.MAX_BOUNCE_ANGLE,
    CONFIG.GAME.MIN_BOUNCE_ANGLE in *.

(** Evaluates [Rmin] and [Rmax] where [lra] orders the arguments. *)
Ltac minmax_eval :=
  repeat match goal with
  | |- context [Rmin ?a ?b] =>
      first [ rewrite (Rmin_left a b) by lra
            | rewrite (Rmin_right a b) by lra ]
  | |- context [Rmax ?a ?b] =>
      first [ rewrite (Rmax_left a b) by lra
            | rewrite (Rmax_right a b) by lra ]
  end.

(** ** Circle against rectangle *)

Section CircleRect.

Import CollisionDetector.

Variables (c : Circle.t) (r : Rect.t).

Lemma closestX_inside :
  Rect.x r <= Circle.x c <= Rect.x r + Rect.width r ->
  closestX c r = Circle.x c.
Proof.
  intros [H1 H2]. unfold closestX.
  rewrite Rmin_left by exact H2. apply Rmax_right; exact H1.
Qed.

Lemma closestY_inside :
  Rect.y r <= Circle.y c <= Rect.y r + Rect.height r ->
  closestY c r = Circle.y c.
Proof.
  intros [H1 H2]. unfold closestY.
  rewrite Rmin_left by exact H2. apply Rmax_right; exact H1.
Qed.

(** With the center inside, the nearest point is the center itself, so
    both overlaps are the radius. *)
Lemma overlaps_inside :
  centerInside c r ->
  overlapX c r = Circle.radius c /\ overlapY c r = Circle.radius c.
Proof.
  intros [Hx Hy]. unfold overlapX, overlapY.
  rewrite closestX_inside, closestY_inside by assumption.
  rewrite !Rminus_diag, Rabs_R0. split; lra.
Qed.

Lemma checkCircleRect_inside :
  centerInside c r -> 0 < Circle.radius c ->
  checkCircleRect c r =
  Some (mkInfo
          (if Num.ltb (Circle.y c) (Rect.y r + Rect.height r / 2)
           then top else bottom) 0 0 0).
Proof.
  intros Hin Hr. destruct (overlaps_inside Hin) as [Eox Eoy].
  destruct Hin as [Hx Hy]. unfold checkCircleRect.
  rewrite Eox, Eoy.
  rewrite closestX_inside, closestY_inside by assumption.
  rewrite !Rminus_diag.
  replace (0 * 0 + 0 * 0) with 0 by lra. rewrite sqrt_0.
  num_true (Num.ltb 0 (Circle.radius c)) lra.
  num_false (Num.ltb (Circle.y c) (Rect.y r)) lra.
  num_false (Num.gtb (Circle.y c) (Rect.y r + Rect.height r)) lra.
  num_false (Num.ltb (Circle.x c) (Rect.x r)) lra.
  num_false (Num.gtb (Circle.x c) (Rect.x r + Rect.width r)) lra.
  num_false (Num.ltb (Circle.radius c) (Circle.radius c)) lra.
  reflexivity.
Qed.

Lemma corner_inside :
  0 <= Rect.width r -> 0 <= Rect.height r -> atCorner c r -> centerInside c r.
Proof.
  intros Hw Hh [[Hx | Hx] [Hy | Hy]]; unfold centerInside; lra.
Qed.

End CircleRect.

(** C6. In [checkCircleRect], for a circle of positive radius whose
    center lies inside the rectangle and whose two overlaps are equal, a
    collision is reported and its side is top or bottom, never left or
    right; so is it for a circle centered exactly at a corner of a
    rectangle (of non-negative width and height). *)
Theorem checkCircleRect_tie_vertical (c : Circle.t) (r : Rect.t) :
  0 < Circle.radius c ->
  (centerInside c r ->
   CollisionDetector.overlapX c r = CollisionDetector.overlapY c r ->
   exists info, CollisionDetector.checkCircleRect c r = Some info /\
                vertical (CollisionDetector.side info)) /\
  (0 <= Rect.width r -> 0 <= Rect.height r -> atCorner c r ->
   exists info, CollisionDetector.checkCircleRect c r = Some info /\
                vertical (CollisionDetector.side info)).
Proof.
  intros Hr.
  assert (G : centerInside c r ->
              exists info, CollisionDetector.checkCircleRect c r = Some info /\
                           vertical (CollisionDetector.side info)).
  { intros Hin. rewrite (checkCircleRect_inside c r Hin Hr).
    eexists; split; [reflexivity |]. simpl. unfold vertical.
    destruct (Num.ltb _ _); auto. }
  split.
  - intros Hin _. exact (G Hin).
  - intros Hw Hh Hc. apply G, corner_inside; assumption.
Qed.

(** A circle of radius 4 centered at the top-left corner (100, 50) of a
    188 by 48 rectangle: the center is inside, the overlaps are equal, and
    it is at a corner. *)
Lemma checkCircleRect_tie_vertical_witness :
  (exists info,
     CollisionDetector.checkCircleRect (Circle.mk 100 50 4)
       (Rect.mk 100 50 188 48) = Some info /\
     vertical (CollisionDetector.side info)) /\
  (exists info,
     CollisionDetector.checkCircleRect (Circle.mk 100 50 4)
       (Rect.mk 100 50 188 48) = Some info /\
     vertical (CollisionDetector.side info)).
Proof.
  assert (Hr : 0 < Circle.radius (Circle.mk 100 50 4)) by (simpl; lra).
  assert (Hin : centerInside (Circle.mk 100 50 4) (Rect.mk 100 50 188 48))
    by (unfold centerInside; simpl; lra).
  destruct (checkCircleRect_tie_vertical (Circle.mk 100 50 4)
              (Rect.mk 100 50 188 48) Hr) as [H1 H2].
  split.
  - apply H1; [exact Hin |].
    destruct (overlaps_inside _ _ Hin) as [Ex Ey]. rewrite Ex, Ey. reflexivity.
  - apply H2; simpl; try lra.
    unfold atCorner; simpl; split; left; reflexivity.
Defined.

(** ** Bricks *)

Lemma Brick_hit_hits (b : Brick.t) :
  Brick.indestructible b = false ->
  Brick.hits (fst (Brick.hit b)) = (Brick.hits b - 1)%Z.
Proof.
  intros Hi. unfold Brick.hit, Brick.updateColor. rewrite Hi. simpl.
  rewrite Hi. simpl. destruct (_ <=? 0)%Z; reflexivity.
Qed.

Lemma Brick_hit_result (b : Brick.t) :
  Brick.indestructible b = false ->
  snd (Brick.hit b) = (Brick.hits b - 1 <=? 0)%Z /\
  Brick.active (fst (Brick.hit b)) =
    (if (Brick.hits b - 1 <=? 0)%Z then false else Brick.active b).
Proof.
  intros Hi. unfold Brick.hit, Brick.updateColor. rewrite Hi. simpl.
  rewrite Hi. simpl. destruct (_ <=? 0)%Z; split; reflexivity.
Qed.

(** C4, as stated, fails: [hit] has no guard on [active].  On the spent
    brick, which is not indestructible and inactive, a further call
    returns true and takes [hits] from 0 to -1. *)
Lemma Brick_hit_inactive_not_noop :
  ~ (forall b : Brick.t,
       Brick.indestructible b = false -> Brick.active b = false ->
       snd (Brick.hit b) = false /\
       Brick.hits (fst (Brick.hit b)) = Brick.hits b /\
       (0 <= Brick.hits (fst (Brick.hit b)))%Z).
Proof.
  intros H.
  destruct (H spentBrick eq_refl eq_refl) as [Hret _].
  vm_compute in Hret. discriminate Hret.
Qed.

(** C4, amended.  For a brick that is not indestructible, every call to
    [hit] lowers [hits] by exactly one, so [hits] never increases.  On an
    active brick with at least one hit left, [hits] stays at or above 0,
    [hit] returns true exactly when [hits] reaches 0, the brick is then
    inactive and otherwise stays active with a hit left.  An inactive
    brick is kept away from [hit] by the caller: [checkBallBrick] reports
    no collision for it. *)
Theorem Brick_hit_monotone (b : Brick.t) :
  Brick.indestructible b = false ->
  (Brick.hits (fst (Brick.hit b)) = Brick.hits b - 1)%Z /\
  (Brick.active b = true -> (1 <= Brick.hits b)%Z ->
   (0 <= Brick.hits (fst (Brick.hit b)))%Z /\
   (snd (Brick.hit b) = true <-> Brick.hits (fst (Brick.hit b)) = 0%Z) /\
   Brick.active (fst (Brick.hit b)) = negb (snd (Brick.hit b)) /\
   (Brick.active (fst (Brick.hit b)) = true ->
    (1 <= Brick.hits (fst (Brick.hit b)))%Z)) /\
  (Brick.active b = false ->
   forall ball, CollisionDetector.checkBallBrick ball b = None).
Proof.
  intros Hi.
  pose proof (Brick_hit_hits b Hi) as Hh.
  destruct (Brick_hit_result b Hi) as [Hs Ha].
  split; [exact Hh |]. split.
  - intros Hact Hge. rewrite Hh, Hs, Ha, Hact.
    destruct (Z.leb_spec (Brick.hits b - 1) 0); simpl.
    + repeat split; try lia; try discriminate. 
    + repeat split; try lia; try discriminate.
  - intros Hact ball. unfold CollisionDetector.checkBallBrick.
    rewrite Hact. reflexivity.
Qed.

(** A fresh two-hit brick. *)
Lemma Brick_hit_monotone_witness :
  (Brick.hits (fst (Brick.hit (Brick.new 192 60 Brick.double))) = 2 - 1)%Z /\
  (0 <= Brick.hits (fst (Brick.hit (Brick.new 192 60 Brick.double))))%Z.
Proof.
  destruct (Brick_hit_monotone (Brick.new 192 60 Brick.double) eq_refl)
    as [H1 [H2 _]].
  split; [exact H1 |].
  destruct (H2 eq_refl) as [H3 _]; [simpl; lia | exact H3].
Defined.

(** ** The paddle *)

Lemma Paddle_clamp_in_field (w v : R) :
  0 <= CONFIG.CANVAS_WIDTH - w ->
  0 <= Rmax 0 (Rmin (CONFIG.CANVAS_WIDTH - w) v) <= CONFIG.CANVAS_WIDTH - w.
Proof.
  intros Hw. split.
  - apply Rmax_l.
  - apply Rmax_lub; [exact Hw | apply Rmin_l].
Qed.

(** The operations that clamp, and those that leave [x] and [width]
    alone, keep the paddle within the field. *)
Lemma Paddle_in_field_preserved (p : Paddle.t) :
  paddleInField p ->
  (forall direction deltaTime,
     paddleInField (Paddle.move direction deltaTime p)) /\
  (forall targetX, paddleInField (Paddle.moveTo targetX p)) /\
  (forall duration, paddleInField (Paddle.enableLaser duration p)) /\
  (forall deltaTime, paddleInField (Paddle.update deltaTime p)).
Proof.
  intros Hp. unfold paddleInField in *.
  assert (Hw : 0 <= CONFIG.CANVAS_WIDTH - Paddle.width p) by lra.
  repeat split.
  - unfold Paddle.move. destruct (Req_dec_T direction 0); simpl; [lra |].
    apply Paddle_clamp_in_field, Hw.
  - unfold Paddle.move. destruct (Req_dec_T direction 0); simpl; [lra |].
    apply Paddle_clamp_in_field, Hw.
  - simpl. apply Paddle_clamp_in_field, Hw.
  - simpl. apply Paddle_clamp_in_field, Hw.
  - simpl. lra.
  - simpl. lra.
  - unfold Paddle.update. destruct (Paddle.hasLaser p); simpl; [| lra].
    destruct (Num.leb _ 0); simpl; lra.
  - unfold Paddle.update. destruct (Paddle.hasLaser p); simpl; [| lra].
    destruct (Num.leb _ 0); simpl; lra.
Qed.

Lemma Paddle_reset_in_field (p : Paddle.t) :
  Paddle.baseWidth p <= CONFIG.CANVAS_WIDTH -> paddleInField (Paddle.reset p).
Proof.
  intros Hb. unfold paddleInField, Paddle.reset. simpl.
  unfold CONFIG.CANVAS_WIDTH in *. lra.
Qed.

(** The revert callback of [extend] clamps on the right only; that is
    enough once the paddle is not left of the field. *)
Lemma Paddle_extendTimeout_in_field (p : Paddle.t) :
  0 <= Paddle.x p -> Paddle.baseWidth p <= CONFIG.CANVAS_WIDTH ->
  paddleInField (Paddle.extendTimeout p).
Proof.
  intros Hx Hb. unfold paddleInField, Paddle.extendTimeout. simpl. split.
  - apply Rmin_glb; lra.
  - apply Rmin_r.
Qed.

Lemma Paddle_new_in_field : paddleInField Paddle.new.
Proof.
  unfold paddleInField, Paddle.new; simpl.
  unfold CONFIG.CANVAS_WIDTH, CONFIG.PADDLE.WIDTH. lra.
Qed.

(** C3 at the input on which the code leaves the field: the fresh paddle
    moved to the right edge sits at x = 1800, within [0, 1800]; after
    [extend] its width is 180 and x is still 1800, beyond 1920 - 180. *)
Theorem Paddle_extend_leaves_field :
  paddleInField paddleAtRightEdge /\
  Paddle.x (Paddle.extend CONFIG.POWERUP.DURATION paddleAtRightEdge) = 1800 /\
  Paddle.width (Paddle.extend CONFIG.POWERUP.DURATION paddleAtRightEdge) = 180 /\
  ~ paddleInField (Paddle.extend CONFIG.POWERUP.DURATION paddleAtRightEdge).
Proof.
  assert (Ex : Paddle.x paddleAtRightEdge = 1800).
  { unfold paddleAtRightEdge, Paddle.moveTo, Paddle.new; simpl.
    unfold CONFIG.CANVAS_WIDTH, CONFIG.PADDLE.WIDTH.
    rewrite Rmin_left by lra. rewrite Rmax_right by lra. lra. }
  assert (Ew : Paddle.width paddleAtRightEdge = 120) by reflexivity.
  assert (Eb : Paddle.baseWidth paddleAtRightEdge = 120) by reflexivity.
  assert (Ex' : Paddle.x (Paddle.extend CONFIG.POWERUP.DURATION
                            paddleAtRightEdge) = 1800) by exact Ex.
  assert (Ew' : Paddle.width (Paddle.extend CONFIG.POWERUP.DURATION
                                paddleAtRightEdge) = 180).
  { change (Paddle.baseWidth paddleAtRightEdge * (15 / 10) = 180).
    rewrite Eb. lra. }
  unfold paddleInField. rewrite Ex', Ew', Ex, Ew. unfold CONFIG.CANVAS_WIDTH.
  repeat split; try lra.
Qed.

(** ** The speed of a ball *)

Lemma Ball_update_speed (dt : R) (b : Ball.t) :
  Ball.speed (Ball.update dt b) = Ball.speed b /\
  Ball.baseSpeed (Ball.update dt b) = Ball.baseSpeed b.
Proof.
  unfold Ball.update, Ball.pushTrail.
  repeat match goal with
         | |- context [if ?c then _ else _] => destruct c
         end; simpl; split; reflexivity.
Qed.

Lemma deflectBall_speed (e : Enemy.t) (g : Rng.t) (b : Ball.t) :
  Ball.speed (fst (Enemy.deflectBall b g e)) = Ball.speed b /\
  Ball.baseSpeed (fst (Enemy.deflectBall b g e)) = Ball.baseSpeed b.
Proof.
  unfold Enemy.deflectBall.
  destruct (negb (Enemy.visible e) || negb (Ball.active b));
    simpl; split; reflexivity.
Qed.

Lemma applyEvent_speedCapped (b : Ball.t) (e : BallEvent) :
  speedCapped b -> speedCapped (applyEvent b e).
Proof.
  unfold speedCapped. intros [Hs Hb]. destruct e; simpl.
  - split; [apply Rmin_r | exact Hb].
  - split; [apply Rmin_r | exact Hb].
  - split; [| exact Hb].
    apply Rmax_lub; unfold CONFIG.BALL.BASE_SPEED, CONFIG.BALL.MAX_SPEED in *;
      lra.
  - destruct (CollisionDetector.side collision); simpl; split; assumption.
  - destruct (deflectBall_speed enemy g b) as [E1 E2]. rewrite E1, E2.
    split; assumption.
  - unfold Ball.launch.
    destruct (negb (BALL_STATES_eqb (Ball.state b) ATTACHED)); simpl;
      split; assumption.
  - destruct (Ball_update_speed deltaTime b) as [E1 E2]. rewrite E1, E2.
    split; assumption.
  - split; exact Hb.
Qed.

Lemma runEvents_speedCapped (es : list BallEvent) :
  forall b, speedCapped b -> speedCapped (runEvents es b).
Proof.
  unfold runEvents. induction es as [| e es IH]; intros b Hb; simpl.
  - exact Hb.
  - apply IH, applyEvent_speedCapped, Hb.
Qed.

(** C7. A ball created at base speed keeps [speed <= MAX_SPEED] through
    every sequence of ball operations: the three that write the speed
    (the speed increase on a destroyed brick, the 1.02 increase of a
    paddle hit, the Slow power-up) and those that leave it alone. *)
Theorem Ball_speed_capped (es : list BallEvent) (x y : R) :
  Ball.speed (runEvents es (Ball.new x y)) <= CONFIG.BALL.MAX_SPEED.
Proof.
  apply (runEvents_speedCapped es (Ball.new x y)).
  unfold speedCapped; simpl.
  unfold CONFIG.BALL.BASE_SPEED, CONFIG.BALL.MAX_SPEED. lra.
Qed.

(** ** The Slow power-up *)

Lemma slowBall_update (dt : R) (b : Ball.t) :
  Ball.update dt (Game.slowBall b) = Game.slowBall (Ball.update dt b).
Proof.
  destruct b as [x y size baseSpeed speed dx dy state trail maxLen active].
  unfold Game.slowBall, Ball.update, Ball.pushTrail. ball_simpl.
  repeat (case_if; ball_simpl); reflexivity.
Qed.

(** C10. Catching a Slow power-up rewrites the ball list to the same
    balls with only [speed] changed, to max(BASE_SPEED, 0.7 * speed):
    position, velocity and every other field of each ball are as before,
    and the next [update] moves the slowed ball exactly as it would have
    moved the original one. *)
Theorem activatePowerUp_slow_frame (powerUp : PowerUp.t) (g : Game.t) :
  PowerUp.type powerUp = Some SLOW ->
  Game.balls (snd (Game.activatePowerUp powerUp g)) =
    map Game.slowBall (Game.balls g) /\
  (forall b : Ball.t,
     Game.slowBall b =
       Ball.set_speed
         (Rmax CONFIG.BALL.BASE_SPEED (Ball.speed b * (7 / 10))) b /\
     Ball.dx (Game.slowBall b) = Ball.dx b /\
     Ball.dy (Game.slowBall b) = Ball.dy b /\
     Ball.x (Game.slowBall b) = Ball.x b /\
     Ball.y (Game.slowBall b) = Ball.y b /\
     forall dt,
       Ball.x (Ball.update dt (Game.slowBall b)) = Ball.x (Ball.update dt b) /\
       Ball.y (Ball.update dt (Game.slowBall b)) = Ball.y (Ball.update dt b) /\
       Ball.dx (Ball.update dt (Game.slowBall b)) =
         Ball.dx (Ball.update dt b) /\
       Ball.dy (Ball.update dt (Game.slowBall b)) =
         Ball.dy (Ball.update dt b)).
Proof.
  intros Hty. split.
  - unfold Game.activatePowerUp. simpl. rewrite Hty. reflexivity.
  - intros b. repeat split; try reflexivity;
      rewrite slowBall_update; reflexivity.
Qed.

(** ** Ball against paddle *)

Lemma checkBallPaddle_some (ball : Ball.t) (paddle : Paddle.t)
  (info : CollisionDetector.PaddleInfo) :
  CollisionDetector.checkBallPaddle ball paddle = Some info ->
  0 < Ball.dy ball /\
  CollisionDetector.checkAABB (Ball.getBounds ball) (Paddle.getBounds paddle)
    = true /\
  CollisionDetector.hitPosition info =
    Paddle.getHitPosition (Ball.x ball) paddle /\
  CollisionDetector.angle info =
    CollisionDetector.hitPosition info * (PI / 3).
Proof.
  unfold CollisionDetector.checkBallPaddle.
  destruct (CollisionDetector.checkAABB _ _) eqn:Ebox; simpl; [| discriminate].
  destruct (Num.leb (Ball.dy ball) 0) eqn:Edy; [discriminate |].
  intros H; injection H as <-. simpl. num_prop.
  repeat split; try reflexivity. exact Edy.
Qed.

Lemma checkBallPaddle_none (ball : Ball.t) (paddle : Paddle.t) :
  Ball.dy ball <= 0 \/
  CollisionDetector.checkAABB (Ball.getBounds ball) (Paddle.getBounds paddle)
    = false ->
  CollisionDetector.checkBallPaddle ball paddle = None.
Proof.
  unfold CollisionDetector.checkBallPaddle. intros [H | H].
  - destruct (CollisionDetector.checkAABB _ _); simpl; [| reflexivity].
    num_true (Num.leb (Ball.dy ball) 0) assumption. reflexivity.
  - rewrite H. reflexivity.
Qed.

Lemma getHitPosition_center_edge (p : Paddle.t) :
  Paddle.width p <> 0 ->
  Paddle.getHitPosition (Paddle.x p + Paddle.width p / 2) p = 0 /\
  Paddle.getHitPosition (Paddle.x p) p = -1.
Proof.
  intros Hw. unfold Paddle.getHitPosition. split; field; exact Hw.
Qed.

Lemma resolveBallPaddle_some (ball : Ball.t) (paddle : Paddle.t)
  (info : CollisionDetector.PaddleInfo) :
  let ball' := CollisionDetector.resolveBallPaddle ball paddle (Some info) in
  Ball.dx ball' = sin (CollisionDetector.angle info) * Ball.speed ball /\
  Ball.dy ball' = - cos (CollisionDetector.angle info) * Ball.speed ball /\
  Ball.y ball' = Paddle.y paddle - Ball.size ball / 2 /\
  Ball.speed ball' =
    Rmin (Ball.speed ball * (102 / 100)) CONFIG.BALL.MAX_SPEED.
Proof. simpl. repeat split; reflexivity. Qed.

(** C8 at the input on which the code leaves the documented range: the
    ball falls with its center 3 pixels left of the paddle's left edge,
    the boxes overlap, the collision is reported with hit position -1.05,
    outside [-1, 1], and the bounce angle is 1.05 * 60 degrees to the
    left, beyond MAX_BOUNCE_ANGLE. *)
Theorem checkBallPaddle_beyond_edge :
  exists info,
    CollisionDetector.checkBallPaddle ballBesidePaddle Paddle.new = Some info /\
    CollisionDetector.hitPosition info = - (21 / 20) /\
    ~ (-1 <= CollisionDetector.hitPosition info <= 1) /\
    CollisionDetector.angle info < - CONFIG.GAME.MAX_BOUNCE_ANGLE.
Proof.
  unfold CollisionDetector.checkBallPaddle, CollisionDetector.checkAABB,
    ballBesidePaddle, Paddle.new, Paddle.getHitPosition.
  simpl.
  unfold CONFIG.CANVAS_WIDTH, CONFIG.CANVAS_HEIGHT, CONFIG.PADDLE.WIDTH,
    CONFIG.PADDLE.HEIGHT, CONFIG.PADDLE.Y_POSITION,
    CONFIG.GAME.MAX_BOUNCE_ANGLE.
  num_true (Num.ltb (897 - 8 / 2) (1920 / 2 - 120 / 2 + 120)) lra.
  num_true (Num.gtb (897 - 8 / 2 + 8) (1920 / 2 - 120 / 2)) lra.
  num_true (Num.ltb (1018 - 8 / 2) (1080 - 60 + 20)) lra.
  num_true (Num.gtb (1018 - 8 / 2 + 8) (1080 - 60)) lra.
  num_false (Num.leb 400 0) lra.
  simpl. eexists; split; [reflexivity |]. simpl.
  assert (E : ((897 - (1920 / 2 - 120 / 2)) / 120 - 5 / 10) * 2 = - (21 / 20))
    by lra.
  rewrite E. pose proof PI_RGT_0.
  repeat split; try lra.
Qed.

(** ** The direction of travel under [increaseSpeed] *)

(** The quarter turn added to the angle and the launch convention
    (dx = sin, dy = -cos) cancel. *)
Lemma quarter_turn (a : R) :
  sin (a + PI / 2) = cos a /\ - cos (a + PI / 2) = sin a.
Proof.
  rewrite sin_plus, cos_plus, sin_PI2, cos_PI2. split; ring.
Qed.

Lemma sqrt_1_sqr_pos (t : R) : 0 < sqrt (1 + t²).
Proof.
  apply sqrt_lt_R0. pose proof (Rle_0_sqr t). lra.
Qed.

(** [atan2 y x] is the angle of the vector (x, y): its cosine and sine are
    a positive multiple of x and y. *)
Lemma atan2_direction (y x : R) :
  x <> 0 \/ y <> 0 ->
  exists k, 0 < k /\
    cos (Num.atan2 y x) = k * x /\ sin (Num.atan2 y x) = k * y.
Proof.
  intros Hnz. unfold Num.atan2.
  pose proof (sqrt_1_sqr_pos (y / x)) as Hs.
  destruct (Rlt_dec 0 x) as [Hx | Hx].
  - exists (/ (sqrt (1 + (y / x)²) * x)). split.
    + apply Rinv_0_lt_compat, Rmult_lt_0_compat; assumption.
    + rewrite cos_atan, sin_atan. split; field; split; lra.
  - destruct (Rlt_dec x 0) as [Hx' | Hx'].
    + exists (/ (sqrt (1 + (y / x)²) * (- x))). split.
      * apply Rinv_0_lt_compat, Rmult_lt_0_compat; lra.
      * destruct (Rle_dec 0 y) as [Hy | Hy].
        -- rewrite neg_cos, neg_sin, cos_atan, sin_atan.
           split; field; split; lra.
        -- rewrite cos_minus, sin_minus, cos_PI, sin_PI, cos_atan, sin_atan.
           split; field; split; lra.
    + assert (Ex : x = 0) by lra. subst x.
      destruct (Rlt_dec 0 y) as [Hy | Hy].
      * exists (/ y). split; [apply Rinv_0_lt_compat; exact Hy |].
        rewrite cos_PI2, sin_PI2. split; [ring | field; lra].
      * destruct (Rlt_dec y 0) as [Hy' | Hy'].
        -- exists (/ (- y)). split; [apply Rinv_0_lt_compat; lra |].
           rewrite cos_neg, sin_neg, cos_PI2, sin_PI2.
           split; [ring | field; lra].
        -- exfalso. destruct Hnz as [H | H]; [apply H; reflexivity |].
           apply H. lra.
Qed.

(** C5, amended. [increaseSpeed m] sets the speed to
    min(speed * m, MAX_SPEED) and, for a moving ball whose speed times the
    multiplier is positive, keeps the direction of travel: the new
    velocity is the new speed times (cos a, sin a) for a = atan2(dy, dx),
    the quarter turn and the launch convention cancelling, and it is a
    positive multiple of the previous (dx, dy). *)
Theorem Ball_increaseSpeed_keeps_direction (m : R) (b : Ball.t) :
  0 < Ball.speed b * m -> Ball.dx b <> 0 \/ Ball.dy b <> 0 ->
  Ball.speed (Ball.increaseSpeed m b) =
    Rmin (Ball.speed b * m) CONFIG.BALL.MAX_SPEED /\
  Ball.dx (Ball.increaseSpeed m b) =
    cos (Num.atan2 (Ball.dy b) (Ball.dx b)) * Ball.speed (Ball.increaseSpeed m b) /\
  Ball.dy (Ball.increaseSpeed m b) =
    sin (Num.atan2 (Ball.dy b) (Ball.dx b)) * Ball.speed (Ball.increaseSpeed m b) /\
  exists k, 0 < k /\
    Ball.dx (Ball.increaseSpeed m b) = k * Ball.dx b /\
    Ball.dy (Ball.increaseSpeed m b) = k * Ball.dy b.
Proof.
  intros Hsm Hnz.
  destruct (quarter_turn (Num.atan2 (Ball.dy b) (Ball.dx b))) as [Es Ec].
  destruct (atan2_direction (Ball.dy b) (Ball.dx b) Hnz) as [k [Hk [Ek1 Ek2]]].
  unfold Ball.increaseSpeed. ball_simpl.
  rewrite Es, Ec.
  assert (Hnew : 0 < Rmin (Ball.speed b * m) CONFIG.BALL.MAX_SPEED).
  { apply Rmin_glb_lt.
    - exact Hsm.
    - unfold CONFIG.BALL.MAX_SPEED; lra. }
  repeat split; try reflexivity.
  exists (k * Rmin (Ball.speed b * m) CONFIG.BALL.MAX_SPEED).
  split; [apply Rmult_lt_0_compat; assumption |].
  rewrite Ek1, Ek2. split; ring.
Qed.

(** C5 as stated fails where no direction of travel exists or the
    multiplier is not positive.  A ball at rest (a new ball has dx = dy =
    0) leaves [increaseSpeed 1.05] with the velocity (420, 0), which is no
    multiple of (0, 0); the ball of a straight launch leaves
    [increaseSpeed (-1)] with its velocity reversed and
    [increaseSpeed 0] with the velocity (0, 0): neither is a positive
    multiple of the velocity before. *)
Lemma Ball_increaseSpeed_at_rest_turns :
  Ball.dx (Ball.increaseSpeed (105 / 100) (Ball.new 960 1010)) = 420 /\
  Ball.dy (Ball.increaseSpeed (105 / 100) (Ball.new 960 1010)) = 0 /\
  ~ (exists k, 0 < k /\
       Ball.dx (Ball.increaseSpeed (105 / 100) (Ball.new 960 1010)) =
         k * Ball.dx (Ball.new 960 1010) /\
       Ball.dy (Ball.increaseSpeed (105 / 100) (Ball.new 960 1010)) =
         k * Ball.dy (Ball.new 960 1010)) /\
  ~ (exists k, 0 < k /\
       Ball.dx (Ball.increaseSpeed (-1) ballGoingUp) = k * Ball.dx ballGoingUp /\
       Ball.dy (Ball.increaseSpeed (-1) ballGoingUp) = k * Ball.dy ballGoingUp) /\
  ~ (exists k, 0 < k /\
       Ball.dx (Ball.increaseSpeed 0 ballGoingUp) = k * Ball.dx ballGoingUp /\
       Ball.dy (Ball.increaseSpeed 0 ballGoingUp) = k * Ball.dy ballGoingUp).
Proof.
  assert (A0 : Num.atan2 0 0 = 0).
  { unfold Num.atan2.
    destruct (Rlt_dec 0 0) as [H | _]; [exfalso; lra | reflexivity]. }
  assert (A1 : Num.atan2 (-400) 0 = - (PI / 2)).
  { unfold Num.atan2.
    destruct (Rlt_dec 0 0) as [H | _]; [exfalso; lra |].
    destruct (Rlt_dec 0 (-400)) as [H | _]; [exfalso; lra |].
    destruct (Rlt_dec (-400) 0) as [_ | H]; [reflexivity | exfalso; lra]. }
  assert (Ex : Ball.dx (Ball.increaseSpeed (105 / 100) (Ball.new 960 1010))
               = 420).
  { unfold Ball.increaseSpeed, Ball.new. ball_simpl. rewrite A0.
    rewrite Rplus_0_l, sin_PI2. config.
    rewrite Rmin_left by lra. lra. }
  assert (Ey : Ball.dy (Ball.increaseSpeed (105 / 100) (Ball.new 960 1010))
               = 0).
  { unfold Ball.increaseSpeed, Ball.new. ball_simpl. rewrite A0.
    rewrite Rplus_0_l, cos_PI2. lra. }
  assert (Z0 : - (PI / 2) + PI / 2 = 0) by lra.
  split; [exact Ex |]. split; [exact Ey |]. split; [| split].
  - intros [k [Hk [H1 _]]]. rewrite Ex in H1. simpl in H1. lra.
  - intros [k [Hk [_ H2]]]. revert H2.
    unfold Ball.increaseSpeed, ballGoingUp. ball_simpl.
    rewrite A1, Z0, cos_0. config. rewrite Rmin_left by lra. intros H2.
    lra.
  - intros [k [Hk [_ H2]]]. revert H2.
    unfold Ball.increaseSpeed, ballGoingUp. ball_simpl.
    rewrite A1, Z0, cos_0. config. rewrite Rmin_left by lra. intros H2.
    lra.
Qed.

(** ** The brick pass of [checkCollisions] *)

Lemma Brick_hit_destroyed (b : Brick.t) :
  snd (Brick.hit b) = true ->
  Brick.active (fst (Brick.hit b)) = false /\
  Brick.canDropPowerUp (fst (Brick.hit b)) = false.
Proof.
  unfold Brick.hit, Brick.canDropPowerUp.
  destruct (Brick.indestructible b) eqn:Ei; simpl; [discriminate |].
  destruct (_ <=? 0)%Z; simpl; [| discriminate].
  intros _. split; [reflexivity | apply andb_false_r].
Qed.

(** A destroyed brick is inactive by the time [canDropPowerUp] looks at
    it, so the drop branch is never taken and the second draw never
    made. *)
Lemma onBrickCollision_powerUps (i : nat) (brick : Brick.t)
  (c : CollisionDetector.CircleRectInfo) (ball : Ball.t) (g : Game.t) :
  Game.powerUps (snd (Game.onBrickCollision i brick c ball g)) =
  Game.powerUps g.
Proof.
  unfold Game.onBrickCollision.
  pose proof (Brick_hit_destroyed brick) as Hd.
  destruct (Brick.hit brick) as [brick' destroyed]. simpl in Hd.
  destruct destroyed; [| reflexivity].
  destruct (Hd eq_refl) as [_ Hdrop].
  unfold Game.random, Rng.random. simpl. rewrite Hdrop. reflexivity.
Qed.

Lemma brickLoop_powerUps (act : list nat) (ball : Ball.t) :
  forall g, Game.powerUps (snd (Game.brickLoop act ball g)) = Game.powerUps g.
Proof.
  induction act as [| i act IH]; intros g; simpl; [reflexivity |].
  destruct (nth_error (Game.bricks g) i) as [brick |]; [| apply IH].
  destruct (CollisionDetector.checkBallBrick ball brick) as [c |];
    [apply onBrickCollision_powerUps | apply IH].
Qed.

Lemma paddleStep_powerUps (ball : Ball.t) (g : Game.t) :
  Game.powerUps (snd (Game.paddleStep ball g)) = Game.powerUps g.
Proof.
  unfold Game.paddleStep.
  destruct (CollisionDetector.checkBallPaddle ball (Game.paddle g));
    reflexivity.
Qed.

Lemma enemyLoop_powerUps (es : list Enemy.t) :
  forall ball g,
    Game.powerUps (snd (Game.enemyLoop es ball g)) = Game.powerUps g.
Proof.
  induction es as [| e es IH]; intros ball g; simpl; [reflexivity |].
  destruct (CollisionDetector.checkBallEnemy ball e); [| apply IH].
  destruct (Enemy.deflectBall ball (Game.rng g) e) as [ball' s].
  rewrite IH. reflexivity.
Qed.

Lemma collideBall_powerUps (act : list nat) (ball : Ball.t) (g : Game.t) :
  Game.powerUps (snd (Game.collideBall act ball g)) = Game.powerUps g.
Proof.
  unfold Game.collideBall.
  destruct (negb _); [reflexivity |].
  pose proof (brickLoop_powerUps act ball g) as H1.
  destruct (Game.brickLoop act ball g) as [ball1 g1]. simpl in H1.
  pose proof (paddleStep_powerUps ball1 g1) as H2.
  destruct (Game.paddleStep ball1 g1) as [ball2 g2]. simpl in H2.
  rewrite enemyLoop_powerUps. congruence.
Qed.

(** Whatever the balls, the bricks and the draws, the ball pass appends
    no power-up. *)
Lemma ballLoop_powerUps (act : list nat) (bs : list Ball.t) :
  forall g, Game.powerUps (snd (Game.ballLoop act bs g)) = Game.powerUps g.
Proof.
  induction bs as [| ball bs IH]; intros g; simpl; [reflexivity |].
  pose proof (collideBall_powerUps act ball g) as H1.
  destruct (Game.collideBall act ball g) as [ball1 g1]. simpl in H1.
  specialize (IH g1).
  destruct (Game.ballLoop act bs g1) as [rest g2]. simpl in *. congruence.
Qed.

Lemma onBrickCollision_bricks (i : nat) (brick : Brick.t)
  (c : CollisionDetector.CircleRectInfo) (ball : Ball.t) (g : Game.t) :
  Game.bricks (snd (Game.onBrickCollision i brick c ball g)) =
  LevelManager.store i (fst (Brick.hit brick)) (Game.bricks g).
Proof.
  unfold Game.onBrickCollision.
  destruct (Brick.hit brick) as [brick' destroyed]. simpl.
  destruct destroyed; [| reflexivity].
  unfold Game.random, Rng.random. simpl.
  destruct (Brick.canDropPowerUp brick'); [| reflexivity].
  destruct (Num.ltb _ _); reflexivity.
Qed.

Lemma onBrickCollision_score (i : nat) (brick : Brick.t)
  (c : CollisionDetector.CircleRectInfo) (ball : Ball.t) (g : Game.t) :
  Game.score (snd (Game.onBrickCollision i brick c ball g)) =
  (if snd (Brick.hit brick)
   then Game.score g + Brick.score (fst (Brick.hit brick))
   else Game.score g)%Z /\
  Game.bricksDestroyed (snd (Game.onBrickCollision i brick c ball g)) =
  (if snd (Brick.hit brick)
   then Game.bricksDestroyed g + 1 else Game.bricksDestroyed g)%Z.
Proof.
  unfold Game.onBrickCollision.
  destruct (Brick.hit brick) as [brick' destroyed]. simpl.
  destruct destroyed; [| split; reflexivity].
  unfold Game.random, Rng.random. simpl.
  destruct (Brick.canDropPowerUp brick'); [| split; reflexivity].
  destruct (Num.ltb _ _); split; reflexivity.
Qed.

(** Each resolved collision plays the brick sound once. *)
Lemma onBrickCollision_sounds (i : nat) (brick : Brick.t)
  (c : CollisionDetector.CircleRectInfo) (ball : Ball.t) (g : Game.t) :
  exists pitch,
    Game.sounds (snd (Game.onBrickCollision i brick c ball g)) =
    Game.sounds g ++ [(Sound.BRICK_HIT, pitch)].
Proof.
  unfold Game.onBrickCollision.
  destruct (Brick.hit brick) as [brick' destroyed]. simpl.
  destruct destroyed; [| eexists; reflexivity].
  unfold Game.random, Rng.random. simpl.
  destruct (Brick.canDropPowerUp brick'); [| eexists; reflexivity].
  destruct (Num.ltb _ _); eexists; reflexivity.
Qed.

Lemma store_other (i j : nat) (brick : Brick.t) :
  forall bricks, j <> i ->
    nth_error (LevelManager.store i brick bricks) j = nth_error bricks j.
Proof.
  revert j. induction i as [| i IH]; intros j bricks Hne;
    destruct bricks as [| b rest]; simpl; try reflexivity.
  - destruct j; [contradiction | reflexivity].
  - destruct j; [reflexivity |]. simpl. apply IH. congruence.
Qed.

Lemma store_same (i : nat) (brick old : Brick.t) :
  forall bricks, nth_error bricks i = Some old ->
    nth_error (LevelManager.store i brick bricks) i = Some brick.
Proof.
  induction i as [| i IH]; intros bricks H;
    destruct bricks as [| b rest]; simpl in *; try discriminate.
  - reflexivity.
  - apply IH, H.
Qed.

(** The loop passes over the positions that report no collision and
    stops at the first that reports one. *)
Lemma brickLoop_skip (pre : list nat) (ball : Ball.t) (g : Game.t) :
  forall rest,
    (forall j, In j pre -> checkAt ball g j = None) ->
    Game.brickLoop (pre ++ rest) ball g = Game.brickLoop rest ball g.
Proof.
  induction pre as [| j pre IH]; intros rest Hpre; simpl; [reflexivity |].
  pose proof (Hpre j (or_introl eq_refl)) as Hj. unfold checkAt in Hj.
  destruct (nth_error (Game.bricks g) j) as [brick |].
  - rewrite Hj. apply IH. intros k Hk. apply Hpre. right; exact Hk.
  - apply IH. intros k Hk. apply Hpre. right; exact Hk.
Qed.

(** C9. When the ball collides with the brick at position [i] of the
    active list and with none before it, the brick loop does exactly the
    work of that one collision, whatever bricks follow in the list (they
    are not checked, even if they overlap the ball too): the brick at [i]
    takes one hit, every other brick of the store is as before, and one
    brick sound is played. *)
Theorem brickLoop_one_brick (pre post : list nat) (i : nat)
  (brick : Brick.t) (c : CollisionDetector.CircleRectInfo)
  (ball : Ball.t) (g : Game.t) :
  (forall j, In j pre -> checkAt ball g j = None) ->
  nth_error (Game.bricks g) i = Some brick ->
  CollisionDetector.checkBallBrick ball brick = Some c ->
  Game.brickLoop (pre ++ i :: post) ball g =
    Game.onBrickCollision i brick c ball g /\
  fst (Game.brickLoop (pre ++ i :: post) ball g) =
    fst (Game.brickLoop [i] ball g) /\
  nth_error (Game.bricks (snd (Game.brickLoop (pre ++ i :: post) ball g))) i
    = Some (fst (Brick.hit brick)) /\
  (forall j, j <> i ->
     nth_error (Game.bricks (snd (Game.brickLoop (pre ++ i :: post) ball g))) j
     = nth_error (Game.bricks g) j) /\
  exists pitch,
    Game.sounds (snd (Game.brickLoop (pre ++ i :: post) ball g)) =
    Game.sounds g ++ [(Sound.BRICK_HIT, pitch)].
Proof.
  intros Hpre Hi Hc.
  assert (E : Game.brickLoop (pre ++ i :: post) ball g =
              Game.onBrickCollision i brick c ball g).
  { rewrite brickLoop_skip by exact Hpre. simpl. rewrite Hi, Hc. reflexivity. }
  assert (E1 : Game.brickLoop [i] ball g =
               Game.onBrickCollision i brick c ball g).
  { simpl. rewrite Hi, Hc. reflexivity. }
  rewrite E, E1, onBrickCollision_bricks.
  repeat split.
  - apply store_same with (old := brick), Hi.
  - intros j Hj. apply store_other, Hj.
  - apply onBrickCollision_sounds.
Qed.

(** When no active brick reports a collision, the loop changes
    nothing. *)
Lemma brickLoop_no_collision (act : list nat) (ball : Ball.t) (g : Game.t) :
  (forall j, In j act -> checkAt ball g j = None) ->
  Game.brickLoop act ball g = (ball, g).
Proof.
  intros H. rewrite <- (app_nil_r act). rewrite brickLoop_skip by exact H.
  reflexivity.
Qed.

Lemma laserEnemyLoop_powerUps (es : list Enemy.t) :
  forall laser g,
    Game.powerUps (snd (Game.laserEnemyLoop es laser g)) = Game.powerUps g.
Proof.
  induction es as [| e es IH]; intros laser g; simpl; [reflexivity |].
  destruct (_ && _).
  - match goal with
    | |- context [Game.laserEnemyLoop es ?l ?h] =>
        specialize (IH l h); destruct (Game.laserEnemyLoop es l h) as [[r l'] g']
    end.
    simpl in *. exact IH.
  - specialize (IH laser g).
    destruct (Game.laserEnemyLoop es laser g) as [[r l'] g'].
    simpl in *. exact IH.
Qed.

Lemma laserLoop_powerUps (ls : list Laser.t) :
  forall es g,
    Game.powerUps (snd (Game.laserLoop ls es g)) = Game.powerUps g.
Proof.
  induction ls as [| l ls IH]; intros es g; simpl; [reflexivity |].
  pose proof (laserEnemyLoop_powerUps es l g) as H1.
  destruct (Game.laserEnemyLoop es l g) as [[es1 l1] g1]. simpl in H1.
  specialize (IH es1 g1).
  destruct (Game.laserLoop ls es1 g1) as [[ls2 es2] g2]. simpl in *.
  congruence.
Qed.

(** With no power-up on the field before the pass, there is none after
    it: bricks may be destroyed, none drops a capsule. *)
Lemma checkCollisions_no_powerUps (g : Game.t) :
  Game.powerUps g = [] -> Game.powerUps (Game.checkCollisions g) = [].
Proof.
  intros H0. unfold Game.checkCollisions.
  pose proof (ballLoop_powerUps
                (LevelManager.getActiveBricks (Game.bricks g))
                (Game.balls g) g) as H1.
  destruct (Game.ballLoop _ (Game.balls g) g) as [bs g1]. simpl in H1.
  replace (Game.powerUps (Game.set_balls bs g1)) with (@nil PowerUp.t)
    by (simpl; congruence).
  simpl Game.powerUpLoop. cbv iota beta.
  match goal with
  | |- context [Game.laserLoop ?ls ?es ?h] =>
      pose proof (laserLoop_powerUps ls es h) as H2;
      destruct (Game.laserLoop ls es h) as [[ls2 es2] g2]
  end.
  simpl in *. exact H2.
Qed.

Lemma checkBallBrick_under :
  CollisionDetector.checkBallBrick ballUnderBrick
    (Brick.new 192 60 Brick.single) =
  Some (CollisionDetector.mkInfo CollisionDetector.bottom 0 0 0).
Proof.
  unfold CollisionDetector.checkBallBrick. simpl negb. cbv iota.
  rewrite checkCircleRect_inside.
  - simpl. unfold CONFIG.BRICK.HEIGHT.
    num_false (Num.ltb 108 (60 + 48 / 2)) lra. reflexivity.
  - unfold centerInside; simpl.
    unfold CONFIG.BRICK.WIDTH, CONFIG.BRICK.HEIGHT. lra.
  - simpl. lra.
Qed.

(** C1 at the input on which the code drops nothing: one single-hit
    brick, a ball reaching its bottom edge, every draw equal to 0.1, below
    DROP_CHANCE.  The collision is detected, the brick is destroyed and
    scored, and no power-up is appended, neither by the brick loop nor by
    the whole pass. *)
Theorem destroyed_brick_drops_nothing :
  (forall n, Rng.draws (Game.rng gameOneBrick) n < CONFIG.POWERUP.DROP_CHANCE)
  /\
  LevelManager.getActiveBricks (Game.bricks gameOneBrick) = [0%nat] /\
  (exists c, checkAt ballUnderBrick gameOneBrick 0 = Some c) /\
  map Brick.active
    (Game.bricks (snd (Game.brickLoop [0%nat] ballUnderBrick gameOneBrick)))
    = [false] /\
  Game.score (snd (Game.brickLoop [0%nat] ballUnderBrick gameOneBrick))
    = 10%Z /\
  Game.powerUps (snd (Game.brickLoop [0%nat] ballUnderBrick gameOneBrick))
    = [] /\
  Game.powerUps (Game.checkCollisions gameOneBrick) = [].
Proof.
  assert (E : Game.brickLoop [0%nat] ballUnderBrick gameOneBrick =
              Game.onBrickCollision 0 (Brick.new 192 60 Brick.single)
                (CollisionDetector.mkInfo CollisionDetector.bottom 0 0 0)
                ballUnderBrick gameOneBrick).
  { cbn [Game.brickLoop nth_error Game.bricks gameOneBrick].
    rewrite checkBallBrick_under. reflexivity. }
  split; [intros n; simpl; unfold CONFIG.POWERUP.DROP_CHANCE; lra |].
  split; [reflexivity |].
  split; [unfold checkAt; cbn [nth_error Game.bricks gameOneBrick];
          rewrite checkBallBrick_under; eexists; reflexivity |].
  rewrite E, onBrickCollision_bricks, onBrickCollision_powerUps.
  destruct (onBrickCollision_score 0 (Brick.new 192 60 Brick.single)
              (CollisionDetector.mkInfo CollisionDetector.bottom 0 0 0)
              ballUnderBrick gameOneBrick) as [Es _].
  rewrite Es.
  repeat split; try reflexivity.
  apply checkCollisions_no_powerUps. reflexivity.
Qed.

(** ** Enemies *)

(** A laser hit clears [active] and nothing else; the ball test reads
    [visible] only, so it answers as before the hit. *)
Lemma Enemy_hit_still_collides (ball : Ball.t) (e : Enemy.t) :
  Enemy.active (fst (Enemy.hit e)) = false /\
  Enemy.visible (fst (Enemy.hit e)) = Enemy.visible e /\
  Enemy.checkBallCollision ball (fst (Enemy.hit e)) =
    Enemy.checkBallCollision ball e.
Proof. repeat split; reflexivity. Qed.

Lemma deflectBall_upwards (ball : Ball.t) (g : Rng.t) (e : Enemy.t) :
  Enemy.visible e = true -> Ball.active ball = true ->
  Ball.dy (fst (Enemy.deflectBall ball g e)) <= 0.
Proof.
  intros Hv Ha. unfold Enemy.deflectBall. rewrite Hv, Ha. simpl.
  pose proof (Rabs_pos (cos ((30 + Rng.draws g (Rng.pos g) * 30) * (PI / 180))
                        * Ball.speed ball)).
  lra.
Qed.


(** ** Witnesses *)

(** The ball of a straight launch, sped up by 1.05. *)
Lemma Ball_increaseSpeed_keeps_direction_witness :
  exists k, 0 < k /\
    Ball.dx (Ball.increaseSpeed (105 / 100) ballGoingUp) = k * 0 /\
    Ball.dy (Ball.increaseSpeed (105 / 100) ballGoingUp) = k * -400.
Proof.
  assert (Hs : 0 < Ball.speed ballGoingUp * (105 / 100)) by (simpl; lra).
  assert (Hv : Ball.dx ballGoingUp <> 0 \/ Ball.dy ballGoingUp <> 0)
    by (right; simpl; lra).
  exact (proj2 (proj2 (proj2
    (Ball_increaseSpeed_keeps_direction (105 / 100) ballGoingUp Hs Hv)))).
Defined.

(** A Slow capsule caught in the one-brick game. *)
Lemma activatePowerUp_slow_frame_witness :
  Game.balls (snd (Game.activatePowerUp slowCapsule gameOneBrick)) =
  map Game.slowBall (Game.balls gameOneBrick).
Proof.
  exact (proj1 (activatePowerUp_slow_frame slowCapsule gameOneBrick eq_refl)).
Defined.

Lemma checkCircleRect_some (c : Circle.t) (r : Rect.t) :
  sqrt ((Circle.x c - CollisionDetector.closestX c r) *
        (Circle.x c - CollisionDetector.closestX c r) +
        (Circle.y c - CollisionDetector.closestY c r) *
        (Circle.y c - CollisionDetector.closestY c r)) < Circle.radius c ->
  exists info, CollisionDetector.checkCircleRect c r = Some info.
Proof.
  intros H. unfold CollisionDetector.checkCircleRect.
  apply NumFacts.ltb_true in H. rewrite H. eexists; reflexivity.
Qed.

(** The ball in the gap overlaps the brick on its left and the brick on
    its right: the nearest points are 2 pixels away, the radius is 4. *)
Lemma ballBetweenBricks_overlaps :
  (exists c, CollisionDetector.checkBallBrick ballBetweenBricks
               (Brick.new 192 60 Brick.double) = Some c) /\
  (exists c, CollisionDetector.checkBallBrick ballBetweenBricks
               (Brick.new 384 60 Brick.double) = Some c).
Proof.
  split; unfold CollisionDetector.checkBallBrick; simpl negb; cbv iota;
    apply checkCircleRect_some;
    unfold CollisionDetector.closestX, CollisionDetector.closestY; simpl;
    config; minmax_eval.
  - replace ((382 - (192 + 188)) * (382 - (192 + 188)) +
             (84 - 84) * (84 - 84)) with (2 * 2) by lra.
    rewrite sqrt_square; lra.
  - replace ((382 - 384) * (382 - 384) + (84 - 84) * (84 - 84))
      with (2 * 2) by lra.
    rewrite sqrt_square; lra.
Qed.

(** Two bricks overlap the ball; the first takes the hit, the second,
    although it answers the test too, is left as it was. *)
Lemma brickLoop_one_brick_witness :
  LevelManager.getActiveBricks (Game.bricks gameTwoBricks) = [0; 1]%nat /\
  (exists c, checkAt ballBetweenBricks gameTwoBricks 1 = Some c) /\
  nth_error
    (Game.bricks
       (snd (Game.brickLoop ([] ++ 0%nat :: [1%nat]) ballBetweenBricks
               gameTwoBricks))) 0
    = Some (fst (Brick.hit (Brick.new 192 60 Brick.double))) /\
  nth_error
    (Game.bricks
       (snd (Game.brickLoop ([] ++ 0%nat :: [1%nat]) ballBetweenBricks
               gameTwoBricks))) 1
    = nth_error (Game.bricks gameTwoBricks) 1.
Proof.
  destruct ballBetweenBricks_overlaps as [[c0 H0] [c1 H1]].
  split; [reflexivity |].
  split; [exists c1; exact H1 |].
  destruct (brickLoop_one_brick [] [1%nat] 0
              (Brick.new 192 60 Brick.double) c0 ballBetweenBricks
              gameTwoBricks)
    as [_ [_ [Hhit [Hrest _]]]].
  - intros j [].
  - reflexivity.
  - exact H0.
  - split; [exact Hhit | apply Hrest; discriminate].
Defined.

(** ** The active list is in storage order *)




(** * Further properties of the code *)

(** ** ball.js *)

(** X1. [update] keeps a ball in play between the side walls and below
    the top wall: whatever the velocity and the time step, its center ends
    at least half its size away from the left, right and top borders. *)
Theorem Ball_update_within_walls (dt : R) (b : Ball.t) :
  Ball.state b = LAUNCHED -> Ball.size b <= CONFIG.CANVAS_WIDTH ->
  Ball.size b / 2 <= Ball.x (Ball.update dt b)
    <= CONFIG.CANVAS_WIDTH - Ball.size b / 2 /\
  Ball.size b / 2 <= Ball.y (Ball.update dt b).
Proof.
  destruct b as [x y size baseSpeed speed dx dy state trail maxLen active].
  ball_simpl. intros -> Hsize.
  unfold Ball.update, Ball.pushTrail. ball_simpl. simpl negb. cbv iota.
  repeat (case_if; ball_simpl); num_prop; config; lra.
Qed.

Lemma Ball_update_within_walls_witness :
  Ball.size ballGoingUp / 2 <= Ball.x (Ball.update (1 / 60) ballGoingUp)
    <= CONFIG.CANVAS_WIDTH - Ball.size ballGoingUp / 2 /\
  Ball.size ballGoingUp / 2 <= Ball.y (Ball.update (1 / 60) ballGoingUp).
Proof.
  apply Ball_update_within_walls; [reflexivity | simpl; config; lra].
Defined.

(** X2. [update] never changes how fast the ball moves along either axis,
    only the sign: a ball that ends on the left or top wall moves away
    from it, and so does one that ends on the right wall. *)
Theorem Ball_update_reflects (dt : R) (b : Ball.t) :
  Ball.size b < CONFIG.CANVAS_WIDTH ->
  Rabs (Ball.dx (Ball.update dt b)) = Rabs (Ball.dx b) /\
  Rabs (Ball.dy (Ball.update dt b)) = Rabs (Ball.dy b) /\
  (Ball.state b = LAUNCHED ->
   (Ball.x (Ball.update dt b) <= Ball.size b / 2 ->
    0 <= Ball.dx (Ball.update dt b)) /\
   (CONFIG.CANVAS_WIDTH - Ball.size b / 2 <= Ball.x (Ball.update dt b) ->
    Ball.dx (Ball.update dt b) <= 0) /\
   (Ball.y (Ball.update dt b) <= Ball.size b / 2 ->
    0 <= Ball.dy (Ball.update dt b))).
Proof.
  destruct b as [x y size baseSpeed speed dx dy state trail maxLen active].
  ball_simpl. intros Hsize.
  pose proof (Rabs_pos dx) as Hdx. pose proof (Rabs_pos dy) as Hdy.
  unfold Ball.update, Ball.pushTrail. ball_simpl.
  split; [| split].
  - repeat (case_if; ball_simpl);
      rewrite ?Rabs_Ropp, ?Rabs_Rabsolu; reflexivity.
  - repeat (case_if; ball_simpl);
      rewrite ?Rabs_Ropp, ?Rabs_Rabsolu; reflexivity.
  - intros ->. simpl negb. cbv iota.
    repeat (case_if; ball_simpl); num_prop; config;
      repeat split; intros; lra.
Qed.

(** A ball that crosses the left wall during the step is put back on it
    and sent to the right. *)
Lemma Ball_update_reflects_witness :
  0 <= Ball.dx (Ball.update (1 / 60) ballNearLeftWall).
Proof.
  assert (Hs : Ball.size ballNearLeftWall < CONFIG.CANVAS_WIDTH)
    by (simpl; config; lra).
  destruct (Ball_update_reflects (1 / 60) ballNearLeftWall Hs)
    as [_ [_ H]].
  destruct (H eq_refl) as [Hleft _]. apply Hleft.
  unfold Ball.update, Ball.pushTrail, ballNearLeftWall. ball_simpl.
  simpl negb. cbv iota.
  repeat (case_if; ball_simpl); num_prop; config; lra.
Defined.

Lemma Ball_update_trail (dt : R) (b : Ball.t) :
  trailBounded b ->
  trailBounded (Ball.update dt b) /\
  Ball.maxTrailLength (Ball.update dt b) = Ball.maxTrailLength b.
Proof.
  destruct b as [x y size baseSpeed speed dx dy state trail maxLen active].
  unfold trailBounded, Ball.update, Ball.pushTrail. ball_simpl. intros H.
  assert (Hlen : length (trail ++ [(x, y)]) = S (length trail))
    by (rewrite length_app; simpl; lia).
  destruct (negb (BALL_STATES_eqb state LAUNCHED)); ball_simpl;
    [split; [exact H | reflexivity] |].
  destruct (Nat.ltb_spec maxLen (length (trail ++ [(x, y)]))) as [Hlt | Hge];
    ball_simpl; repeat (case_if; ball_simpl); split; try reflexivity.
  all: try (destruct (trail ++ [(x, y)]) as [| p tr]; simpl in *; lia).
  all: lia.
Qed.

Lemma applyEvent_trail (b : Ball.t) (e : BallEvent) :
  trailBounded b ->
  trailBounded (applyEvent b e) /\
  Ball.maxTrailLength (applyEvent b e) = Ball.maxTrailLength b.
Proof.
  intros H. destruct e; simpl.
  - split; [exact H | reflexivity].
  - split; [exact H | reflexivity].
  - split; [exact H | reflexivity].
  - destruct (CollisionDetector.side collision); split;
      [exact H | reflexivity | exact H | reflexivity | exact H | reflexivity
      | exact H | reflexivity].
  - unfold Enemy.deflectBall.
    destruct (negb (Enemy.visible enemy) || negb (Ball.active b)); simpl;
      split; [exact H | reflexivity | exact H | reflexivity].
  - unfold Ball.launch.
    destruct (negb (BALL_STATES_eqb (Ball.state b) ATTACHED)); simpl;
      split; [exact H | reflexivity | exact H | reflexivity].
  - apply Ball_update_trail, H.
  - split; [unfold trailBounded; simpl; lia | reflexivity].
Qed.

(** X3. The trail of a ball never holds more than 10 positions, through
    every sequence of ball operations from its creation. *)
Theorem Ball_trail_capacity (es : list BallEvent) (x y : R) :
  (length (Ball.trail (runEvents es (Ball.new x y))) <= 10)%nat.
Proof.
  assert (G : forall b, trailBounded b -> Ball.maxTrailLength b = 10%nat ->
                trailBounded (runEvents es b) /\
                Ball.maxTrailLength (runEvents es b) = 10%nat).
  { unfold runEvents. induction es as [| e es IH]; intros b Hb Hm; simpl.
    - split; assumption.
    - destruct (applyEvent_trail b e Hb) as [H1 H2].
      apply IH; [exact H1 | congruence]. }
  destruct (G (Ball.new x y)) as [H1 H2].
  - unfold trailBounded; simpl; lia.
  - reflexivity.
  - unfold trailBounded in H1. rewrite H2 in H1. exact H1.
Qed.

(** X4. [launch] takes an attached ball to flight at exactly its speed, in
    the direction of the angle, and a ball in flight ignores any further
    launch. *)
Theorem Ball_launch_once (angle : R) (b : Ball.t) :
  Ball.state b = ATTACHED ->
  Ball.state (Ball.launch angle b) = LAUNCHED /\
  Ball.dx (Ball.launch angle b) * Ball.dx (Ball.launch angle b) +
  Ball.dy (Ball.launch angle b) * Ball.dy (Ball.launch angle b) =
    Ball.speed b * Ball.speed b /\
  forall angle', Ball.launch angle' (Ball.launch angle b) = Ball.launch angle b.
Proof.
  intros Hs. unfold Ball.launch at 1 2 3 4 5. rewrite Hs. simpl.
  repeat split.
  - pose proof (sin2_cos2 angle) as H. unfold Rsqr in H.
    replace (sin angle * Ball.speed b * (sin angle * Ball.speed b) +
             - cos angle * Ball.speed b * (- cos angle * Ball.speed b))
      with ((sin angle * sin angle + cos angle * cos angle) *
            (Ball.speed b * Ball.speed b)) by ring.
    rewrite H. ring.
  - intros angle'. unfold Ball.launch. rewrite Hs. simpl. reflexivity.
Qed.

Lemma Ball_launch_once_witness :
  Ball.state (Ball.launch 0 (Ball.new 960 1010)) = LAUNCHED.
Proof.
  exact (proj1 (Ball_launch_once 0 (Ball.new 960 1010) eq_refl)).
Defined.

(** ** collision.js *)

Lemma checkAABB_true (a b : Rect.t) :
  CollisionDetector.checkAABB a b = true <->
  Rect.x a < Rect.x b + Rect.width b /\
  Rect.x b < Rect.x a + Rect.width a /\
  Rect.y a < Rect.y b + Rect.height b /\
  Rect.y b < Rect.y a + Rect.height a.
Proof.
  unfold CollisionDetector.checkAABB.
  rewrite !andb_true_iff, !NumFacts.ltb_true, !NumFacts.gtb_true. tauto.
Qed.

Lemma checkAABB_sym (a b : Rect.t) :
  CollisionDetector.checkAABB a b = CollisionDetector.checkAABB b a.
Proof.
  apply eq_true_iff_eq. rewrite !checkAABB_true. tauto.
Qed.

(** X5. For rectangles of positive width and height, [checkAABB] answers
    true exactly when the two rectangles share an interior point; rectangles
    that only touch along an edge do not collide. *)
Theorem checkAABB_overlap (a b : Rect.t) :
  0 < Rect.width a -> 0 < Rect.height a ->
  0 < Rect.width b -> 0 < Rect.height b ->
  (CollisionDetector.checkAABB a b = true <->
   exists px py, insideOpen px py a /\ insideOpen px py b).
Proof.
  intros Hwa Hha Hwb Hhb. rewrite checkAABB_true. unfold insideOpen. split.
  - intros [H1 [H2 [H3 H4]]].
    exists ((Rmax (Rect.x a) (Rect.x b) +
             Rmin (Rect.x a + Rect.width a) (Rect.x b + Rect.width b)) / 2),
           ((Rmax (Rect.y a) (Rect.y b) +
             Rmin (Rect.y a + Rect.height a) (Rect.y b + Rect.height b)) / 2).
    unfold Rmax, Rmin.
    repeat match goal with
           | |- context [Rle_dec ?u ?v] => destruct (Rle_dec u v)
           end; lra.
  - intros [px [py [[[A1 A2] [A3 A4]] [[B1 B2] [B3 B4]]]]]. lra.
Qed.

(** Two bricks side by side in the grid, 4 pixels apart, and a 4 by 4
    box over the first. *)
Lemma checkAABB_overlap_witness :
  CollisionDetector.checkAABB (Rect.mk 200 70 4 4) (Rect.mk 192 60 188 48)
    = true <->
  exists px py, insideOpen px py (Rect.mk 200 70 4 4) /\
                insideOpen px py (Rect.mk 192 60 188 48).
Proof.
  apply checkAABB_overlap; simpl; lra.
Defined.

Lemma clamp_in (lo hi v : R) :
  lo <= hi -> lo <= Rmax lo (Rmin v hi) <= hi.
Proof.
  intros H. unfold Rmax, Rmin.
  destruct (Rle_dec v hi); destruct (Rle_dec lo _); lra.
Qed.

(** The clamped coordinate is at least as near to [v] as any coordinate of
    the interval. *)
Lemma clamp_nearest (lo hi v p : R) :
  lo <= p <= hi ->
  (v - Rmax lo (Rmin v hi)) * (v - Rmax lo (Rmin v hi)) <= (v - p) * (v - p).
Proof.
  intros H. unfold Rmax, Rmin.
  destruct (Rle_dec v hi); destruct (Rle_dec lo _); try lra.
  - replace ((v - v) * (v - v)) with 0 by ring. apply (Rle_0_sqr (v - p)).
  - assert (0 <= (p - lo) * (p + lo - 2 * v))
      by (apply Rmult_le_pos; lra).
    nra.
  - assert (0 <= (hi - p) * (2 * v - hi - p))
      by (apply Rmult_le_pos; lra).
    nra.
Qed.

Lemma sqrt_lt_iff (a r : R) :
  0 <= a -> 0 <= r -> (sqrt a < r <-> a < r * r).
Proof.
  intros Ha Hr. split; intros H.
  - rewrite <- (sqrt_sqrt a Ha). pose proof (sqrt_pos a). nra.
  - rewrite <- (sqrt_square r Hr). apply sqrt_lt_1_alt. lra.
Qed.

Lemma checkCircleRect_detects (c : Circle.t) (r : Rect.t) :
  (exists info, CollisionDetector.checkCircleRect c r = Some info) <->
  sqrt ((Circle.x c - CollisionDetector.closestX c r) *
        (Circle.x c - CollisionDetector.closestX c r) +
        (Circle.y c - CollisionDetector.closestY c r) *
        (Circle.y c - CollisionDetector.closestY c r)) < Circle.radius c.
Proof.
  unfold CollisionDetector.checkCircleRect. rewrite <- NumFacts.ltb_true.
  destruct (Num.ltb _ _); split; intros H; try reflexivity.
  - eexists; reflexivity.
  - destruct H as [info H]; discriminate H.
  - discriminate H.
Qed.

(** X6. For a rectangle of non-negative width and height and a circle of
    non-negative radius, [checkCircleRect] reports a collision exactly when
    some point of the rectangle lies strictly inside the circle. *)
Theorem checkCircleRect_correct (c : Circle.t) (r : Rect.t) :
  0 <= Rect.width r -> 0 <= Rect.height r -> 0 <= Circle.radius c ->
  ((exists info, CollisionDetector.checkCircleRect c r = Some info) <->
   exists px py, insideClosed px py r /\ insideCircle px py c).
Proof.
  intros Hw Hh Hr. rewrite checkCircleRect_detects.
  unfold insideClosed, insideCircle.
  unfold CollisionDetector.closestX, CollisionDetector.closestY.
  remember (Rmax (Rect.x r) (Rmin (Circle.x c) (Rect.x r + Rect.width r)))
    as qx eqn:Eqx.
  remember (Rmax (Rect.y r) (Rmin (Circle.y c) (Rect.y r + Rect.height r)))
    as qy eqn:Eqy.
  pose proof (Rle_0_sqr (Circle.x c - qx)) as Sx.
  pose proof (Rle_0_sqr (Circle.y c - qy)) as Sy. unfold Rsqr in Sx, Sy.
  assert (Hq : 0 <= (Circle.x c - qx) * (Circle.x c - qx) +
                    (Circle.y c - qy) * (Circle.y c - qy)) by lra.
  rewrite (sqrt_lt_iff _ _ Hq Hr). split.
  - intros H. exists qx, qy. split; [| exact H].
    subst qx qy. split; apply clamp_in; lra.
  - intros [px [py [[Hx Hy] H]]].
    pose proof (clamp_nearest (Rect.x r) (Rect.x r + Rect.width r)
                  (Circle.x c) px Hx) as Nx.
    pose proof (clamp_nearest (Rect.y r) (Rect.y r + Rect.height r)
                  (Circle.y c) py Hy) as Ny.
    rewrite <- Eqx in Nx. rewrite <- Eqy in Ny. lra.
Qed.

(** The ball in the gap against the brick on its left: the point
    (380, 84) of the brick is 2 pixels from the center. *)
Lemma checkCircleRect_correct_witness :
  exists info,
    CollisionDetector.checkCircleRect (Circle.mk 382 84 4)
      (Rect.mk 192 60 188 48) = Some info.
Proof.
  apply (checkCircleRect_correct (Circle.mk 382 84 4)
           (Rect.mk 192 60 188 48)); simpl; try lra.
  exists 380, 84. unfold insideClosed, insideCircle. simpl. lra.
Defined.

Lemma sqrt_ge (a r : R) : 0 <= r -> r * r <= a -> r <= sqrt a.
Proof.
  intros Hr H. rewrite <- (sqrt_square r Hr). apply sqrt_le_1_alt, H.
Qed.

(** On the axis along which the ball is pushed out, the repositioned
    center is exactly one radius away from the brick. *)
Lemma clamp_gap (lo hi v r : R) :
  0 <= r -> lo <= hi -> v = lo - r \/ v = hi + r ->
  (v - Rmax lo (Rmin v hi)) * (v - Rmax lo (Rmin v hi)) = r * r.
Proof.
  intros Hr Hlh [-> | ->]; unfold Rmin.
  - destruct (Rle_dec (lo - r) hi) as [_ | Hn]; [| exfalso; lra].
    rewrite Rmax_left by lra. ring.
  - destruct (Rle_dec (hi + r) hi) as [Hle | _].
    + assert (E : r = 0) by lra. rewrite E, Rplus_0_r.
      rewrite Rmax_right by lra. ring.
    + rewrite Rmax_right by lra. ring.
Qed.

(** X7. Resolving a ball-brick collision separates the two: whatever side
    was reported, the ball as repositioned no longer collides with the
    brick. *)
Theorem resolveBallBrick_separates (ball : Ball.t) (brick : Brick.t)
  (collision : CollisionDetector.CircleRectInfo) :
  0 <= Ball.size ball -> 0 <= Brick.width brick -> 0 <= Brick.height brick ->
  CollisionDetector.checkBallBrick
    (CollisionDetector.resolveBallBrick ball brick (Some collision)) brick
  = None.
Proof.
  intros Hs Hw Hh. unfold CollisionDetector.checkBallBrick.
  destruct (negb (Brick.active brick)); [reflexivity |].
  destruct (CollisionDetector.checkCircleRect _ _) as [info |] eqn:E;
    [| reflexivity].
  exfalso.
  assert (Hex : exists i, CollisionDetector.checkCircleRect
                  {| Circle.x := Ball.x (CollisionDetector.resolveBallBrick
                                           ball brick (Some collision));
                     Circle.y := Ball.y (CollisionDetector.resolveBallBrick
                                           ball brick (Some collision));
                     Circle.radius :=
                       Ball.size (CollisionDetector.resolveBallBrick
                                    ball brick (Some collision)) / 2 |}
                  (Brick.getBounds brick) = Some i)
    by (exists info; exact E).
  apply checkCircleRect_detects in Hex. revert Hex. apply Rle_not_lt.
  assert (Hr : 0 <= Ball.size ball / 2) by lra.
  assert (Hxw : Brick.x brick <= Brick.x brick + Brick.width brick) by lra.
  assert (Hyh : Brick.y brick <= Brick.y brick + Brick.height brick) by lra.
  clear E.
  unfold CollisionDetector.closestX, CollisionDetector.closestY,
    CollisionDetector.resolveBallBrick.
  destruct (CollisionDetector.side collision); simpl; apply sqrt_ge;
    try exact Hr.
  - rewrite (clamp_gap (Brick.y brick) (Brick.y brick + Brick.height brick)
               _ (Ball.size ball / 2) Hr Hyh) by (left; reflexivity).
    match goal with
    | |- _ <= ?u * ?u + _ => pose proof (Rle_0_sqr u) as Hu; unfold Rsqr in Hu
    end. lra.
  - rewrite (clamp_gap (Brick.y brick) (Brick.y brick + Brick.height brick)
               _ (Ball.size ball / 2) Hr Hyh) by (right; reflexivity).
    match goal with
    | |- _ <= ?u * ?u + _ => pose proof (Rle_0_sqr u) as Hu; unfold Rsqr in Hu
    end. lra.
  - rewrite (clamp_gap (Brick.x brick) (Brick.x brick + Brick.width brick)
               _ (Ball.size ball / 2) Hr Hxw) by (left; reflexivity).
    match goal with
    | |- _ <= _ + ?u * ?u => pose proof (Rle_0_sqr u) as Hu; unfold Rsqr in Hu
    end. lra.
  - rewrite (clamp_gap (Brick.x brick) (Brick.x brick + Brick.width brick)
               _ (Ball.size ball / 2) Hr Hxw) by (right; reflexivity).
    match goal with
    | |- _ <= _ + ?u * ?u => pose proof (Rle_0_sqr u) as Hu; unfold Rsqr in Hu
    end. lra.
Qed.

Lemma resolveBallBrick_separates_witness :
  CollisionDetector.checkBallBrick
    (CollisionDetector.resolveBallBrick ballUnderBrick
       (Brick.new 192 60 Brick.single)
       (Some (CollisionDetector.mkInfo CollisionDetector.bottom 0 0 0)))
    (Brick.new 192 60 Brick.single)
  = None.
Proof.
  apply resolveBallBrick_separates; simpl; config; lra.
Defined.

(** ** The paddle bounce *)

Lemma ratio_le_half (s w : R) : 0 < w -> s <= w / 2 -> s / w <= 1 / 2.
Proof.
  intros Hw Hs. unfold Rdiv. apply Rmult_le_reg_r with w; [exact Hw |].
  rewrite Rmult_assoc, Rinv_l by lra. lra.
Qed.

(** X8. When [checkBallPaddle] reports a collision with a paddle of
    positive width, the hit position lies strictly between
    -(1 + size/width) and 1 + size/width: the ball's center can be at most
    half a ball beyond either end of the paddle. *)
Theorem checkBallPaddle_hitPosition_range (ball : Ball.t) (paddle : Paddle.t)
  (info : CollisionDetector.PaddleInfo) :
  CollisionDetector.checkBallPaddle ball paddle = Some info ->
  0 < Paddle.width paddle ->
  - (1 + Ball.size ball / Paddle.width paddle)
    < CollisionDetector.hitPosition info
    < 1 + Ball.size ball / Paddle.width paddle.
Proof.
  intros H Hw.
  destruct (checkBallPaddle_some ball paddle info H) as [_ [Hbox [Ehit _]]].
  apply checkAABB_true in Hbox. simpl in Hbox.
  destruct Hbox as [H1 [H2 _]].
  rewrite Ehit. unfold Paddle.getHitPosition.
  pose proof (Rinv_0_lt_compat _ Hw) as Hiw.
  set (d := Ball.x ball - Paddle.x paddle).
  assert (Hd1 : 0 < 2 * d + Ball.size ball) by (unfold d; lra).
  assert (Hd2 : 0 < 2 * Paddle.width paddle + Ball.size ball - 2 * d)
    by (unfold d; lra).
  pose proof (Rmult_lt_0_compat _ _ Hd1 Hiw) as P1.
  pose proof (Rmult_lt_0_compat _ _ Hd2 Hiw) as P2.
  assert (E1 : (d / Paddle.width paddle - 5 / 10) * 2 +
               (1 + Ball.size ball / Paddle.width paddle) =
               (2 * d + Ball.size ball) * / Paddle.width paddle)
    by (field; lra).
  assert (E2 : 1 + Ball.size ball / Paddle.width paddle -
               (d / Paddle.width paddle - 5 / 10) * 2 =
               (2 * Paddle.width paddle + Ball.size ball - 2 * d) *
               / Paddle.width paddle)
    by (field; lra).
  lra.
Qed.

Lemma checkBallPaddle_beside :
  exists info,
    CollisionDetector.checkBallPaddle ballBesidePaddle Paddle.new = Some info.
Proof.
  unfold CollisionDetector.checkBallPaddle.
  assert (E : CollisionDetector.checkAABB (Ball.getBounds ballBesidePaddle)
                (Paddle.getBounds Paddle.new) = true)
    by (apply checkAABB_true; simpl; config; lra).
  rewrite E. simpl negb. cbv iota.
  num_false (Num.leb (Ball.dy ballBesidePaddle) 0) ltac:(simpl; lra).
  eexists; reflexivity.
Qed.

Lemma checkBallPaddle_hitPosition_range_witness :
  exists info,
    CollisionDetector.checkBallPaddle ballBesidePaddle Paddle.new = Some info /\
    - (1 + Ball.size ballBesidePaddle / Paddle.width Paddle.new)
      < CollisionDetector.hitPosition info
      < 1 + Ball.size ballBesidePaddle / Paddle.width Paddle.new.
Proof.
  destruct checkBallPaddle_beside as [info H].
  exists info. split; [exact H |].
  apply (checkBallPaddle_hitPosition_range ballBesidePaddle Paddle.new info H).
  simpl; config; lra.
Defined.

(** X9. A paddle bounce always sends the ball upwards: for a ball no
    wider than half the paddle and of positive speed, the resolved ball
    has dy < 0, its velocity has the magnitude of the speed it had before
    the 1.02 increase, and it does not collide with the paddle again. *)
Theorem resolveBallPaddle_upwards (ball : Ball.t) (paddle : Paddle.t)
  (info : CollisionDetector.PaddleInfo) :
  CollisionDetector.checkBallPaddle ball paddle = Some info ->
  0 < Paddle.width paddle -> Ball.size ball <= Paddle.width paddle / 2 ->
  0 < Ball.speed ball ->
  let ball' := CollisionDetector.resolveBallPaddle ball paddle (Some info) in
  Ball.dy ball' < 0 /\
  Ball.dx ball' * Ball.dx ball' + Ball.dy ball' * Ball.dy ball' =
    Ball.speed ball * Ball.speed ball /\
  CollisionDetector.checkBallPaddle ball' paddle = None.
Proof.
  intros H Hw Hs Hv.
  pose proof (checkBallPaddle_hitPosition_range ball paddle info H Hw)
    as [Hlo Hhi].
  destruct (checkBallPaddle_some ball paddle info H) as [_ [_ [_ Eang]]].
  pose proof (ratio_le_half _ _ Hw Hs) as Hr.
  pose proof PI_RGT_0 as Hpi.
  assert (Hcos : 0 < cos (CollisionDetector.angle info)).
  { apply cos_gt_0; rewrite Eang.
    - assert (- (3 / 2) < CollisionDetector.hitPosition info) by lra. nra.
    - assert (CollisionDetector.hitPosition info < 3 / 2) by lra. nra. }
  assert (Hdy : Ball.dy (CollisionDetector.resolveBallPaddle ball paddle
                           (Some info)) < 0).
  { simpl. pose proof (Rmult_lt_0_compat _ _ Hcos Hv). lra. }
  cbv zeta. split; [exact Hdy |]. split.
  - simpl. pose proof (sin2_cos2 (CollisionDetector.angle info)) as S.
    unfold Rsqr in S.
    replace (sin (CollisionDetector.angle info) * Ball.speed ball *
             (sin (CollisionDetector.angle info) * Ball.speed ball) +
             - cos (CollisionDetector.angle info) * Ball.speed ball *
             (- cos (CollisionDetector.angle info) * Ball.speed ball))
      with ((sin (CollisionDetector.angle info) *
             sin (CollisionDetector.angle info) +
             cos (CollisionDetector.angle info) *
             cos (CollisionDetector.angle info)) *
            (Ball.speed ball * Ball.speed ball)) by ring.
    rewrite S. ring.
  - apply checkBallPaddle_none. left. lra.
Qed.

Lemma resolveBallPaddle_upwards_witness :
  exists info,
    Ball.dy (CollisionDetector.resolveBallPaddle ballBesidePaddle Paddle.new
               (Some info)) < 0.
Proof.
  destruct checkBallPaddle_beside as [info H]. exists info.
  apply (resolveBallPaddle_upwards ballBesidePaddle Paddle.new info H);
    simpl; config; lra.
Defined.

(** ** paddle.js *)

(** X10. [moveTo] centers the paddle on the pointer wherever the paddle
    then fits in the field, and otherwise parks it against the wall on the
    pointer's side. *)
Theorem Paddle_moveTo_centers (targetX : R) (p : Paddle.t) :
  Paddle.width p <= CONFIG.CANVAS_WIDTH ->
  (Paddle.width p / 2 <= targetX <= CONFIG.CANVAS_WIDTH - Paddle.width p / 2 ->
   Paddle.x (Paddle.moveTo targetX p) + Paddle.width p / 2 = targetX) /\
  (targetX <= Paddle.width p / 2 -> Paddle.x (Paddle.moveTo targetX p) = 0) /\
  (CONFIG.CANVAS_WIDTH - Paddle.width p / 2 <= targetX ->
   Paddle.x (Paddle.moveTo targetX p) = CONFIG.CANVAS_WIDTH - Paddle.width p)
  /\ Paddle.width (Paddle.moveTo targetX p) = Paddle.width p.
Proof.
  intros Hw. unfold Paddle.moveTo. simpl. unfold Rmax, Rmin.
  destruct (Rle_dec (CONFIG.CANVAS_WIDTH - Paddle.width p)
              (targetX - Paddle.width p / 2));
    destruct (Rle_dec 0 _); repeat split; intros; lra.
Qed.

Lemma Paddle_moveTo_centers_witness :
  Paddle.x (Paddle.moveTo 500 Paddle.new) + Paddle.width Paddle.new / 2 = 500.
Proof.
  assert (Hw : Paddle.width Paddle.new <= CONFIG.CANVAS_WIDTH)
    by (simpl; config; lra).
  destruct (Paddle_moveTo_centers 500 Paddle.new Hw) as [H _].
  apply H. simpl. config. lra.
Defined.

(** X11. The Extend power-up is undone by its timer: a paddle at base
    width within the field is exactly as before once the revert callback
    has run, and if the pointer moved it in between, it is back at base
    width and within the field. *)
Theorem Paddle_extend_revert (duration : R) (p : Paddle.t) :
  Paddle.width p = Paddle.baseWidth p -> paddleInField p ->
  Paddle.baseWidth p * (15 / 10) <= CONFIG.CANVAS_WIDTH ->
  Paddle.extendTimeout (Paddle.extend duration p) = p /\
  forall targetX,
    Paddle.width
      (Paddle.extendTimeout (Paddle.moveTo targetX (Paddle.extend duration p)))
      = Paddle.baseWidth p /\
    paddleInField
      (Paddle.extendTimeout (Paddle.moveTo targetX (Paddle.extend duration p))).
Proof.
  destruct p as [w h x y s bw hl lt]. unfold paddleInField. simpl.
  intros -> Hin Hbw. split.
  - unfold Paddle.extendTimeout, Paddle.extend. simpl.
    rewrite Rmin_left by lra. reflexivity.
  - intros targetX. split; [reflexivity |].
    unfold Paddle.extendTimeout, Paddle.moveTo, Paddle.extend. simpl.
    unfold Rmax, Rmin.
    repeat match goal with
           | |- context [Rle_dec ?u ?v] => destruct (Rle_dec u v)
           end; lra.
Qed.

Lemma Paddle_extend_revert_witness :
  Paddle.extendTimeout (Paddle.extend 10000 Paddle.new) = Paddle.new.
Proof.
  apply (Paddle_extend_revert 10000 Paddle.new eq_refl).
  - unfold paddleInField; simpl; config; lra.
  - simpl; config; lra.
Defined.

(** X12. The paddle laser lasts exactly its duration: after
    [enableLaser d], an [update] of [dt] milliseconds leaves the laser on
    if and only if dt < d; [update] never switches the laser on, and a
    laser still on has time left. *)
Theorem Paddle_laser_duration (d dt : R) (p : Paddle.t) :
  (Paddle.hasLaser (Paddle.update dt (Paddle.enableLaser d p)) = true
   <-> dt < d) /\
  (Paddle.hasLaser (Paddle.update dt p) = true ->
   Paddle.hasLaser p = true /\ 0 < Paddle.laserTimer (Paddle.update dt p)).
Proof.
  split.
  - unfold Paddle.update, Paddle.enableLaser. simpl.
    destruct (Num.leb (d - dt) 0) eqn:E; simpl; num_prop;
      split; intros H; try reflexivity; try discriminate; lra.
  - unfold Paddle.update. destruct (Paddle.hasLaser p) eqn:Hl.
    + simpl. destruct (Num.leb (Paddle.laserTimer p - dt) 0) eqn:E; simpl.
      * intros H; discriminate.
      * intros _. num_prop. split; [reflexivity | lra].
    + rewrite Hl. intros H; discriminate.
Qed.

(** ** brick.js *)

Lemma Brick_hit_indestructible (b : Brick.t) :
  Brick.indestructible (fst (Brick.hit b)) = Brick.indestructible b.
Proof.
  unfold Brick.hit, Brick.updateColor.
  destruct (Brick.indestructible b) eqn:Hi; simpl; [exact Hi |].
  rewrite Hi. simpl. destruct (_ <=? 0)%Z; simpl; exact Hi.
Qed.

Lemma hitTimes_state (k : nat) (b : Brick.t) :
  Brick.indestructible b = false -> Brick.active b = true ->
  (Z.of_nat k < Brick.hits b)%Z ->
  Brick.indestructible (hitTimes k b) = false /\
  Brick.active (hitTimes k b) = true /\
  Brick.hits (hitTimes k b) = (Brick.hits b - Z.of_nat k)%Z.
Proof.
  intros Hi Ha. induction k as [| k IH]; intros Hk.
  - simpl. repeat split; try assumption. lia.
  - destruct IH as [Ii [Ia Ih]]; [lia |].
    unfold hitTimes in *. simpl Nat.iter.
    rewrite Brick_hit_indestructible, (Brick_hit_hits _ Ii).
    destruct (Brick_hit_result _ Ii) as [_ Eact]. rewrite Eact, Ih, Ia.
    repeat split; [exact Ii | | lia].
    destruct (Z.leb_spec (Brick.hits b - Z.of_nat k - 1) 0);
      [lia | reflexivity].
Qed.

(** X13. A brick with n hits left takes exactly n hits to destroy: after
    k < n hits it is still active with n - k hits left, and the next hit
    destroys it if and only if it is the n-th. *)
Theorem Brick_destroyed_by_last_hit (k : nat) (b : Brick.t) :
  Brick.indestructible b = false -> Brick.active b = true ->
  (Z.of_nat k < Brick.hits b)%Z ->
  Brick.active (hitTimes k b) = true /\
  Brick.hits (hitTimes k b) = (Brick.hits b - Z.of_nat k)%Z /\
  (snd (Brick.hit (hitTimes k b)) = true <-> Z.of_nat (S k) = Brick.hits b) /\
  Brick.active (fst (Brick.hit (hitTimes k b))) =
    negb (snd (Brick.hit (hitTimes k b))).
Proof.
  intros Hi Ha Hk.
  destruct (hitTimes_state k b Hi Ha Hk) as [Ii [Ia Ih]].
  destruct (Brick_hit_result _ Ii) as [Es Eact].
  rewrite Es, Eact, Ih, Ia.
  repeat split; try assumption.
  - intros H. apply Z.leb_le in H. lia.
  - intros H. apply Z.leb_le. lia.
Qed.

(** A fresh three-hit brick after two hits: the third destroys it. *)
Lemma Brick_destroyed_by_last_hit_witness :
  Brick.active (hitTimes 2 (Brick.new 192 60 Brick.triple)) = true /\
  snd (Brick.hit (hitTimes 2 (Brick.new 192 60 Brick.triple))) = true.
Proof.
  destruct (Brick_destroyed_by_last_hit 2 (Brick.new 192 60 Brick.triple)
              eq_refl eq_refl) as [H1 [_ [H2 _]]].
  - simpl. lia.
  - split; [exact H1 | apply H2; reflexivity].
Defined.

(** ** enemy.js *)

(** Reduces the field accesses and field updates of an enemy. *)
Ltac enemy_simpl :=
  cbn [Enemy.x Enemy.y Enemy.width Enemy.height Enemy.speed Enemy.dx
       Enemy.dy Enemy.active Enemy.visible Enemy.appearTime
       Enemy.disappearTime Enemy.direction Enemy.animationFrame
       Enemy.animationTimer Enemy.set_pos Enemy.set_animation
       Enemy.appear Enemy.disappear fst snd].

(** X14. An enemy on patrol stays within the field: after [update], a
    visible enemy that is not due to disappear has 0 <= x and
    x + width <= CANVAS_WIDTH, moves as fast as before, and is still
    visible. *)
Theorem Enemy_update_in_field (dt now : R) (g : Rng.t) (e : Enemy.t) :
  Enemy.visible e = true -> Enemy.shouldDisappear now e = false ->
  Enemy.width e <= CONFIG.CANVAS_WIDTH ->
  0 <= Enemy.x (fst (Enemy.update dt now g e)) /\
  Enemy.x (fst (Enemy.update dt now g e)) + Enemy.width e
    <= CONFIG.CANVAS_WIDTH /\
  Rabs (Enemy.dx (fst (Enemy.update dt now g e))) = Rabs (Enemy.dx e) /\
  Enemy.visible (fst (Enemy.update dt now g e)) = true /\
  Enemy.active (fst (Enemy.update dt now g e)) = Enemy.active e.
Proof.
  intros Hv Hd Hw. unfold Enemy.update. rewrite Hv, Hd. simpl negb. cbv iota.
  destruct e as [x y w h s dx dy act vis apt dis dir fr tm].
  simpl in Hv, Hw. enemy_simpl.
  repeat (case_if; enemy_simpl); num_prop; config;
    rewrite ?Rabs_Ropp, ?Rabs_Rabsolu; repeat split; try assumption; lra.
Qed.

Lemma Enemy_update_in_field_witness :
  0 <= Enemy.x (fst (Enemy.update (1 / 60) 1000 tenthDraws patrollingEnemy)).
Proof.
  assert (Hd : Enemy.shouldDisappear 1000 patrollingEnemy = false).
  { unfold Enemy.shouldDisappear. simpl.
    destruct (Req_dec_T (0 + 15000 + 1 / 2 * 10000) 0); [reflexivity |].
    num_eval. reflexivity. }
  apply (Enemy_update_in_field (1 / 60) 1000 tenthDraws patrollingEnemy
           eq_refl Hd).
  simpl; config; lra.
Defined.

(** X15. A hidden enemy comes back exactly when APPEAR_DELAY (30 s) has
    passed since it was last made to appear or created; it then stays
    where it was and is due to disappear between 15 and 25 seconds
    later. *)
Theorem Enemy_reappears_after_delay (dt now : R) (g : Rng.t) (e : Enemy.t) :
  Enemy.visible e = false -> 0 <= Rng.draws g (Rng.pos g) < 1 ->
  (Enemy.visible (fst (Enemy.update dt now g e)) = true <->
   CONFIG.ENEMY.APPEAR_DELAY <= now - Enemy.appearTime e) /\
  (Enemy.visible (fst (Enemy.update dt now g e)) = true ->
   exists d, Enemy.disappearTime (fst (Enemy.update dt now g e)) = Some d /\
             now + 15000 <= d < now + 25000) /\
  Enemy.x (fst (Enemy.update dt now g e)) = Enemy.x e.
Proof.
  intros Hv Hr. unfold Enemy.update, Enemy.shouldAppear. rewrite Hv.
  simpl negb. cbv iota. simpl andb.
  destruct (Num.geb (now - Enemy.appearTime e) CONFIG.ENEMY.APPEAR_DELAY)
    eqn:E; num_prop; unfold Rng.random; enemy_simpl.
  - repeat split; try reflexivity; try lra.
    intros _. eexists; split; [reflexivity | lra].
  - rewrite Hv. repeat split; try discriminate; try reflexivity.
    intros H; exfalso; lra.
Qed.

Lemma Enemy_reappears_after_delay_witness :
  Enemy.visible (fst (Enemy.update (1 / 60) 30000 tenthDraws hiddenEnemy))
    = true.
Proof.
  assert (Hr : 0 <= Rng.draws tenthDraws (Rng.pos tenthDraws) < 1)
    by (simpl; lra).
  destruct (Enemy_reappears_after_delay (1 / 60) 30000 tenthDraws hiddenEnemy
              eq_refl Hr) as [[_ H] _].
  apply H. simpl. config. lra.
Defined.

(** X16. An enemy throws the ball upwards at an angle between 30 and 60
    degrees from the vertical: for draws in [0, 1), the new velocity has
    the magnitude of the ball's speed, and each of its components is at
    least half of it, the vertical one pointing up. *)
Theorem deflectBall_angle (ball : Ball.t) (g : Rng.t) (e : Enemy.t) :
  Enemy.visible e = true -> Ball.active ball = true ->
  0 <= Rng.draws g (Rng.pos g) < 1 -> 0 <= Ball.speed ball ->
  let ball' := fst (Enemy.deflectBall ball g e) in
  Ball.dy ball' <= - (Ball.speed ball / 2) /\
  Ball.speed ball / 2 <= Rabs (Ball.dx ball') /\
  Ball.dx ball' * Ball.dx ball' + Ball.dy ball' * Ball.dy ball' =
    Ball.speed ball * Ball.speed ball.
Proof.
  intros Hv Ha Hr Hs. unfold Enemy.deflectBall. rewrite Hv, Ha. simpl.
  set (a := (30 + Rng.draws g (Rng.pos g) * 30) * (PI / 180)).
  pose proof PI_RGT_0 as Hpi.
  assert (Ha1 : PI / 6 <= a) by (unfold a; nra).
  assert (Ha2 : a <= PI / 3) by (unfold a; nra).
  assert (Hsin : 1 / 2 <= sin a).
  { rewrite <- sin_PI6. apply sin_incr_1; lra. }
  assert (Hcos : 1 / 2 <= cos a).
  { rewrite <- cos_PI3. apply cos_decr_1; lra. }
  assert (Hc : 0 <= cos a * Ball.speed ball) by (apply Rmult_le_pos; lra).
  rewrite (Rabs_right (cos a * Ball.speed ball)) by lra.
  pose proof (sin2_cos2 a) as S. unfold Rsqr in S.
  assert (Hss : Ball.speed ball / 2 <= sin a * Ball.speed ball) by nra.
  assert (Hcs : Ball.speed ball / 2 <= cos a * Ball.speed ball) by nra.
  split; [lra |].
  destruct (Num.ltb _ (5 / 10)); split.
  - rewrite Rmult_1_r, Rabs_right; lra.
  - replace (sin a * Ball.speed ball * 1 * (sin a * Ball.speed ball * 1) +
             - (cos a * Ball.speed ball) * - (cos a * Ball.speed ball))
      with ((sin a * sin a + cos a * cos a) *
            (Ball.speed ball * Ball.speed ball)) by ring.
    rewrite S; ring.
  - replace (sin a * Ball.speed ball * -1) with (- (sin a * Ball.speed ball))
      by ring.
    rewrite Rabs_Ropp, Rabs_right; lra.
  - replace (sin a * Ball.speed ball * -1 * (sin a * Ball.speed ball * -1) +
             - (cos a * Ball.speed ball) * - (cos a * Ball.speed ball))
      with ((sin a * sin a + cos a * cos a) *
            (Ball.speed ball * Ball.speed ball)) by ring.
    rewrite S; ring.
Qed.

Lemma deflectBall_angle_witness :
  Ball.dy (fst (Enemy.deflectBall ballOnEnemy tenthDraws patrollingEnemy))
    <= - (Ball.speed ballOnEnemy / 2).
Proof.
  apply (deflectBall_angle ballOnEnemy tenthDraws patrollingEnemy
           eq_refl eq_refl); simpl; lra.
Defined.

(** ** The Multiball power-up *)

(** X17. Catching a Multiball capsule while a ball exists adds exactly two
    balls at the first ball's position, both in flight at base speed, one
    30 degrees to the left of straight up and one 30 degrees to the
    right. *)
Theorem activatePowerUp_multiball (powerUp : PowerUp.t) (g : Game.t)
  (main : Ball.t) (rest : list Ball.t) :
  PowerUp.type powerUp = Some MULTIBALL -> Game.balls g = main :: rest ->
  exists l r,
    Game.balls (snd (Game.activatePowerUp powerUp g)) = Game.balls g ++ [l; r]
    /\ Ball.x l = Ball.x main /\ Ball.y l = Ball.y main
    /\ Ball.x r = Ball.x main /\ Ball.y r = Ball.y main
    /\ Ball.state l = LAUNCHED /\ Ball.state r = LAUNCHED
    /\ Ball.active l = true /\ Ball.active r = true
    /\ Ball.dx l = -200 /\ Ball.dx r = 200
    /\ Ball.dy l = Ball.dy r /\ Ball.dy l < 0.
Proof.
  intros Hty Hb. unfold Game.activatePowerUp. simpl. rewrite Hty.
  unfold Game.spawnExtraBalls. simpl. rewrite Hb.
  eexists; eexists. split; [reflexivity |]. simpl.
  replace (- PI / 6) with (- (PI / 6)) by field.
  rewrite sin_neg, cos_neg, sin_PI6, cos_PI6. config.
  pose proof (sqrt_lt_R0 3). repeat split; lra.
Qed.

Lemma activatePowerUp_multiball_witness :
  exists l r,
    Game.balls (snd (Game.activatePowerUp multiballCapsule gameOneBrick)) =
    Game.balls gameOneBrick ++ [l; r].
Proof.
  destruct (activatePowerUp_multiball multiballCapsule gameOneBrick
              ballUnderBrick [] eq_refl eq_refl) as [l [r [H _]]].
  exists l, r. exact H.
Defined.

(** ** levels.js *)

(** X18. The level is complete exactly when no destructible brick is left
    active, which is when [getRemainingBricks] counts 0; a level made of
    indestructible bricks only is complete at once. *)
Theorem isLevelComplete_no_remaining (bricks : list Brick.t) :
  (LevelManager.isLevelComplete bricks = true <->
   Levels.getRemainingBricks bricks = 0%nat) /\
  (Forall (fun brick => Brick.indestructible brick = true) bricks ->
   LevelManager.isLevelComplete bricks = true).
Proof.
  unfold LevelManager.isLevelComplete, Levels.getRemainingBricks.
  split.
  - induction bricks as [| b rest IH]; simpl; [tauto |].
    destruct (Brick.active b); destruct (Brick.indestructible b); simpl;
      try exact IH; split; intros H; discriminate.
  - intros H. apply forallb_forall. intros b Hb.
    rewrite Forall_forall in H. rewrite (H b Hb). apply orb_true_r.
Qed.

Lemma Brick_new_fresh (x y : R) (ty : Brick.kind) :
  Levels.OFFSET_X <= x -> Levels.OFFSET_Y <= y -> freshBrick (Brick.new x y ty).
Proof.
  intros Hx Hy. unfold freshBrick.
  destruct ty; simpl; repeat split; try assumption; try reflexivity;
    first [ left; split; reflexivity
          | right; repeat split; try reflexivity; lia ].
Qed.

Lemma parseRow_fresh (rowIndex : nat) (row : String.string) :
  forall colIndex, Forall freshBrick (Levels.parseRow rowIndex colIndex row).
Proof.
  induction row as [| char rest IH]; intros colIndex; simpl; [constructor |].
  destruct (Ascii.eqb char _); [apply IH |].
  constructor; [| apply IH].
  apply Brick_new_fresh.
  - pose proof (pos_INR colIndex). unfold Levels.PADDING. config. nra.
  - pose proof (pos_INR rowIndex). unfold Levels.PADDING. config. nra.
Qed.

Lemma parseRows_fresh (rows : list String.string) :
  forall rowIndex, Forall freshBrick (Levels.parseRows rowIndex rows).
Proof.
  induction rows as [| row rest IH]; intros rowIndex; simpl; [constructor |].
  apply Forall_app. split; [apply parseRow_fresh | apply IH].
Qed.

Lemma parseRow_length (rowIndex : nat) (row : String.string) :
  forall colIndex,
    length (Levels.parseRow rowIndex colIndex row) = Levels.cells row.
Proof.
  induction row as [| char rest IH]; intros colIndex; simpl; [reflexivity |].
  destruct (Ascii.eqb char _); simpl; rewrite IH; reflexivity.
Qed.

Lemma loadLevel_incomplete_below (k : nat) :
  (k < Levels.totalLevels)%nat ->
  LevelManager.isLevelComplete (Levels.loadLevel k) = false.
Proof.
  intros Hk.
  do 10 (destruct k as [| k]; [vm_compute; reflexivity |]).
  exfalso. unfold Levels.totalLevels in Hk. simpl in Hk. lia.
Qed.

(** X19. Whatever the level index, [loadLevel] yields bricks that are all
    active, of the configured size, at or beyond the grid origin, with all
    their hits left and a score of 10 per hit (0 for the indestructible
    ones); at least one of them is destructible, so no level is complete
    when it is loaded; and the index wraps around the ten patterns. *)
Theorem loadLevel_fresh (levelIndex : nat) :
  Forall freshBrick (Levels.loadLevel levelIndex) /\
  LevelManager.isLevelComplete (Levels.loadLevel levelIndex) = false /\
  Levels.loadLevel (levelIndex + Levels.totalLevels) =
    Levels.loadLevel levelIndex.
Proof.
  split; [| split].
  - unfold Levels.loadLevel.
    destruct (nth_error Levels.LEVEL_PATTERNS _); [| constructor].
    apply parseRows_fresh.
  - assert (E : Levels.loadLevel levelIndex =
                Levels.loadLevel (levelIndex mod Levels.totalLevels)).
    { unfold Levels.loadLevel. rewrite Nat.Div0.mod_mod. reflexivity. }
    rewrite E. apply loadLevel_incomplete_below.
    apply Nat.mod_upper_bound. discriminate.
  - unfold Levels.loadLevel.
    replace ((levelIndex + Levels.totalLevels) mod Levels.totalLevels)%nat
      with (levelIndex mod Levels.totalLevels)%nat; [reflexivity |].
    rewrite <- (Nat.mul_1_l Levels.totalLevels) at 2.
    rewrite Nat.Div0.mod_add. reflexivity.
Qed.

Lemma ForallOrdPairs_app {A : Type} (R : A -> A -> Prop) (l1 l2 : list A) :
  ForallOrdPairs R l1 -> ForallOrdPairs R l2 ->
  (forall a b, In a l1 -> In b l2 -> R a b) ->
  ForallOrdPairs R (l1 ++ l2).
Proof.
  intros H1 H2 H12. induction H1 as [| a l Ha Hl IH]; simpl; [exact H2 |].
  constructor.
  - apply Forall_app. split; [exact Ha |].
    apply Forall_forall. intros b Hb. apply H12; [left; reflexivity | exact Hb].
  - apply IH. intros x y Hx Hy. apply H12; [right; exact Hx | exact Hy].
Qed.

Lemma apart_right (a b : Brick.t) :
  Brick.x a + Brick.width a <= Brick.x b -> apart a b.
Proof.
  intros H. unfold apart.
  destruct (CollisionDetector.checkAABB _ _) eqn:E; [| reflexivity].
  apply checkAABB_true in E. simpl in E. lra.
Qed.

Lemma apart_below (a b : Brick.t) :
  Brick.y a + Brick.height a <= Brick.y b -> apart a b.
Proof.
  intros H. unfold apart.
  destruct (CollisionDetector.checkAABB _ _) eqn:E; [| reflexivity].
  apply checkAABB_true in E. simpl in E. lra.
Qed.

Lemma parseRow_cells (rowIndex : nat) (row : String.string) :
  forall colIndex,
    Forall (inRowFrom rowIndex colIndex)
      (Levels.parseRow rowIndex colIndex row) /\
    ForallOrdPairs apart (Levels.parseRow rowIndex colIndex row).
Proof.
  induction row as [| char rest IH]; intros colIndex; simpl.
  - split; constructor.
  - destruct (IH (S colIndex)) as [Hin Hap].
    assert (Hstep : cellX colIndex + CONFIG.BRICK.WIDTH + Levels.PADDING
                    = cellX (S colIndex)).
    { unfold cellX. rewrite S_INR. ring. }
    assert (Hweak : Forall (inRowFrom rowIndex colIndex)
                      (Levels.parseRow rowIndex (S colIndex) rest)).
    { eapply Forall_impl; [| exact Hin].
      intros b [H1 [H2 [H3 H4]]]. unfold inRowFrom. repeat split; try assumption.
      unfold Levels.PADDING in Hstep. config. lra. }
    destruct (Ascii.eqb char _); [split; assumption |].
    split.
    + constructor; [| exact Hweak].
      unfold inRowFrom, cellX, cellY.
      destruct (Levels.brickType char); simpl; repeat split; lra.
    + constructor; [| exact Hap].
      eapply Forall_impl; [| exact Hin].
      intros b [H1 [H2 _]]. apply apart_right.
      replace (Brick.x (Brick.new _ _ (Levels.brickType char)))
        with (cellX colIndex)
        by (destruct (Levels.brickType char); reflexivity).
      replace (Brick.width (Brick.new _ _ (Levels.brickType char)))
        with CONFIG.BRICK.WIDTH
        by (destruct (Levels.brickType char); reflexivity).
      unfold Levels.PADDING in Hstep. lra.
Qed.

Lemma parseRows_cells (rows : list String.string) :
  forall rowIndex,
    Forall (inRowsFrom rowIndex) (Levels.parseRows rowIndex rows) /\
    ForallOrdPairs apart (Levels.parseRows rowIndex rows).
Proof.
  induction rows as [| row rest IH]; intros rowIndex; simpl.
  - split; constructor.
  - destruct (IH (S rowIndex)) as [Hin Hap].
    destruct (parseRow_cells rowIndex row 0) as [Rin Rap].
    assert (Hstep : cellY rowIndex + CONFIG.BRICK.HEIGHT + Levels.PADDING
                    = cellY (S rowIndex)).
    { unfold cellY. rewrite S_INR. ring. }
    unfold Levels.PADDING in Hstep.
    split.
    + apply Forall_app. split.
      * eapply Forall_impl; [| exact Rin].
        intros b [H1 [_ [H3 H4]]]. unfold inRowsFrom.
        repeat split; try assumption. lra.
      * eapply Forall_impl; [| exact Hin].
        intros b [H1 [H3 H4]]. unfold inRowsFrom.
        repeat split; try assumption. config. lra.
    + apply ForallOrdPairs_app; [exact Rap | exact Hap |].
      intros a b Ha Hb.
      rewrite Forall_forall in Rin, Hin.
      destruct (Rin a Ha) as [A1 [_ [_ A4]]].
      destruct (Hin b Hb) as [B1 _].
      apply apart_below. lra.
Qed.

(** X20. The bricks of a loaded level never overlap one another: any two
    of them sit in different cells of the grid, 4 pixels apart at
    least. *)
Theorem loadLevel_bricks_apart (levelIndex : nat) :
  ForallOrdPairs apart (Levels.loadLevel levelIndex).
Proof.
  unfold Levels.loadLevel.
  destruct (nth_error Levels.LEVEL_PATTERNS _); [| constructor].
  apply parseRows_cells.
Qed.

(** ** What a collision pass keeps *)

Lemma brickKept_refl (b : Brick.t) : brickKept b b.
Proof. unfold brickKept. repeat split; try reflexivity; try lia; auto. Qed.

Lemma brickKept_trans (a b c : Brick.t) :
  brickKept a b -> brickKept b c -> brickKept a c.
Proof.
  unfold brickKept. intros [A1 [A2 [A3 [A4 [A5 [A6 [A7 A8]]]]]]]
    [B1 [B2 [B3 [B4 [B5 [B6 [B7 B8]]]]]]].
  repeat split; try congruence; try lia; auto.
Qed.

Lemma Forall2_brickKept_refl (l : list Brick.t) : Forall2 brickKept l l.
Proof. induction l; constructor; [apply brickKept_refl | assumption]. Qed.

Lemma Forall2_brickKept_trans (l1 l2 l3 : list Brick.t) :
  Forall2 brickKept l1 l2 -> Forall2 brickKept l2 l3 -> Forall2 brickKept l1 l3.
Proof.
  intros H12. revert l3. induction H12 as [| a b l1 l2 Hab _ IH]; intros l3 H23.
  - inversion H23; constructor.
  - inversion H23 as [| b' c l2' l3' Hbc Hrest]; subst.
    constructor; [eapply brickKept_trans; eassumption | apply IH, Hrest].
Qed.

Lemma Brick_hit_kept (b : Brick.t) : brickKept b (fst (Brick.hit b)).
Proof.
  unfold brickKept, Brick.hit, Brick.updateColor.
  destruct (Brick.indestructible b) eqn:Hi; simpl.
  - repeat split; try reflexivity; try exact Hi; try lia; auto.
  - rewrite Hi. simpl. destruct (_ <=? 0)%Z; simpl;
      repeat split; try reflexivity; try exact Hi; try lia; auto;
      intros H; discriminate.
Qed.

Lemma store_kept (i : nat) (b b' : Brick.t) :
  forall bricks,
    nth_error bricks i = Some b -> brickKept b b' ->
    Forall2 brickKept bricks (LevelManager.store i b' bricks).
Proof.
  induction i as [| i IH]; intros bricks Hn Hk;
    destruct bricks as [| c rest]; simpl in *; try discriminate.
  - injection Hn as ->. constructor; [exact Hk | apply Forall2_brickKept_refl].
  - constructor; [apply brickKept_refl | apply IH; assumption].
Qed.

Lemma Forall2_brickKept_scores (l l' : list Brick.t) :
  Forall2 brickKept l l' ->
  Forall (fun b => (0 <= Brick.score b)%Z) l ->
  Forall (fun b => (0 <= Brick.score b)%Z) l'.
Proof.
  induction 1 as [| a b l l' Hab _ IH]; intros H; [constructor |].
  inversion H; subst. constructor; [| apply IH; assumption].
  destruct Hab as [_ [_ [_ [_ [Hs _]]]]]. lia.
Qed.

Lemma bricksKept_refl (g : Game.t) : bricksKept g g.
Proof. split; [apply Forall2_brickKept_refl | intros _; lia]. Qed.

Lemma bricksKept_trans (g1 g2 g3 : Game.t) :
  bricksKept g1 g2 -> bricksKept g2 g3 -> bricksKept g1 g3.
Proof.
  intros [B12 S12] [B23 S23]. split.
  - eapply Forall2_brickKept_trans; eassumption.
  - intros H. specialize (S12 H).
    specialize (S23 (Forall2_brickKept_scores _ _ B12 H)). lia.
Qed.

Lemma bricksKept_same (g g' : Game.t) :
  Game.bricks g' = Game.bricks g -> (Game.score g <= Game.score g')%Z ->
  bricksKept g g'.
Proof.
  intros Hb Hs. split; [rewrite Hb; apply Forall2_brickKept_refl | auto].
Qed.

Lemma onBrickCollision_kept (i : nat) (brick : Brick.t)
  (c : CollisionDetector.CircleRectInfo) (ball : Ball.t) (g : Game.t) :
  nth_error (Game.bricks g) i = Some brick ->
  bricksKept g (snd (Game.onBrickCollision i brick c ball g)).
Proof.
  intros Hn. split.
  - rewrite onBrickCollision_bricks.
    apply store_kept with (b := brick); [exact Hn | apply Brick_hit_kept].
  - intros Hs. destruct (onBrickCollision_score i brick c ball g) as [E _].
    rewrite E. destruct (snd (Brick.hit brick)); [| lia].
    rewrite Forall_forall in Hs.
    pose proof (Hs brick (nth_error_In _ _ Hn)) as H0.
    destruct (Brick_hit_kept brick) as [_ [_ [_ [_ [Es _]]]]]. lia.
Qed.

Lemma brickLoop_kept (act : list nat) (ball : Ball.t) :
  forall g, bricksKept g (snd (Game.brickLoop act ball g)).
Proof.
  induction act as [| i act IH]; intros g; simpl; [apply bricksKept_refl |].
  destruct (nth_error (Game.bricks g) i) as [brick |] eqn:Hn; [| apply IH].
  destruct (CollisionDetector.checkBallBrick ball brick) as [c |];
    [apply onBrickCollision_kept, Hn | apply IH].
Qed.

Lemma paddleStep_fields (ball : Ball.t) (g : Game.t) :
  Game.bricks (snd (Game.paddleStep ball g)) = Game.bricks g /\
  Game.score (snd (Game.paddleStep ball g)) = Game.score g /\
  ballPassFrame g (snd (Game.paddleStep ball g)).
Proof.
  unfold Game.paddleStep, ballPassFrame.
  destruct (CollisionDetector.checkBallPaddle ball (Game.paddle g));
    simpl; repeat split; reflexivity.
Qed.

Lemma enemyLoop_fields (es : list Enemy.t) :
  forall ball g,
    Game.bricks (snd (Game.enemyLoop es ball g)) = Game.bricks g /\
    Game.score (snd (Game.enemyLoop es ball g)) = Game.score g /\
    ballPassFrame g (snd (Game.enemyLoop es ball g)).
Proof.
  unfold ballPassFrame.
  induction es as [| e es IH]; intros ball g; simpl;
    [repeat split; reflexivity |].
  destruct (CollisionDetector.checkBallEnemy ball e); [| apply IH].
  destruct (Enemy.deflectBall ball (Game.rng g) e) as [ball' s].
  match goal with
  | |- context [Game.enemyLoop es ball' ?h] => specialize (IH ball' h)
  end.
  simpl in IH. exact IH.
Qed.

Lemma ballPassFrame_refl (g : Game.t) : ballPassFrame g g.
Proof. unfold ballPassFrame. repeat split; reflexivity. Qed.

Lemma ballPassFrame_trans (g1 g2 g3 : Game.t) :
  ballPassFrame g1 g2 -> ballPassFrame g2 g3 -> ballPassFrame g1 g3.
Proof.
  unfold ballPassFrame.
  intros [A1 [A2 [A3 [A4 [A5 [A6 A7]]]]]] [B1 [B2 [B3 [B4 [B5 [B6 B7]]]]]].
  repeat split; congruence.
Qed.

Lemma onBrickCollision_frame (i : nat) (brick : Brick.t)
  (c : CollisionDetector.CircleRectInfo) (ball : Ball.t) (g : Game.t) :
  ballPassFrame g (snd (Game.onBrickCollision i brick c ball g)).
Proof.
  pose proof (onBrickCollision_powerUps i brick c ball g) as Hp.
  unfold ballPassFrame. revert Hp. unfold Game.onBrickCollision.
  destruct (Brick.hit brick) as [brick' destroyed]. simpl.
  destruct destroyed; [| intros _; repeat split; reflexivity].
  unfold Game.random, Rng.random. simpl.
  destruct (Brick.canDropPowerUp brick'); simpl;
    [| intros _; repeat split; reflexivity].
  destruct (Num.ltb _ _); intros Hp; simpl in *;
    repeat split; try reflexivity; exact Hp.
Qed.

Lemma brickLoop_frame (act : list nat) (ball : Ball.t) :
  forall g, ballPassFrame g (snd (Game.brickLoop act ball g)).
Proof.
  induction act as [| i act IH]; intros g; simpl; [apply ballPassFrame_refl |].
  destruct (nth_error (Game.bricks g) i) as [brick |]; [| apply IH].
  destruct (CollisionDetector.checkBallBrick ball brick) as [c |];
    [apply onBrickCollision_frame | apply IH].
Qed.

Lemma collideBall_kept (act : list nat) (ball : Ball.t) (g : Game.t) :
  bricksKept g (snd (Game.collideBall act ball g)) /\
  ballPassFrame g (snd (Game.collideBall act ball g)).
Proof.
  unfold Game.collideBall.
  destruct (negb _); [split; [apply bricksKept_refl | apply ballPassFrame_refl] |].
  pose proof (brickLoop_kept act ball g) as K1.
  pose proof (brickLoop_frame act ball g) as F1.
  destruct (Game.brickLoop act ball g) as [ball1 g1]. simpl in K1, F1.
  destruct (paddleStep_fields ball1 g1) as [B2 [S2 F2]].
  destruct (Game.paddleStep ball1 g1) as [ball2 g2]. simpl in B2, S2, F2.
  destruct (enemyLoop_fields (Game.enemies g2) ball2 g2) as [B3 [S3 F3]].
  split.
  - eapply bricksKept_trans; [exact K1 |].
    apply bricksKept_same; [congruence | lia].
  - eapply ballPassFrame_trans; [exact F1 |].
    eapply ballPassFrame_trans; [exact F2 | exact F3].
Qed.

Lemma ballLoop_kept (act : list nat) (bs : list Ball.t) :
  forall g,
    bricksKept g (snd (Game.ballLoop act bs g)) /\
    ballPassFrame g (snd (Game.ballLoop act bs g)).
Proof.
  induction bs as [| ball bs IH]; intros g; simpl;
    [split; [apply bricksKept_refl | apply ballPassFrame_refl] |].
  destruct (collideBall_kept act ball g) as [K1 F1].
  destruct (Game.collideBall act ball g) as [ball1 g1]. simpl in K1, F1.
  destruct (IH g1) as [K2 F2].
  destruct (Game.ballLoop act bs g1) as [rest g2]. simpl in *.
  split; [eapply bricksKept_trans | eapply ballPassFrame_trans]; eassumption.
Qed.

Lemma ballKept_refl (b : Ball.t) : ballKept b b.
Proof.
  unfold ballKept, speedInRange. repeat split; try reflexivity; tauto.
Qed.

Lemma ballKept_trans (a b c : Ball.t) :
  ballKept a b -> ballKept b c -> ballKept a c.
Proof.
  unfold ballKept. intros [A1 [A2 [A3 A4]]] [B1 [B2 [B3 B4]]].
  split; [congruence |]. split; [congruence |]. split; [congruence | auto].
Qed.

Lemma onBrickCollision_ball (i : nat) (brick : Brick.t)
  (c : CollisionDetector.CircleRectInfo) (ball : Ball.t) (g : Game.t) :
  ballKept ball (fst (Game.onBrickCollision i brick c ball g)).
Proof.
  unfold Game.onBrickCollision.
  assert (R : ballKept ball
                (CollisionDetector.resolveBallBrick ball brick (Some c))).
  { unfold ballKept, speedInRange. simpl.
    destruct (CollisionDetector.side c); simpl;
      repeat split; try reflexivity; tauto. }
  assert (I : forall b, ballKept b (Ball.increaseSpeed (105 / 100) b)).
  { intros b. unfold ballKept, speedInRange. simpl.
    repeat split; try reflexivity; destruct H as [H1 H2].
    - apply Rmin_glb; config; lra.
    - apply Rmin_r. }
  destruct (Brick.hit brick) as [brick' destroyed]. simpl.
  destruct destroyed; [| exact R].
  unfold Game.random, Rng.random. simpl.
  destruct (Brick.canDropPowerUp brick'); simpl.
  - destruct (Num.ltb _ _); simpl; destruct (_ =? 0)%Z; simpl;
      try exact R; (eapply ballKept_trans; [exact R | apply I]).
  - destruct (_ =? 0)%Z; simpl;
      try exact R; (eapply ballKept_trans; [exact R | apply I]).
Qed.

Lemma brickLoop_ball (act : list nat) (ball : Ball.t) :
  forall g, ballKept ball (fst (Game.brickLoop act ball g)).
Proof.
  induction act as [| i act IH]; intros g; simpl; [apply ballKept_refl |].
  destruct (nth_error (Game.bricks g) i) as [brick |]; [| apply IH].
  destruct (CollisionDetector.checkBallBrick ball brick) as [c |];
    [apply onBrickCollision_ball | apply IH].
Qed.

Lemma paddleStep_ball (ball : Ball.t) (g : Game.t) :
  ballKept ball (fst (Game.paddleStep ball g)).
Proof.
  unfold Game.paddleStep.
  destruct (CollisionDetector.checkBallPaddle ball (Game.paddle g));
    [| apply ballKept_refl].
  unfold ballKept, speedInRange. simpl. repeat split; try reflexivity;
    destruct H as [H1 H2].
  - apply Rmin_glb; config; lra.
  - apply Rmin_r.
Qed.

Lemma deflectBall_ball (e : Enemy.t) (s : Rng.t) (ball : Ball.t) :
  ballKept ball (fst (Enemy.deflectBall ball s e)).
Proof.
  unfold Enemy.deflectBall.
  destruct (negb (Enemy.visible e) || negb (Ball.active ball));
    [apply ballKept_refl |].
  unfold ballKept, speedInRange. simpl.
  repeat split; try reflexivity; tauto.
Qed.

Lemma enemyLoop_ball (es : list Enemy.t) :
  forall ball g, ballKept ball (fst (Game.enemyLoop es ball g)).
Proof.
  induction es as [| e es IH]; intros ball g; simpl; [apply ballKept_refl |].
  destruct (CollisionDetector.checkBallEnemy ball e); [| apply IH].
  pose proof (deflectBall_ball e (Game.rng g) ball) as D.
  destruct (Enemy.deflectBall ball (Game.rng g) e) as [ball' s]. simpl in D.
  eapply ballKept_trans; [exact D | apply IH].
Qed.

Lemma collideBall_ball (act : list nat) (ball : Ball.t) (g : Game.t) :
  ballKept ball (fst (Game.collideBall act ball g)).
Proof.
  unfold Game.collideBall. destruct (negb _); [apply ballKept_refl |].
  pose proof (brickLoop_ball act ball g) as K1.
  destruct (Game.brickLoop act ball g) as [ball1 g1]. simpl in K1.
  pose proof (paddleStep_ball ball1 g1) as K2.
  destruct (Game.paddleStep ball1 g1) as [ball2 g2]. simpl in K2.
  eapply ballKept_trans; [exact K1 |].
  eapply ballKept_trans; [exact K2 | apply enemyLoop_ball].
Qed.

Lemma ballLoop_balls (act : list nat) (bs : list Ball.t) :
  forall g, Forall2 ballKept bs (fst (Game.ballLoop act bs g)).
Proof.
  induction bs as [| ball bs IH]; intros g; simpl; [constructor |].
  pose proof (collideBall_ball act ball g) as K1.
  destruct (Game.collideBall act ball g) as [ball1 g1]. simpl in K1.
  specialize (IH g1).
  destruct (Game.ballLoop act bs g1) as [rest g2]. simpl in *.
  constructor; assumption.
Qed.

Lemma Forall2_ballKept_range (bs bs' : list Ball.t) :
  Forall2 ballKept bs bs' -> Forall speedInRange bs -> Forall speedInRange bs'.
Proof.
  induction 1 as [| a b l l' Hab _ IH]; intros H; [constructor |].
  inversion H; subst. constructor; [| apply IH; assumption].
  destruct Hab as [_ [_ [_ Hr]]]. auto.
Qed.

Lemma slowBall_range (b : Ball.t) : speedInRange b -> speedInRange (Game.slowBall b).
Proof.
  unfold speedInRange, Game.slowBall. simpl. intros [H1 H2]. split.
  - apply Rmax_l.
  - apply Rmax_lub; config; lra.
Qed.

Lemma spawnExtraBalls_fields (g : Game.t) :
  let g' := Game.spawnExtraBalls g in
  Game.bricks g' = Game.bricks g /\ Game.score g' = Game.score g /\
  Game.enemies g' = Game.enemies g /\ Game.lasers g' = Game.lasers g /\
  Game.powerUps g' = Game.powerUps g /\
  (Forall speedInRange (Game.balls g) -> Forall speedInRange (Game.balls g'))
  /\ (length (Game.balls g) <= length (Game.balls g'))%nat.
Proof.
  unfold Game.spawnExtraBalls.
  destruct (Game.balls g) as [| main rest] eqn:E; simpl.
  - rewrite ?E. repeat split; auto.
  - rewrite ?E. repeat split; try reflexivity.
    + intros H. apply (Forall_app speedInRange (main :: rest)).
      split; [exact H |].
      repeat constructor; simpl; config; lra.
    + rewrite length_app. simpl. lia.
Qed.

(** What catching a capsule leaves alone, and what it does to the
    balls. *)
Lemma activatePowerUp_fields (powerUp : PowerUp.t) (g : Game.t) :
  let g' := snd (Game.activatePowerUp powerUp g) in
  Game.bricks g' = Game.bricks g /\ Game.score g' = Game.score g /\
  Game.enemies g' = Game.enemies g /\ Game.lasers g' = Game.lasers g /\
  Game.powerUps g' = Game.powerUps g /\
  (Forall speedInRange (Game.balls g) -> Forall speedInRange (Game.balls g'))
  /\ (length (Game.balls g) <= length (Game.balls g'))%nat.
Proof.
  unfold Game.activatePowerUp. simpl.
  destruct (PowerUp.type powerUp) as [[| | |] |]; simpl.
  - repeat split; auto.
  - repeat split; auto.
    + intros H. induction H; simpl; constructor;
        [apply slowBall_range; assumption | assumption].
    + rewrite length_map. lia.
  - exact (spawnExtraBalls_fields (Game.play Sound.POWERUP 1 g)).
  - repeat split; auto.
  - repeat split; auto.
Qed.

Lemma powerUpLoop_fields (ps : list PowerUp.t) :
  forall g,
    let g' := snd (Game.powerUpLoop ps g) in
    Game.bricks g' = Game.bricks g /\ Game.score g' = Game.score g /\
    Game.enemies g' = Game.enemies g /\ Game.lasers g' = Game.lasers g /\
    (Forall speedInRange (Game.balls g) ->
     Forall speedInRange (Game.balls g')) /\
    (length (Game.balls g) <= length (Game.balls g'))%nat.
Proof.
  induction ps as [| p ps IH]; intros g; simpl;
    [repeat split; auto |].
  destruct (activatePowerUp_fields p g) as [A1 [A2 [A3 [A4 [_ [A5 A6]]]]]].
  destruct (_ && _).
  - destruct (Game.activatePowerUp p g) as [p1 g1]. simpl in *.
    destruct (IH g1) as [B1 [B2 [B3 [B4 [B5 B6]]]]].
    destruct (Game.powerUpLoop ps g1) as [rest g2]. simpl in *.
    repeat split; try congruence; auto. lia.
  - specialize (IH g).
    destruct (Game.powerUpLoop ps g) as [rest g2]. simpl in *. exact IH.
Qed.

Lemma laserEnemyLoop_fields (es : list Enemy.t) :
  forall laser g,
    let r := Game.laserEnemyLoop es laser g in
    Game.bricks (snd r) = Game.bricks g /\
    (Game.score g <= Game.score (snd r))%Z /\
    Game.balls (snd r) = Game.balls g /\
    Forall2 enemyKept es (fst (fst r)).
Proof.
  induction es as [| e es IH]; intros laser g; simpl.
  - repeat split; [lia | constructor].
  - destruct (_ && _).
    + match goal with
      | |- context [Game.laserEnemyLoop es ?l ?h] =>
          specialize (IH l h);
          destruct (Game.laserEnemyLoop es l h) as [[rest l'] g']
      end.
      simpl in *. destruct IH as [B1 [B2 [B3 B4]]].
      repeat split; try assumption; [lia |].
      constructor; [right; reflexivity | exact B4].
    + specialize (IH laser g).
      destruct (Game.laserEnemyLoop es laser g) as [[rest l'] g'].
      simpl in *. destruct IH as [B1 [B2 [B3 B4]]].
      repeat split; try assumption.
      constructor; [left; reflexivity | exact B4].
Qed.

Lemma enemyKept_refl (es : list Enemy.t) : Forall2 enemyKept es es.
Proof. induction es; constructor; [left; reflexivity | assumption]. Qed.

Lemma laserLoop_fields (ls : list Laser.t) :
  forall es g,
    let r := Game.laserLoop ls es g in
    Game.bricks (snd r) = Game.bricks g /\
    (Game.score g <= Game.score (snd r))%Z /\
    Game.balls (snd r) = Game.balls g /\
    length (fst (fst r)) = length ls /\
    length (snd (fst r)) = length es /\
    (ls = [] -> snd (fst r) = es /\ Game.score (snd r) = Game.score g).
Proof.
  induction ls as [| l ls IH]; intros es g; simpl.
  - repeat split; auto; lia.
  - destruct (laserEnemyLoop_fields es l g) as [A1 [A2 [A3 A4]]].
    destruct (Game.laserEnemyLoop es l g) as [[es1 l1] g1]. simpl in *.
    destruct (IH es1 g1) as [B1 [B2 [B3 [B4 [B5 _]]]]].
    destruct (Game.laserLoop ls es1 g1) as [[ls2 es2] g2]. simpl in *.
    repeat split; try congruence; try lia; try discriminate.
    rewrite B5. symmetry. eapply Forall2_length; exact A4.
Qed.

(** X21. A collision pass only takes from the bricks: the brick array
    keeps its length and every brick its place, size, score and kind; hits
    never go up and no inactive brick becomes active again.  With
    non-negative brick scores, the score never goes down. *)
Theorem checkCollisions_bricks_kept (g : Game.t) :
  Forall2 brickKept (Game.bricks g) (Game.bricks (Game.checkCollisions g)) /\
  (Forall (fun b => (0 <= Brick.score b)%Z) (Game.bricks g) ->
   (Game.score g <= Game.score (Game.checkCollisions g))%Z).
Proof.
  change (bricksKept g (Game.checkCollisions g)).
  unfold Game.checkCollisions.
  destruct (ballLoop_kept (LevelManager.getActiveBricks (Game.bricks g))
              (Game.balls g) g) as [K1 _].
  destruct (Game.ballLoop _ (Game.balls g) g) as [bs g1]. simpl in K1.
  destruct (powerUpLoop_fields (Game.powerUps (Game.set_balls bs g1))
              (Game.set_balls bs g1)) as [B2 [S2 _]].
  destruct (Game.powerUpLoop _ (Game.set_balls bs g1)) as [ps g2].
  simpl in B2, S2.
  destruct (laserLoop_fields (Game.lasers (Game.set_powerUps ps g2))
              (Game.enemies (Game.set_powerUps ps g2))
              (Game.set_powerUps ps g2)) as [B3 [S3 _]].
  destruct (Game.laserLoop _ _ (Game.set_powerUps ps g2)) as [[ls es] g3].
  simpl in B3, S3.
  eapply bricksKept_trans; [exact K1 |].
  apply bricksKept_same; simpl; [congruence | lia].
Qed.

Lemma checkCollisions_balls_kept_aux (g : Game.t) :
  Forall speedInRange (Game.balls g) ->
  Forall speedInRange (Game.balls (Game.checkCollisions g)) /\
  (length (Game.balls g) <= length (Game.balls (Game.checkCollisions g)))%nat.
Proof.
  intros H. unfold Game.checkCollisions.
  pose proof (ballLoop_balls (LevelManager.getActiveBricks (Game.bricks g))
                (Game.balls g) g) as K1.
  destruct (Game.ballLoop _ (Game.balls g) g) as [bs g1]. simpl in K1.
  pose proof (Forall2_ballKept_range _ _ K1 H) as R1.
  pose proof (Forall2_length K1) as L1.
  destruct (powerUpLoop_fields (Game.powerUps (Game.set_balls bs g1))
              (Game.set_balls bs g1)) as [_ [_ [_ [_ [R2 L2]]]]].
  destruct (Game.powerUpLoop _ (Game.set_balls bs g1)) as [ps g2].
  simpl in R2, L2. specialize (R2 R1).
  destruct (laserLoop_fields (Game.lasers (Game.set_powerUps ps g2))
              (Game.enemies (Game.set_powerUps ps g2))
              (Game.set_powerUps ps g2)) as [_ [_ [B3 _]]].
  destruct (Game.laserLoop _ _ (Game.set_powerUps ps g2)) as [[ls es] g3].
  simpl in B3. simpl. rewrite B3. split; [exact R2 | lia].
Qed.


(** X22. A collision pass keeps every ball's speed between BASE_SPEED and
    MAX_SPEED, and never removes a ball from the list: bounces, speed
    increases, the Slow capsule and the balls added by Multiball all stay
    within the range. *)
Theorem checkCollisions_balls_kept (g : Game.t) :
  Forall speedInRange (Game.balls g) ->
  Forall speedInRange (Game.balls (Game.checkCollisions g)) /\
  (length (Game.balls g) <= length (Game.balls (Game.checkCollisions g)))%nat.
Proof. exact (checkCollisions_balls_kept_aux g). Qed.

Lemma checkCollisions_balls_kept_witness :
  Forall speedInRange (Game.balls (Game.checkCollisions gameTwoBricks)).
Proof.
  apply (checkCollisions_balls_kept gameTwoBricks).
  repeat constructor; simpl; config; lra.
Defined.

(** ** game.js: the loop *)




















Lemma init_fields (g : Rng.t) (c : Clock.t) (stored : option Z) :
  let d := GameLoop.init g c stored in
  GameLoop.fixedTimeStep d = CONFIG.FRAME_TIME /\
  GameLoop.accumulator d = 0 /\ GameLoop.lastTime d = 0 /\
  GameLoop.state d = MENU /\ GameLoop.lives d = 3%Z /\
  Game.lasers (GameLoop.game d) = [] /\ Game.enemies (GameLoop.game d) = [] /\
  Game.balls (GameLoop.game d) = [] /\ Game.bricks (GameLoop.game d) = [].
Proof.
  unfold GameLoop.init. destruct (Starfield.new g) as [sf g'].
  unfold GameLoop.loadHighScore. simpl.
  destruct stored; simpl; repeat split; reflexivity.
Qed.




(** ** What the driver keeps in every state *)

Lemma invFrame_refl (d : GameLoop.t) : invFrame d d.
Proof. unfold invFrame. repeat split; reflexivity. Qed.

Lemma invFrame_trans (a b c : GameLoop.t) :
  invFrame a b -> invFrame b c -> invFrame a c.
Proof.
  unfold invFrame.
  intros [A1 [A2 [A3 [A4 [A5 A6]]]]] [B1 [B2 [B3 [B4 [B5 B6]]]]].
  repeat split; congruence.
Qed.

Lemma driverInv_frame (wb : bool) (d d' : GameLoop.t) :
  driverInv wb d -> invFrame d d' -> driverInv wb d'.
Proof.
  unfold driverInv, invFrame.
  intros [I1 [I2 [I3 [I4 [I5 [I6 [I7 I8]]]]]]] [F1 [F2 [F3 [F4 [F5 F6]]]]].
  rewrite F1, F2, F3, F4, F5, F6. repeat split; try assumption; tauto.
Qed.

Lemma with_game_frame (f : Game.t -> Game.t) (d : GameLoop.t) :
  Game.lasers (f (GameLoop.game d)) = Game.lasers (GameLoop.game d) ->
  Game.enemies (f (GameLoop.game d)) = Game.enemies (GameLoop.game d) ->
  Game.balls (f (GameLoop.game d)) = Game.balls (GameLoop.game d) ->
  invFrame d (GameLoop.with_game f d).
Proof.
  intros H1 H2 H3. unfold invFrame. simpl. repeat split; assumption.
Qed.

Lemma Ball_new_range (x y : R) : speedInRange (Ball.new x y).
Proof. unfold speedInRange. simpl. config. lra. Qed.

Lemma createEnemies_spec (k : nat) (spacing : R) :
  forall i d,
    invFrame d (snd (GameLoop.createEnemies k i spacing d)) /\
    Forall (fun e => Enemy.active e = true)
      (fst (GameLoop.createEnemies k i spacing d)) /\
    Forall (fun e => Enemy.visible e = true /\ Enemy.disappearTime e = None)
      (if (i =? 0)%nat
       then tl (fst (GameLoop.createEnemies k i spacing d))
       else fst (GameLoop.createEnemies k i spacing d)).
Proof.
  induction k as [| k IH]; intros i d; simpl.
  - split; [apply invFrame_refl |]. split; [constructor |].
    destruct (i =? 0)%nat; constructor.
  - destruct (i =? 0)%nat eqn:Ei; simpl.
    + match goal with
      | |- context [GameLoop.createEnemies k (S i) spacing ?h] =>
          destruct (IH (S i) h) as [F [A V]];
          destruct (GameLoop.createEnemies k (S i) spacing h) as [rest d']
      end.
      simpl in *. split; [exact F |]. split; [| exact V].
      constructor; [reflexivity | exact A].
    + match goal with
      | |- context [GameLoop.createEnemies k (S i) spacing ?h] =>
          destruct (IH (S i) h) as [F [A V]];
          destruct (GameLoop.createEnemies k (S i) spacing h) as [rest d']
      end.
      simpl in *. split; [exact F |]. split.
      * constructor; [reflexivity | exact A].
      * constructor; [split; reflexivity | exact V].
Qed.

Lemma setupEnemies_spec (d : GameLoop.t) :
  let d' := GameLoop.setupEnemies d in
  Game.lasers (GameLoop.game d') = Game.lasers (GameLoop.game d) /\
  Game.balls (GameLoop.game d') = Game.balls (GameLoop.game d) /\
  GameLoop.lives d' = GameLoop.lives d /\
  GameLoop.state d' = GameLoop.state d /\
  GameLoop.fixedTimeStep d' = GameLoop.fixedTimeStep d /\
  Forall (fun e => Enemy.active e = true) (Game.enemies (GameLoop.game d')) /\
  othersVisible (Game.enemies (GameLoop.game d')).
Proof.
  unfold GameLoop.setupEnemies. cbv zeta.
  match goal with
  | |- context [GameLoop.createEnemies ?k ?i ?s ?h] =>
      destruct (createEnemies_spec k s i h) as [F [A V]];
      destruct (GameLoop.createEnemies k i s h) as [es d']
  end.
  simpl in *. destruct F as [F1 [F2 [F3 [F4 [F5 F6]]]]].
  unfold othersVisible. repeat split; try assumption.
Qed.

Lemma loadLevel_inv (wb : bool) (levelIndex : nat) (d : GameLoop.t) :
  (0 <= GameLoop.lives d <= 3)%Z ->
  (GameLoop.state d = PLAYING -> (1 <= GameLoop.lives d)%Z) ->
  (GameLoop.state d = MENU \/ GameLoop.state d = PLAYING \/
   GameLoop.state d = GAME_OVER) ->
  GameLoop.fixedTimeStep d = CONFIG.FRAME_TIME ->
  driverInv wb (GameLoop.loadLevel levelIndex d).
Proof.
  intros Hl Hp Hs Hf. unfold GameLoop.loadLevel. cbv zeta.
  match goal with
  | |- context [GameLoop.setupEnemies ?h] =>
      destruct (setupEnemies_spec h) as [S1 [S2 [S3 [S4 [S5 [S6 S7]]]]]];
      set (d1 := GameLoop.setupEnemies h) in *
  end.
  cbv zeta in S1, S2, S3, S4, S5, S6, S7. simpl in S2, S3, S4, S5.
  clearbody d1. unfold driverInv. simpl. rewrite S2, S3, S4, S5.
  split; [reflexivity |]. split; [exact S6 |]. split; [exact S7 |].
  split; [constructor; [apply Ball_new_range | constructor] |].
  split; [exact Hl |].
  split; [intros Hpl; split; [apply Hp; exact Hpl | intros _; discriminate] |].
  split; [exact Hs | exact Hf].
Qed.

Lemma startGame_inv (wb : bool) (d : GameLoop.t) :
  GameLoop.fixedTimeStep d = CONFIG.FRAME_TIME ->
  driverInv wb (GameLoop.startGame d).
Proof.
  intros Hf. unfold GameLoop.startGame. cbv zeta.
  apply loadLevel_inv; simpl; try assumption.
  - unfold CONFIG.GAME.INITIAL_LIVES. lia.
  - intros _. unfold CONFIG.GAME.INITIAL_LIVES. lia.
  - right; left; reflexivity.
Qed.

Lemma launch_range (a : R) (b : Ball.t) :
  speedInRange b -> speedInRange (Ball.launch a b).
Proof.
  unfold speedInRange, Ball.launch.
  destruct (negb _); simpl; auto.
Qed.

Lemma handleSpace_inv (wb : bool) (d : GameLoop.t) :
  driverInv wb d -> driverInv wb (GameLoop.handleSpace d).
Proof.
  intros I. pose proof I as [I1 [I2 [I3 [I4 [I5 [I6 [I7 I8]]]]]]].
  unfold GameLoop.handleSpace.
  destruct (_ || _); [apply startGame_inv; exact I8 |].
  destruct (negb _); [exact I |].
  destruct (Game.balls (GameLoop.game d)) as [| main rest] eqn:Eb; [exact I |].
  destruct (BALL_STATES_eqb _ _); [| exact I].
  unfold driverInv. simpl.
  inversion I4 as [| ? ? Hm Hr]; subst.
  split; [exact I1 |]. split; [exact I2 |]. split; [exact I3 |].
  split; [constructor; [apply launch_range; exact Hm | exact Hr] |].
  split; [exact I5 |].
  split; [intros Hp; split; [apply I6; exact Hp | intros _; discriminate] |].
  split; [exact I7 | exact I8].
Qed.

Lemma handleMouseClick_inv (wb : bool) (d : GameLoop.t) :
  driverInv wb d -> driverInv wb (GameLoop.handleMouseClick d).
Proof. exact (handleSpace_inv wb d). Qed.

Lemma attachMain_range (p : Paddle.t) (bs : list Ball.t) :
  Forall speedInRange bs -> Forall speedInRange (GameLoop.attachMain p bs).
Proof.
  intros H. unfold GameLoop.attachMain.
  destruct bs as [| main rest]; [constructor |].
  destruct (BALL_STATES_eqb _ _); [| exact H].
  inversion H; subst. constructor; assumption.
Qed.

Lemma update_filter_range (dt : R) (bs : list Ball.t) :
  Forall speedInRange bs ->
  Forall speedInRange (filter Ball.active (map (Ball.update dt) bs)).
Proof.
  intros H. induction H as [| b bs Hb _ IH]; simpl; [constructor |].
  destruct (Ball.active (Ball.update dt b)); [| exact IH].
  constructor; [| exact IH].
  unfold speedInRange in *.
  destruct (Ball_update_speed dt b) as [E _]. rewrite E. exact Hb.
Qed.

Lemma updateBalls_inv (wb : bool) (dt : R) (d : GameLoop.t) :
  driverInv wb d -> GameLoop.state d = PLAYING ->
  driverInv wb (GameLoop.updateBalls dt d).
Proof.
  intros [I1 [I2 [I3 [I4 [I5 [I6 [I7 I8]]]]]]] Hp.
  destruct (I6 Hp) as [Hl _].
  unfold GameLoop.updateBalls. cbv zeta.
  set (bs := filter Ball.active
               (map (Ball.update dt)
                  (GameLoop.attachMain (Game.paddle (GameLoop.game d))
                     (Game.balls (GameLoop.game d))))).
  assert (Hbs : Forall speedInRange bs)
    by (apply update_filter_range, attachMain_range, I4).
  clearbody bs. simpl Game.balls.
  destruct bs as [| b bs]; simpl Nat.eqb; cbv iota.
  - unfold GameLoop.loseLife, GameLoop.gameOver, GameLoop.saveHighScore.
    cbv zeta. simpl GameLoop.lives.
    destruct (GameLoop.lives d - 1 <=? 0)%Z eqn:E0.
    + apply Z.leb_le in E0.
      destruct (_ >? _)%Z; unfold driverInv; simpl;
        (split; [exact I1 |]; split; [exact I2 |]; split; [exact I3 |];
         split; [constructor |]; split; [lia |];
         split; [intros Hx; discriminate Hx |];
         split; [right; right; reflexivity | exact I8]).
    + apply Z.leb_gt in E0. unfold driverInv. simpl.
      split; [reflexivity |]. split; [exact I2 |]. split; [exact I3 |].
      split; [constructor; [apply Ball_new_range | constructor] |].
      split; [lia |].
      split; [intros _; split; [lia | intros _; discriminate] |].
      split; [exact I7 | exact I8].
  - unfold driverInv. simpl.
    split; [exact I1 |]. split; [exact I2 |]. split; [exact I3 |].
    split; [exact Hbs |]. split; [exact I5 |].
    split; [intros _; split; [exact Hl | intros _; discriminate] |].
    split; [exact I7 | exact I8].
Qed.

Lemma Enemy_update_keeps (dt now : R) (s : Rng.t) (e : Enemy.t) :
  Enemy.active (fst (Enemy.update dt now s e)) = Enemy.active e /\
  (Enemy.visible e = true /\ Enemy.disappearTime e = None ->
   Enemy.visible (fst (Enemy.update dt now s e)) = true /\
   Enemy.disappearTime (fst (Enemy.update dt now s e)) = None).
Proof.
  destruct e as [x y w h sp dx dy act vis apt dis dir fr tm].
  unfold Enemy.update, Enemy.shouldAppear, Enemy.shouldDisappear, Rng.random.
  enemy_simpl. split.
  - destruct vis; simpl negb; cbv iota.
    + destruct dis as [t |]; simpl andb; cbv iota;
        [destruct (Req_dec_T t 0); [| destruct (Num.geb now t)] |];
        enemy_simpl; repeat (case_if; enemy_simpl); reflexivity.
    + simpl andb. destruct (Num.geb _ _); enemy_simpl; reflexivity.
  - intros [Hv Hd]. subst vis dis. simpl negb. simpl andb. cbv iota.
    repeat (case_if; enemy_simpl); split; reflexivity.
Qed.

Lemma updateEnemyList_spec (dt : R) (es : list Enemy.t) :
  forall d,
    invFrame d (snd (GameLoop.updateEnemyList dt es d)) /\
    Forall2
      (fun e e' =>
         Enemy.active e' = Enemy.active e /\
         (Enemy.visible e = true /\ Enemy.disappearTime e = None ->
          Enemy.visible e' = true /\ Enemy.disappearTime e' = None))
      es (fst (GameLoop.updateEnemyList dt es d)).
Proof.
  induction es as [| e es IH]; intros d; simpl;
    [split; [apply invFrame_refl | constructor] |].
  pose proof (Enemy_update_keeps dt (Clock.times (GameLoop.clock d)
                                       (Clock.pos (GameLoop.clock d)))
                (Game.rng (GameLoop.game d)) e) as K.
  destruct (Enemy.update _ _ _ e) as [e' s]. simpl in K.
  match goal with
  | |- context [GameLoop.updateEnemyList dt es ?h] =>
      destruct (IH h) as [F R];
      destruct (GameLoop.updateEnemyList dt es h) as [rest d']
  end.
  simpl in *. split; [exact F | constructor; assumption].
Qed.

Lemma updateEnemies_inv (wb : bool) (dt : R) (d : GameLoop.t) :
  driverInv wb d -> driverInv wb (GameLoop.updateEnemies dt d).
Proof.
  intros [I1 [I2 [I3 [I4 [I5 [I6 [I7 I8]]]]]]].
  unfold GameLoop.updateEnemies.
  destruct (updateEnemyList_spec dt (Game.enemies (GameLoop.game d)) d)
    as [[F1 [F2 [F3 [F4 [F5 F6]]]]] R].
  destruct (GameLoop.updateEnemyList dt _ d) as [es d']. simpl in *.
  unfold driverInv. simpl. rewrite F1, F3, F4, F5, F6.
  repeat split; try assumption; try lia; try tauto.
  - clear - I2 R. induction R as [| e e' l l' [Ha _] _ IH];
      [constructor |].
    inversion I2; subst. constructor; [congruence | apply IH; assumption].
  - unfold othersVisible in *. clear - I3 R.
    destruct R as [| e e' l l' _ R]; [constructor |]. simpl in *.
    induction R as [| a a' m m' [_ Hv] _ IH]; [constructor |].
    inversion I3; subst. constructor; [apply Hv; assumption | apply IH; assumption].
Qed.

(** With no laser in flight, the pass leaves none and leaves the enemies
    as they were. *)
Lemma checkCollisions_no_lasers (g : Game.t) :
  Game.lasers g = [] ->
  Game.lasers (Game.checkCollisions g) = [] /\
  Game.enemies (Game.checkCollisions g) = Game.enemies g.
Proof.
  intros H0. unfold Game.checkCollisions.
  destruct (ballLoop_kept (LevelManager.getActiveBricks (Game.bricks g))
              (Game.balls g) g) as [_ [_ [F2 [F3 _]]]].
  destruct (Game.ballLoop _ (Game.balls g) g) as [bs g1]. simpl in F2, F3.
  destruct (powerUpLoop_fields (Game.powerUps (Game.set_balls bs g1))
              (Game.set_balls bs g1)) as [_ [_ [E2 [L2 _]]]].
  destruct (Game.powerUpLoop _ (Game.set_balls bs g1)) as [ps g2].
  simpl in E2, L2.
  assert (Hl : Game.lasers (Game.set_powerUps ps g2) = [])
    by (simpl; congruence).
  rewrite Hl. simpl Game.laserLoop. simpl. split; [reflexivity | congruence].
Qed.

Lemma checkCollisions_inv (wb : bool) (d : GameLoop.t) :
  driverInv wb d -> driverInv wb (GameLoop.with_game Game.checkCollisions d).
Proof.
  intros [I1 [I2 [I3 [I4 [I5 [I6 [I7 I8]]]]]]].
  destruct (checkCollisions_no_lasers _ I1) as [L E].
  destruct (checkCollisions_balls_kept_aux (GameLoop.game d) I4) as [B N].
  unfold driverInv. simpl. rewrite L, E.
  split; [reflexivity |]. split; [exact I2 |]. split; [exact I3 |].
  split; [exact B |]. split; [exact I5 |].
  split; [| split; [exact I7 | exact I8]].
  intros Hp. destruct (I6 Hp) as [Hl Hne]. split; [exact Hl |].
  intros Hw Hn. specialize (Hne Hw). rewrite Hn in N. simpl in N.
  destruct (Game.balls (GameLoop.game d)); [congruence | simpl in N; lia].
Qed.

Lemma movePaddle_frame (dt : R) (d : GameLoop.t) :
  invFrame d (GameLoop.movePaddle dt d).
Proof.
  unfold GameLoop.movePaddle.
  destruct (InputHandler.isMouseActive (GameLoop.input d));
    destruct (InputHandler.getMouseX (GameLoop.input d));
    try (apply with_game_frame; reflexivity);
    destruct (Req_dec_T _ 0);
    try apply invFrame_refl; apply with_game_frame; reflexivity.
Qed.

Lemma updateLasers_inv (wb : bool) (dt : R) (d : GameLoop.t) :
  driverInv wb d -> driverInv wb (GameLoop.updateLasers dt d).
Proof.
  intros I. apply (driverInv_frame wb d); [exact I |].
  destruct I as [I1 _]. unfold GameLoop.updateLasers. cbv zeta.
  apply with_game_frame; simpl; try reflexivity.
  rewrite I1. reflexivity.
Qed.

Lemma completeLevel_inv (wb : bool) (d : GameLoop.t) :
  driverInv wb d -> driverInv wb (GameLoop.completeLevel d).
Proof.
  intros [I1 [I2 [I3 [I4 [I5 [I6 [I7 I8]]]]]]].
  unfold GameLoop.completeLevel. cbv zeta.
  apply loadLevel_inv; simpl; try assumption.
  intros H. apply I6, H.
Qed.

Lemma set_input_frame (i : InputHandler.t) (d : GameLoop.t) :
  invFrame d (GameLoop.set_input i d).
Proof. unfold invFrame. simpl. auto 10. Qed.

Lemma set_starfield_frame (sf : Starfield.t) (d : GameLoop.t) :
  invFrame d (GameLoop.set_starfield sf d).
Proof. unfold invFrame. simpl. auto 10. Qed.

Lemma set_clock_frame (c : Clock.t) (d : GameLoop.t) :
  invFrame d (GameLoop.set_clock c d).
Proof. unfold invFrame. simpl. auto 10. Qed.

Lemma set_accumulator_frame (a : R) (d : GameLoop.t) :
  invFrame d (GameLoop.set_accumulator a d).
Proof. unfold invFrame. simpl. auto 10. Qed.

Lemma set_lastTime_frame (a : R) (d : GameLoop.t) :
  invFrame d (GameLoop.set_lastTime a d).
Proof. unfold invFrame. simpl. auto 10. Qed.

Lemma update_inv (wb : bool) (dt : R) (d : GameLoop.t) :
  driverInv wb d -> driverInv wb (GameLoop.update dt d).
Proof.
  intros I. cbv beta iota delta [GameLoop.update GameLoop.now Clock.now].
  destruct (Starfield.update _ _ _ _) as [sf s].
  set (d0 := GameLoop.set_starfield sf _).
  assert (I0 : driverInv wb d0).
  { apply (driverInv_frame wb d); [exact I |]. unfold d0.
    eapply invFrame_trans; [| apply set_starfield_frame].
    eapply invFrame_trans; [| apply with_game_frame; reflexivity].
    apply set_clock_frame. }
  clearbody d0. clear I. cbv zeta.
  destruct (GAME_STATES_eqb (GameLoop.state d0) PLAYING) eqn:Ep;
    simpl negb; cbv iota; [| exact I0].
  assert (Hp : GameLoop.state d0 = PLAYING)
    by (destruct (GameLoop.state d0); try discriminate; reflexivity).
  match goal with
  | |- driverInv wb (GameLoop.set_input _ ?h) =>
      apply (driverInv_frame wb h); [| apply set_input_frame]
  end.
  match goal with
  | |- driverInv wb (if _ then GameLoop.completeLevel ?h else _) =>
      assert (I7 : driverInv wb h)
  end.
  { apply checkCollisions_inv, updateLasers_inv, updateEnemies_inv.
    unfold GameLoop.updatePowerUps.
    match goal with
    | |- driverInv wb (GameLoop.with_game _ ?h) =>
        apply (driverInv_frame wb h); [| apply with_game_frame; reflexivity]
    end.
    pose proof (movePaddle_frame dt d0) as F.
    apply updateBalls_inv.
    - match goal with
      | |- driverInv wb (GameLoop.with_game _ ?h) =>
          apply (driverInv_frame wb h); [| apply with_game_frame; reflexivity]
      end.
      apply (driverInv_frame wb d0); assumption.
    - destruct F as [_ [_ [_ [_ [E _]]]]].
      change (GameLoop.state (GameLoop.movePaddle dt d0) = PLAYING).
      congruence. }
  destruct (LevelManager.isLevelComplete _);
    [apply completeLevel_inv; exact I7 | exact I7].
Qed.

Lemma tickLoop_inv (wb : bool) (fuel : nat) :
  forall d, driverInv wb d -> driverInv wb (GameLoop.tickLoop fuel d).
Proof.
  induction fuel as [| fuel IH]; intros d I; simpl; [exact I |].
  destruct (Num.geb _ _); [| exact I].
  apply IH.
  match goal with
  | |- driverInv wb (GameLoop.set_accumulator _ ?h) =>
      apply (driverInv_frame wb h); [| apply set_accumulator_frame]
  end.
  apply update_inv, I.
Qed.

Lemma gameLoop_inv (wb : bool) (timestamp : R) (d : GameLoop.t) :
  driverInv wb d -> driverInv wb (GameLoop.gameLoop timestamp d).
Proof.
  intros I. unfold GameLoop.gameLoop. cbv zeta.
  assert (I1 : driverInv wb (GameLoop.set_lastTime timestamp d))
    by (apply (driverInv_frame wb d); [exact I | apply set_lastTime_frame]).
  destruct (Num.gtb _ 100); [exact I1 |].
  apply tickLoop_inv.
  match goal with
  | |- driverInv wb (GameLoop.set_accumulator _ ?h) =>
      apply (driverInv_frame wb h); [exact I1 | apply set_accumulator_frame]
  end.
Qed.

Lemma step_inv (wb : bool) (d : GameLoop.t) (e : GameLoop.Event) :
  driverInv wb d -> driverInv wb (GameLoop.step d e).
Proof.
  intros I. destruct e; simpl.
  - apply gameLoop_inv, I.
  - destruct (InputHandler.handleKeyDown code (GameLoop.input d))
      as [i fired].
    assert (I' : driverInv wb (GameLoop.set_input i d))
      by (apply (driverInv_frame wb d); [exact I | unfold invFrame; simpl; auto 10]).
    destruct fired; [apply handleSpace_inv |]; exact I'.
  - apply (driverInv_frame wb d); [exact I | unfold invFrame; simpl; auto 10].
  - apply (driverInv_frame wb d); [exact I | unfold invFrame; simpl; auto 10].
  - destruct (InputHandler.handleMouseDown button (GameLoop.input d))
      as [i fired].
    assert (I' : driverInv wb (GameLoop.set_input i d))
      by (apply (driverInv_frame wb d); [exact I | unfold invFrame; simpl; auto 10]).
    destruct fired; [apply handleMouseClick_inv |]; exact I'.
  - destruct (Game.timers (GameLoop.game d)); [exact I |].
    apply (driverInv_frame wb d); [exact I |].
    apply with_game_frame; reflexivity.
Qed.

Lemma init_inv (wb : bool) (g : Rng.t) (c : Clock.t) (stored : option Z) :
  driverInv wb (GameLoop.init g c stored).
Proof.
  destruct (init_fields g c stored) as [F1 [_ [_ [F4 [F5 [F6 [F7 [F8 _]]]]]]]].
  cbv zeta in *. unfold driverInv, othersVisible.
  rewrite F1, F4, F5, F6, F7, F8. simpl.
  split; [reflexivity |]. split; [constructor |]. split; [constructor |].
  split; [constructor |]. split; [lia |].
  split; [intros H; discriminate H |].
  split; [left; reflexivity | reflexivity].
Qed.

(** *** The start: [boot] *)

Lemma boot_nil (g : Rng.t) (c : Clock.t) (stored : option Z) :
  GameLoop.boot [] g c stored = GameLoop.init g c stored.
Proof.
  unfold GameLoop.boot, GameLoop.finishInit, GameLoop.init.
  cbn [fold_left]. destruct (Starfield.new g) as [sf g']. reflexivity.
Qed.

(** While [init] loads, the lives stay as the constructor set them and the
    phase is MENU or, once a handler has run [startGame], PLAYING. *)
Lemma stepLoading_keeps (l : GameLoop.loading) (e : GameLoop.Event) :
  GameLoop.l_lives l = CONFIG.GAME.INITIAL_LIVES ->
  GameLoop.l_state l = MENU \/ GameLoop.l_state l = PLAYING ->
  GameLoop.l_lives (GameLoop.stepLoading l e) = CONFIG.GAME.INITIAL_LIVES /\
  (GameLoop.l_state (GameLoop.stepLoading l e) = MENU \/
   GameLoop.l_state (GameLoop.stepLoading l e) = PLAYING).
Proof.
  intros Hl Hs.
  assert (K : forall l',
             GameLoop.l_lives l' = CONFIG.GAME.INITIAL_LIVES ->
             GameLoop.l_state l' = MENU \/ GameLoop.l_state l' = PLAYING ->
             GameLoop.l_lives (GameLoop.handleStartLoading l')
               = CONFIG.GAME.INITIAL_LIVES /\
             (GameLoop.l_state (GameLoop.handleStartLoading l') = MENU \/
              GameLoop.l_state (GameLoop.handleStartLoading l') = PLAYING)).
  { intros l' Hl' Hs'. unfold GameLoop.handleStartLoading.
    destruct (_ || _); simpl; [split; [reflexivity | right; reflexivity] |].
    split; assumption. }
  destruct e; simpl; try (split; assumption).
  - destruct (InputHandler.handleKeyDown code (GameLoop.l_input l))
      as [i fired].
    destruct fired; [apply K |]; simpl; try assumption; split; assumption.
  - destruct (InputHandler.handleMouseDown button (GameLoop.l_input l))
      as [i fired].
    destruct fired; [apply K |]; simpl; try assumption; split; assumption.
Qed.

Lemma loading_keeps (early : list GameLoop.Event) :
  forall l,
    GameLoop.l_lives l = CONFIG.GAME.INITIAL_LIVES ->
    GameLoop.l_state l = MENU \/ GameLoop.l_state l = PLAYING ->
    GameLoop.l_lives (fold_left GameLoop.stepLoading early l)
      = CONFIG.GAME.INITIAL_LIVES /\
    (GameLoop.l_state (fold_left GameLoop.stepLoading early l) = MENU \/
     GameLoop.l_state (fold_left GameLoop.stepLoading early l) = PLAYING).
Proof.
  induction early as [| e early IH]; intros l Hl Hs; simpl;
    [split; assumption |].
  destruct (stepLoading_keeps l e Hl Hs) as [Hl' Hs'].
  apply IH; assumption.
Qed.

Lemma finishInit_fields (l : GameLoop.loading) (g : Rng.t) (c : Clock.t)
  (stored : option Z) :
  let d := GameLoop.finishInit l g c stored in
  GameLoop.fixedTimeStep d = CONFIG.FRAME_TIME /\
  GameLoop.state d = GameLoop.l_state l /\
  GameLoop.lives d = GameLoop.l_lives l /\
  GameLoop.input d = GameLoop.l_input l /\
  Game.lasers (GameLoop.game d) = [] /\ Game.enemies (GameLoop.game d) = [] /\
  Game.balls (GameLoop.game d) = [] /\ Game.bricks (GameLoop.game d) = [].
Proof.
  unfold GameLoop.finishInit. destruct (Starfield.new g) as [sf g'].
  unfold GameLoop.loadHighScore. simpl.
  destruct stored; simpl; repeat split; reflexivity.
Qed.

(** A game started while [init] was loading has no ball yet; any other
    start of the driver has the full invariant. *)
Lemma boot_inv (wb : bool) (early : list GameLoop.Event) (g : Rng.t)
  (c : Clock.t) (stored : option Z) :
  (wb = true -> GameLoop.state (GameLoop.boot early g c stored) = MENU) ->
  driverInv wb (GameLoop.boot early g c stored).
Proof.
  unfold GameLoop.boot. intros Hm.
  destruct (loading_keeps early GameLoop.loadingNew eq_refl
              (or_introl eq_refl)) as [Hl Hs].
  destruct (finishInit_fields
              (fold_left GameLoop.stepLoading early GameLoop.loadingNew)
              g c stored) as [F1 [F2 [F3 [_ [F5 [F6 [F7 _]]]]]]].
  cbv zeta in F1, F2, F3, F5, F6, F7.
  unfold driverInv, othersVisible.
  rewrite F1, F3, F5, F6, F7, Hl. rewrite F2 in Hm. rewrite F2. simpl.
  unfold CONFIG.GAME.INITIAL_LIVES.
  split; [reflexivity |]. split; [constructor |]. split; [constructor |].
  split; [constructor |]. split; [lia |].
  split.
  - intros Hp. split; [lia |]. intros Hw. rewrite (Hm Hw) in Hp.
    discriminate Hp.
  - split; [| reflexivity].
    destruct Hs as [Hs | Hs]; rewrite Hs; [left | right; left]; reflexivity.
Qed.

Lemma loadLevel_state (levelIndex : nat) (d : GameLoop.t) :
  GameLoop.state (GameLoop.loadLevel levelIndex d) = GameLoop.state d.
Proof.
  unfold GameLoop.loadLevel. cbv zeta.
  match goal with
  | |- GameLoop.state (GameLoop.with_game _ (GameLoop.setupEnemies ?h)) = _ =>
      destruct (setupEnemies_spec h) as [_ [_ [_ [S4 _]]]];
      cbv zeta in S4;
      change (GameLoop.state (GameLoop.setupEnemies h) = GameLoop.state d);
      rewrite S4
  end.
  reflexivity.
Qed.

Lemma startGame_state (d : GameLoop.t) :
  GameLoop.state (GameLoop.startGame d) = PLAYING.
Proof.
  unfold GameLoop.startGame. cbv zeta. rewrite loadLevel_state. reflexivity.
Qed.

(** A Space press, with the key up before, starts the game from the
    menu. *)
Lemma space_starts_game (d : GameLoop.t) :
  InputHandler.space (GameLoop.input d) = false ->
  GameLoop.state d = MENU ->
  GameLoop.state (GameLoop.step d (GameLoop.KeyDown InputHandler.Space))
    = PLAYING.
Proof.
  intros Hsp Hm. cbn [GameLoop.step]. unfold InputHandler.handleKeyDown.
  rewrite Hsp. simpl negb. cbv iota beta zeta.
  unfold GameLoop.handleSpace.
  change (GameLoop.state (GameLoop.set_input ?i d)) with (GameLoop.state d).
  rewrite Hm. simpl orb. cbv iota. apply startGame_state.
Qed.

Lemma run_inv (wb : bool) (es : list GameLoop.Event) :
  forall d, driverInv wb d -> driverInv wb (GameLoop.run es d).
Proof.
  unfold GameLoop.run. induction es as [| e es IH]; intros d I; simpl.
  - exact I.
  - apply IH, step_inv, I.
Qed.

(** X24. No laser projectile ever exists: no handler of the game calls
    [fireLaser], so through every sequence of frames, key and pointer
    events and timer expiries from the start, the laser list is empty and
    every enemy is still active. *)
Theorem lasers_never_fired (es : list GameLoop.Event) (g : Rng.t)
  (c : Clock.t) (stored : option Z) :
  Game.lasers (GameLoop.game (GameLoop.run es (GameLoop.init g c stored)))
    = [] /\
  Forall (fun e => Enemy.active e = true)
    (Game.enemies (GameLoop.game (GameLoop.run es (GameLoop.init g c stored)))).
Proof.
  destruct (run_inv true es _ (init_inv true g c stored)) as [I1 [I2 _]].
  split; assumption.
Qed.

(** X25. Through every sequence of events, whatever arrived while [init]
    was loading, the lives are between 0 and 3, the phase is MENU, PLAYING
    or GAME_OVER, and in the PLAYING phase at least one life is left.  When
    no Space press or click started the game during loading (the phase
    after [init] is MENU), at least one ball exists whenever the phase is
    PLAYING.  The condition is needed: a Space press during loading leaves
    [init] in the PLAYING phase without a ball. *)
Theorem playing_has_life_and_ball (early es : list GameLoop.Event)
  (g : Rng.t) (c : Clock.t) (stored : option Z) :
  let d := GameLoop.run es (GameLoop.boot early g c stored) in
  (0 <= GameLoop.lives d <= 3)%Z /\
  (GameLoop.state d = MENU \/ GameLoop.state d = PLAYING \/
   GameLoop.state d = GAME_OVER) /\
  (GameLoop.state d = PLAYING -> (1 <= GameLoop.lives d)%Z) /\
  (GameLoop.state (GameLoop.boot early g c stored) = MENU ->
   GameLoop.state d = PLAYING -> Game.balls (GameLoop.game d) <> []) /\
  GameLoop.state
    (GameLoop.boot [GameLoop.KeyDown InputHandler.Space] g c stored)
    = PLAYING /\
  Game.balls
    (GameLoop.game
       (GameLoop.boot [GameLoop.KeyDown InputHandler.Space] g c stored))
    = [].
Proof.
  cbv zeta.
  assert (W : driverInv false (GameLoop.boot early g c stored))
    by (apply boot_inv; intros H; discriminate H).
  destruct (run_inv false es _ W) as [_ [_ [_ [_ [I5 [I6 [I7 _]]]]]]].
  split; [exact I5 |]. split; [exact I7 |].
  split; [intros Hp; apply I6, Hp |].
  split.
  - intros Hm Hp.
    assert (S : driverInv true (GameLoop.boot early g c stored))
      by (apply boot_inv; intros _; exact Hm).
    destruct (run_inv true es _ S) as [_ [_ [_ [_ [_ [J6 _]]]]]].
    destruct (J6 Hp) as [_ Hb]. apply Hb. reflexivity.
  - destruct (finishInit_fields
                (fold_left GameLoop.stepLoading
                   [GameLoop.KeyDown InputHandler.Space] GameLoop.loadingNew)
                g c stored) as [_ [F2 [_ [_ [_ [_ [F7 _]]]]]]].
    cbv zeta in F2, F7. unfold GameLoop.boot. rewrite F2, F7.
    split; reflexivity.
Qed.

(** A pointer move while loading, then a Space press once [init] has
    ended. *)
Lemma playing_has_life_and_ball_witness :
  Game.balls
    (GameLoop.game
       (GameLoop.run [GameLoop.KeyDown InputHandler.Space]
          (GameLoop.boot [GameLoop.MouseMove 700 100 960] tenthDraws
             zeroClock None)))
    <> [].
Proof.
  destruct (finishInit_fields
              (fold_left GameLoop.stepLoading
                 [GameLoop.MouseMove 700 100 960] GameLoop.loadingNew)
              tenthDraws zeroClock None) as [_ [F2 [_ [F4 _]]]].
  cbv zeta in F2, F4.
  destruct (playing_has_life_and_ball [GameLoop.MouseMove 700 100 960]
              [GameLoop.KeyDown InputHandler.Space] tenthDraws zeroClock None)
    as [_ [_ [_ [H _]]]].
  apply H.
  - unfold GameLoop.boot. rewrite F2. reflexivity.
  - unfold GameLoop.run. cbn [fold_left]. apply space_starts_game.
    + unfold GameLoop.boot. rewrite F4. reflexivity.
    + unfold GameLoop.boot. rewrite F2. reflexivity.
Defined.

(** X26. Every ball of the game has a speed between BASE_SPEED (400) and
    MAX_SPEED (800) at all times, through every sequence of events from
    the start. *)
Theorem ball_speeds_in_range (es : list GameLoop.Event) (g : Rng.t)
  (c : Clock.t) (stored : option Z) :
  Forall speedInRange
    (Game.balls (GameLoop.game (GameLoop.run es (GameLoop.init g c stored)))).
Proof.
  destruct (run_inv true es _ (init_inv true g c stored)) as [_ [_ [_ [I4 _]]]].
  exact I4.
Qed.

(** X27. Only the first enemy of a level ever hides: the enemies created
    after it are visible from the start, with no time to disappear at, and
    stay so through every sequence of events. *)
Theorem later_enemies_always_visible (es : list GameLoop.Event) (g : Rng.t)
  (c : Clock.t) (stored : option Z) :
  Forall (fun e => Enemy.visible e = true /\ Enemy.disappearTime e = None)
    (tl (Game.enemies
           (GameLoop.game (GameLoop.run es (GameLoop.init g c stored))))).
Proof.
  destruct (run_inv true es _ (init_inv true g c stored)) as [_ [_ [I3 _]]].
  exact I3.
Qed.

(** *** The collision pass on the states the game reaches *)



(** X28. Losing the last ball costs exactly one life: when no ball is left
    active after the balls' update, [updateBalls] takes one life; with a
    life left it puts one new attached ball above the paddle and stays in
    the same phase; with none left the phase becomes GAME_OVER and the
    high score becomes the larger of the old high score and the score.
    When a ball is left, lives and phase are untouched. *)
Theorem updateBalls_life_loss (dt : R) (d : GameLoop.t) :
  (ballsAfterTick dt d = [] ->
   GameLoop.lives (GameLoop.updateBalls dt d) = (GameLoop.lives d - 1)%Z /\
   ((1 < GameLoop.lives d)%Z ->
    GameLoop.state (GameLoop.updateBalls dt d) = GameLoop.state d /\
    Game.balls (GameLoop.game (GameLoop.updateBalls dt d)) =
      [Ball.new (CONFIG.CANVAS_WIDTH / 2)
         (Paddle.y (Game.paddle (GameLoop.game d)) - 10)]) /\
   ((GameLoop.lives d <= 1)%Z ->
    GameLoop.state (GameLoop.updateBalls dt d) = GAME_OVER /\
    GameLoop.highScore (GameLoop.updateBalls dt d) =
      Z.max (GameLoop.highScore d) (Game.score (GameLoop.game d)))) /\
  (ballsAfterTick dt d <> [] ->
   GameLoop.lives (GameLoop.updateBalls dt d) = GameLoop.lives d /\
   GameLoop.state (GameLoop.updateBalls dt d) = GameLoop.state d /\
   Game.balls (GameLoop.game (GameLoop.updateBalls dt d)) =
     ballsAfterTick dt d).
Proof.
  unfold GameLoop.updateBalls, ballsAfterTick. cbv zeta.
  set (bs := filter Ball.active _). simpl Game.balls. split.
  - intros ->. simpl Nat.eqb. cbv iota.
    unfold GameLoop.loseLife, GameLoop.gameOver, GameLoop.saveHighScore.
    cbv zeta. simpl GameLoop.lives.
    destruct (GameLoop.lives d - 1 <=? 0)%Z eqn:E0.
    + apply Z.leb_le in E0.
      destruct (_ >? _)%Z eqn:Es; simpl in *; repeat split; try lia.
    + apply Z.leb_gt in E0. simpl. repeat split; try lia.
  - intros Hne. destruct bs as [| b rest]; [contradiction |].
    simpl. repeat split; reflexivity.
Qed.

Lemma updateBalls_life_loss_witness :
  GameLoop.lives (GameLoop.updateBalls (1 / 60) lastLifeDriver) = (1 - 1)%Z /\
  GameLoop.state (GameLoop.updateBalls (1 / 60) lastLifeDriver) = GAME_OVER.
Proof.
  assert (E : ballsAfterTick (1 / 60) lastLifeDriver = []).
  { unfold ballsAfterTick, lastLifeDriver, GameLoop.attachMain. simpl map.
    unfold Ball.update, Ball.pushTrail. ball_simpl. simpl negb. cbv iota.
    simpl Nat.ltb. cbv iota. ball_simpl.
    repeat (case_if; ball_simpl); reflexivity. }
  destruct (updateBalls_life_loss (1 / 60) lastLifeDriver) as [H _].
  destruct (H E) as [H1 [_ H3]].
  split; [exact H1 |]. apply H3. simpl. lia.
Defined.

(** X29. The pointer drives the paddle: once the canvas is bound and has
    a width other than 0 (the scale is a division by it), a mouse move
    records a position within [0, CANVAS_WIDTH] and makes the pointer
    active, and the paddle part of the next tick is [moveTo] that
    position, which leaves the paddle within the field; a press of the
    left arrow key then hands control back to the keys. *)
Theorem pointer_moves_paddle (clientX rectLeft rectWidth dt : R)
  (d : GameLoop.t) :
  InputHandler.canvas (GameLoop.input d) = true -> rectWidth <> 0 ->
  Paddle.width (Game.paddle (GameLoop.game d)) <= CONFIG.CANVAS_WIDTH ->
  let d1 := GameLoop.step d (GameLoop.MouseMove clientX rectLeft rectWidth) in
  (exists m,
     InputHandler.getMouseX (GameLoop.input d1) = Some m /\
     0 <= m <= CONFIG.CANVAS_WIDTH /\
     Game.paddle (GameLoop.game (GameLoop.movePaddle dt d1)) =
       Paddle.moveTo m (Game.paddle (GameLoop.game d))) /\
  paddleInField (Game.paddle (GameLoop.game (GameLoop.movePaddle dt d1))) /\
  Game.paddle
    (GameLoop.game
       (GameLoop.movePaddle dt
          (GameLoop.step d1 (GameLoop.KeyDown InputHandler.ArrowLeft)))) =
    Paddle.move (-1) dt (Game.paddle (GameLoop.game d)).
Proof.
  intros Hc Hr Hw. cbv zeta.
  unfold GameLoop.step, InputHandler.handleMouseMove. rewrite Hc.
  simpl negb. cbv iota. cbv zeta.
  set (m := Rmax 0 (Rmin CONFIG.CANVAS_WIDTH
                      ((clientX - rectLeft) * (CONFIG.CANVAS_WIDTH / rectWidth)))).
  assert (Hm : 0 <= m <= CONFIG.CANVAS_WIDTH).
  { unfold m. split; [apply Rmax_l |].
    apply Rmax_lub; [config; lra | apply Rmin_l]. }
  split; [| split].
  - exists m. repeat split; try apply Hm.
  - unfold GameLoop.movePaddle. simpl.
    unfold paddleInField. simpl.
    apply Paddle_clamp_in_field. lra.
  - unfold GameLoop.movePaddle, InputHandler.getPaddleDirection. simpl.
    destruct (Req_dec_T (-1) 0) as [E | _]; [exfalso; lra |]. reflexivity.
Qed.

Lemma pointer_moves_paddle_witness :
  paddleInField
    (Game.paddle
       (GameLoop.game
          (GameLoop.movePaddle (1 / 60)
             (GameLoop.step lastLifeDriver (GameLoop.MouseMove 700 100 960))))).
Proof.
  assert (Hr : 960 <> 0) by lra.
  assert (Hw : Paddle.width (Game.paddle (GameLoop.game lastLifeDriver))
               <= CONFIG.CANVAS_WIDTH) by (simpl; config; lra).
  exact (proj1 (proj2 (pointer_moves_paddle 700 100 960 (1 / 60)
                         lastLifeDriver eq_refl Hr Hw))).
Defined.

(** ** starfield.js *)

Lemma updateStar_stepped (speed dt time : R) (s : Starfield.star)
  (g : Rng.t) :
  starStepped speed dt s (fst (Starfield.updateStar speed dt time s g)).
Proof.
  unfold Starfield.updateStar, starStepped. cbv zeta.
  pose proof (SIN_bound (time * Starfield.twinkleSpeed s +
                         Starfield.twinkleOffset s)) as [S1 S2].
  destruct (Num.gtb _ CONFIG.CANVAS_HEIGHT) eqn:E; simpl; num_prop.
  - split; [reflexivity |]. split; [reflexivity |].
    split; [reflexivity |]. split; [reflexivity |].
    split; [intros _; reflexivity |].
    split; [intros H; exfalso; lra |].
    split; [config; lra |].
    eexists; split; [reflexivity | intros Hb; nra].
  - split; [reflexivity |]. split; [reflexivity |].
    split; [reflexivity |]. split; [reflexivity |].
    split; [intros H; exfalso; lra |].
    split; [intros _; repeat split; reflexivity |].
    split; [exact E |].
    eexists; split; [reflexivity | intros Hb; nra].
Qed.

Lemma updateStars_stepped (speed dt time : R) (ss : list Starfield.star) :
  forall g,
    Forall2 (starStepped speed dt) ss
      (fst (Starfield.updateStars speed dt time ss g)).
Proof.
  induction ss as [| s ss IH]; intros g; simpl; [constructor |].
  pose proof (updateStar_stepped speed dt time s g) as U.
  destruct (Starfield.updateStar speed dt time s g) as [s' g']. simpl in U.
  specialize (IH g').
  destruct (Starfield.updateStars speed dt time ss g') as [rest g''].
  simpl in *. constructor; assumption.
Qed.

(** X30. [Starfield.update] steps every star in place: the list keeps its
    length and order, and star by star the size, brightness and twinkle
    parameters are kept; a star whose new y is past the bottom of the
    canvas restarts at y = -10, any other moves down by speed * z *
    deltaTime and keeps x and z; every star ends with y <= CANVAS_HEIGHT
    and a current brightness that, for a non-negative brightness, lies
    between 0.4 and 1 times the brightness.  The star count and the speed
    of the field are kept. *)
Theorem Starfield_update_settles (dt now : R) (g : Rng.t) (f : Starfield.t) :
  Forall2 (starStepped (Starfield.speed f) dt) (Starfield.stars f)
    (Starfield.stars (fst (Starfield.update dt now g f))) /\
  length (Starfield.stars (fst (Starfield.update dt now g f))) =
    length (Starfield.stars f) /\
  Starfield.numStars (fst (Starfield.update dt now g f)) =
    Starfield.numStars f /\
  Starfield.speed (fst (Starfield.update dt now g f)) = Starfield.speed f.
Proof.
  unfold Starfield.update. cbv zeta.
  pose proof (updateStars_stepped (Starfield.speed f) dt (now / 1000)
                (Starfield.stars f) g) as U.
  destruct (Starfield.updateStars _ _ _ _ g) as [ss g']. simpl in *.
  split; [exact U |]. split; [| split; reflexivity].
  symmetry. exact (Forall2_length U).
Qed.
